(** * vacuum_map_parser_base: map model, palette and renderer

    A shallow embedding of [map_data.py], [config/*.py],
    [image_generator.py] and [map_data_parser.py], followed by the
    properties of the rendering core that are stated about them.

    Numbers.  Python's [int] is [Z].  Python's [float] is modelled by the
    exact rationals [Q]: every finite float is a rational, and each
    operation of the source is read as the exact one (no rounding, no
    NaN, no infinities).  A definition is thus the expression that the
    code evaluates.  A property of floats is stated as the identity of
    two expressions that the code itself evaluates (up to [Qeq], [==]),
    as an order that rounding preserves, under hypotheses that keep the
    operations exact (integers up to 2^53), or with a margin that
    leaves room for the rounding.  The countdown of [Point.rotated]
    is exact here as it is in the code for rotations up to 2^53;
    beyond, the code's [alpha - 90] is rounded and nothing is claimed.

    Strings.  A [string] is the Python [str] of the same code points,
    all below 256.

    Libraries.  [math.cos], [math.sin], [math.pi], [math.radians] and the
    font and text metrics of the raster library are not part of the
    package; they are the variables of the section [Model].  An image of
    the raster library is modelled by the history of the library calls
    that produced it.

    Effects.  A routine that mutates the map or its image takes the
    object and returns it, together with the exception if one is raised.
    The pseudo-random source of the palette is a sequence of integers
    read at a moving position. *)

From Stdlib Require Import ZArith QArith Qround Qabs Reals Qreals Lra Lqa Lia.
From Stdlib Require Import String Ascii List.
From stdpp Require Import base option gmap strings list fin_maps pretty.

Local Open Scope Z_scope.

(** ** Python numerics *)

Module PyNum.

(** [int(q)] on a float: truncation toward zero. *)
Definition py_int (q : Q) : Z := Z.quot (Qnum q) (Zpos (Qden q)).

(** [a % b] on floats: the result has the sign of [b]. *)
Definition py_mod (a b : Q) : Q := (a - b * inject_Z (Qfloor (a / b)))%Q.

(** [a == b], [a > b], [a >= b] on numbers. *)
Definition py_eq (a b : Q) : bool := Qeq_bool a b.
Definition py_gt (a b : Q) : bool := negb (Qle_bool a b).
Definition py_ge (a b : Q) : bool := Qle_bool b a.

End PyNum.
Export PyNum.

(** ** config/color.py *)

(** [Color = tuple[int, int, int] | tuple[int, int, int, int]]. *)
Inductive Color : Type :=
| RGB (r g b : Z)
| RGBA (r g b a : Z).

#[global] Instance Color_eq_dec : EqDecision Color.
Proof. solve_decision. Defined.

(** [len(color)], [color[0]], [color[1]], [color[2]]. *)
Definition Color_len (c : Color) : Z :=
  match c with RGB _ _ _ => 3 | RGBA _ _ _ _ => 4 end.
Definition Color_r (c : Color) : Z :=
  match c with RGB r _ _ => r | RGBA r _ _ _ => r end.
Definition Color_g (c : Color) : Z :=
  match c with RGB _ g _ => g | RGBA _ g _ _ => g end.
Definition Color_b (c : Color) : Z :=
  match c with RGB _ _ b => b | RGBA _ _ b _ => b end.

(** [class SupportedColor(StrEnum)]: the members and their string values.
    A member is a [str]; dictionaries keyed by members are keyed by these
    strings. *)
Inductive SupportedColor : Type :=
| CARPETS | CHARGER | CHARGER_OUTLINE | CLEANED_AREA | GOTO_PATH | GREY_WALL
| IGNORED_OBSTACLE | IGNORED_OBSTACLE_WITH_PHOTO | MAP_INSIDE | MAP_OUTSIDE
| MAP_WALL | MAP_WALL_V2 | MOP_PATH | NEW_DISCOVERED_AREA | NO_CARPET_ZONES
| NO_CARPET_ZONES_OUTLINE | NO_GO_ZONES | NO_GO_ZONES_OUTLINE
| NO_MOPPING_ZONES | NO_MOPPING_ZONES_OUTLINE | OBSTACLE | OBSTACLE_WITH_PHOTO
| PATH | PREDICTED_PATH | ROBO | ROBO_OUTLINE | ROOM_NAMES | SCAN | UNKNOWN
| VIRTUAL_WALLS | ZONES | ZONES_OUTLINE.

Definition SupportedColor_value (c : SupportedColor) : string :=
  match c with
  | CARPETS => "color_carpets"
  | CHARGER => "color_charger"
  | CHARGER_OUTLINE => "color_charger_outline"
  | CLEANED_AREA => "color_cleaned_area"
  | GOTO_PATH => "color_goto_path"
  | GREY_WALL => "color_grey_wall"
  | IGNORED_OBSTACLE => "color_ignored_obstacle"
  | IGNORED_OBSTACLE_WITH_PHOTO => "color_ignored_obstacle_with_photo"
  | MAP_INSIDE => "color_map_inside"
  | MAP_OUTSIDE => "color_map_outside"
  | MAP_WALL => "color_map_wall"
  | MAP_WALL_V2 => "color_map_wall_v2"
  | MOP_PATH => "color_mop_path"
  | NEW_DISCOVERED_AREA => "color_new_discovered_area"
  | NO_CARPET_ZONES => "color_no_carpet_zones"
  | NO_CARPET_ZONES_OUTLINE => "color_no_carpet_zones_outline"
  | NO_GO_ZONES => "color_no_go_zones"
  | NO_GO_ZONES_OUTLINE => "color_no_go_zones_outline"
  | NO_MOPPING_ZONES => "color_no_mop_zones"
  | NO_MOPPING_ZONES_OUTLINE => "color_no_mop_zones_outline"
  | OBSTACLE => "color_obstacle"
  | OBSTACLE_WITH_PHOTO => "color_obstacle_with_photo"
  | PATH => "color_path"
  | PREDICTED_PATH => "color_predicted_path"
  | ROBO => "color_robo"
  | ROBO_OUTLINE => "color_robo_outline"
  | ROOM_NAMES => "color_room_names"
  | SCAN => "color_scan"
  | UNKNOWN => "color_unknown"
  | VIRTUAL_WALLS => "color_virtual_walls"
  | ZONES => "color_zones"
  | ZONES_OUTLINE => "color_zones_outline"
  end.

(** All members, in declaration order. *)
Definition SupportedColor_members : list SupportedColor :=
  [ CARPETS; CHARGER; CHARGER_OUTLINE; CLEANED_AREA; GOTO_PATH; GREY_WALL;
    IGNORED_OBSTACLE; IGNORED_OBSTACLE_WITH_PHOTO; MAP_INSIDE; MAP_OUTSIDE;
    MAP_WALL; MAP_WALL_V2; MOP_PATH; NEW_DISCOVERED_AREA; NO_CARPET_ZONES;
    NO_CARPET_ZONES_OUTLINE; NO_GO_ZONES; NO_GO_ZONES_OUTLINE;
    NO_MOPPING_ZONES; NO_MOPPING_ZONES_OUTLINE; OBSTACLE; OBSTACLE_WITH_PHOTO;
    PATH; PREDICTED_PATH; ROBO; ROBO_OUTLINE; ROOM_NAMES; SCAN; UNKNOWN;
    VIRTUAL_WALLS; ZONES; ZONES_OUTLINE ].

(** [ColorsPalette.COLORS], entry by entry as the class body lists them. *)
Definition COLORS : gmap string Color :=
  list_to_map
    [ (SupportedColor_value MAP_INSIDE, RGB 32 115 185);
      (SupportedColor_value MAP_OUTSIDE, RGB 19 87 148);
      (SupportedColor_value MAP_WALL, RGB 100 196 254);
      (SupportedColor_value MAP_WALL_V2, RGB 93 109 126);
      (SupportedColor_value GREY_WALL, RGB 93 109 126);
      (SupportedColor_value CLEANED_AREA, RGBA 127 127 127 127);
      (SupportedColor_value PATH, RGB 147 194 238);
      (SupportedColor_value GOTO_PATH, RGB 0 255 0);
      (SupportedColor_value PREDICTED_PATH, RGB 255 255 0);
      (SupportedColor_value ZONES, RGBA 173 216 255 143);
      (SupportedColor_value ZONES_OUTLINE, RGB 173 216 255);
      (SupportedColor_value VIRTUAL_WALLS, RGB 255 0 0);
      (SupportedColor_value NEW_DISCOVERED_AREA, RGB 64 64 64);
      (SupportedColor_value CARPETS, RGB 169 247 169);
      (SupportedColor_value NO_CARPET_ZONES, RGBA 255 33 55 127);
      (SupportedColor_value NO_CARPET_ZONES_OUTLINE, RGB 255 0 0);
      (SupportedColor_value NO_GO_ZONES, RGBA 255 33 55 127);
      (SupportedColor_value NO_GO_ZONES_OUTLINE, RGB 255 0 0);
      (SupportedColor_value NO_MOPPING_ZONES, RGBA 163 130 211 127);
      (SupportedColor_value NO_MOPPING_ZONES_OUTLINE, RGB 163 130 211);
      (SupportedColor_value CHARGER, RGBA 102 254 218 127);
      (SupportedColor_value CHARGER_OUTLINE, RGBA 102 254 218 127);
      (SupportedColor_value ROBO, RGB 255 255 255);
      (SupportedColor_value ROBO_OUTLINE, RGB 0 0 0);
      (SupportedColor_value ROOM_NAMES, RGB 0 0 0);
      (SupportedColor_value OBSTACLE, RGBA 0 0 0 128);
      (SupportedColor_value IGNORED_OBSTACLE, RGBA 0 0 0 128);
      (SupportedColor_value OBSTACLE_WITH_PHOTO, RGBA 0 0 0 128);
      (SupportedColor_value IGNORED_OBSTACLE_WITH_PHOTO, RGBA 0 0 0 128);
      (SupportedColor_value UNKNOWN, RGB 0 0 0);
      (SupportedColor_value SCAN, RGB 223 223 223) ].

(** [ColorsPalette.ROOM_COLORS]. *)
Definition ROOM_COLORS_items : list (string * Color) :=
  [ ("1", RGB 240 178 122); ("2", RGB 133 193 233); ("3", RGB 217 136 128);
    ("4", RGB 52 152 219); ("5", RGB 205 97 85); ("6", RGB 243 156 18);
    ("7", RGB 88 214 141); ("8", RGB 245 176 65); ("9", RGB 252 212 81);
    ("10", RGB 72 201 176); ("11", RGB 84 153 199); ("12", RGB 133 193 233);
    ("13", RGB 245 176 65); ("14", RGB 82 190 128); ("15", RGB 72 201 176);
    ("16", RGB 165 105 189) ].

Definition ROOM_COLORS : gmap string Color := list_to_map ROOM_COLORS_items.

(** [random.Random]: the instance-local pseudo-random source.  Its output
    is an arbitrary sequence of integers, read at a moving position. *)
Record Random : Type := mkRandom {
  rnd_draws : nat -> Z;
  rnd_pos : nat
}.

(** [Random.randint(a, b)]: a value in [a..b] and the advanced source. *)
Definition randint (r : Random) (a b : Z) : Z * Random :=
  (a + rnd_draws r (rnd_pos r) mod (b - a + 1),
   mkRandom (rnd_draws r) (S (rnd_pos r))).

Record ColorsPalette : Type := mkColorsPalette {
  _random : Random;
  _overriden_colors : gmap string Color;
  _overriden_room_colors : gmap string Color
}.

(** [ColorsPalette.__init__(colors_dict, room_colors)]; the fresh
    [Random()] is the argument [rnd]. *)
Definition ColorsPalette_init (rnd : Random)
    (colors_dict room_colors : option (gmap string Color)) : ColorsPalette :=
  mkColorsPalette rnd
    (match colors_dict with None => ∅ | Some d => d end)
    (match room_colors with None => ∅ | Some d => d end).

(** [dict.get(key, default)]. *)
Definition dict_get {V : Type} (d : gmap string V) (key : string) (default : V) : V :=
  match d !! key with Some v => v | None => default end.

(** [get_color] over an arbitrary built-in table; [get_color] is its
    instance at [COLORS]. *)
Definition get_color_in (builtin : gmap string Color)
    (self : ColorsPalette) (color_name : string) : Color :=
  dict_get (_overriden_colors self) color_name
    (dict_get builtin color_name
       (dict_get builtin (SupportedColor_value UNKNOWN) (RGB 0 0 0))).

Definition get_color (self : ColorsPalette) (color_name : string) : Color :=
  get_color_in COLORS self color_name.

(** *** Conversions between [int] and [str]

    A [string] stands for the Python [str] with the same code points,
    all below 256.  The conversions are those of CPython 3.11 and later
    (the package needs [enum.StrEnum]) at its default limit of 4300
    digits. *)

(** [sys.get_int_max_str_digits()]. *)
Definition int_max_str_digits : Z := 4300.

(** The decimal digits of [n], ["-"] in front of a negative: the value
    of [str(n)] where it returns, see [str_of_int]. *)
Definition py_str (n : Z) : string := pretty n.

Definition is_digit (c : ascii) : bool :=
  let n := N_of_ascii c in ((48 <=? n) && (n <=? 57))%N.

Definition digit_val (c : ascii) : Z := Z.of_N (N_of_ascii c) - 48.

(** White space as [int()] skips it: tab to carriage return, the space,
    and of the code points from 128 on the next-line and no-break-space
    characters.  The separators 28 to 31 are not skipped. *)
Definition is_space (c : ascii) : bool :=
  let n := N_of_ascii c in
  ((n =? 32) || ((9 <=? n) && (n <=? 13)) || (n =? 133) || (n =? 160))%N.

Fixpoint lstrip (s : list ascii) : list ascii :=
  match s with
  | c :: s' => if is_space c then lstrip s' else s
  | [] => []
  end.

(** What the scan of a literal has just read. *)
Inductive ScanState : Type := AtStart | AfterDigit | AfterUnderscore.

(** The run of digits, with single underscores between them, at the
    head of [s]: its value, the number of its digits and the rest of
    [s]; [None] when there is no digit or an underscore is misplaced. *)
Fixpoint scan_digits (acc count : Z) (prev : ScanState) (s : list ascii)
    : option (Z * Z * list ascii) :=
  match s with
  | c :: s' =>
      if is_digit c then scan_digits (acc * 10 + digit_val c) (count + 1) AfterDigit s'
      else if Ascii.eqb c "_" then
        match prev with
        | AfterDigit => scan_digits acc count AfterUnderscore s'
        | _ => None
        end
      else
        match prev with
        | AfterDigit => Some (acc, count, s)
        | _ => None
        end
  | [] =>
      match prev with
      | AfterDigit => Some (acc, count, [])
      | _ => None
      end
  end.

(** Exceptions that the modelled code can raise; the message is the
    fixed part of the text. *)
Inductive Exn : Type :=
| ValueError (msg : string)
| AttributeError (msg : string).

Definition invalid_literal : Exn :=
  ValueError "invalid literal for int() with base 10".

Definition exceeds_limit : Exn :=
  ValueError "Exceeds the limit (4300 digits) for integer string conversion".

(** [int(s)] for a [str]: white space, a sign, the digits, white space. *)
Definition int_of_str (s : string) : Exn + Z :=
  let s0 := lstrip (list_ascii_of_string s) in
  let '(negative, s1) :=
    match s0 with
    | c :: s' =>
        if Ascii.eqb c "-" then (true, s')
        else if Ascii.eqb c "+" then (false, s')
        else (false, s0)
    | [] => (false, s0)
    end in
  match scan_digits 0 0 AtStart s1 with
  | None => inl invalid_literal
  | Some (value, count, rest) =>
      if int_max_str_digits <? count then inl exceeds_limit
      else
        match lstrip rest with
        | [] => inr (if negative then - value else value)
        | _ :: _ => inl invalid_literal
        end
  end.

(** The integer that [int(s)] returns, [None] when it raises. *)
Definition py_int_of_str (s : string) : option Z :=
  match int_of_str s with
  | inr n => Some n
  | inl _ => None
  end.

(** [str(n)] for an [int]: it raises on more than 4300 digits. *)
Definition str_of_int (n : Z) : Exn + string :=
  if 10 ^ int_max_str_digits <=? Z.abs n then inl exceeds_limit
  else inr (py_str n).

(** [room_id: str | int]. *)
Inductive RoomId : Type :=
| RoomInt (n : Z)
| RoomStr (s : string).

(** [ColorsPalette.get_room_color]: the colour, or the exception of
    [int(room_id)] or of [str(room_id)], and the palette with its random
    source advanced; the argument of the innermost [get] is evaluated on
    every call that gets that far. *)
Definition get_room_color (self : ColorsPalette) (room_id : RoomId)
    : (Exn + Color) * ColorsPalette :=
  let parsed :=
    match room_id with
    | RoomStr s => int_of_str s
    | RoomInt n => inr n
    end in
  match parsed with
  | inl e => (inl e, self)
  | inr room_id =>
      let room_id :=
        if room_id >? Z.of_nat (size ROOM_COLORS)
        then (room_id - 1) mod Z.of_nat (size ROOM_COLORS) + 1
        else room_id in
      match str_of_int room_id with
      | inl e => (inl e, self)
      | inr key =>
          let '(r, rnd) := randint (_random self) 1 16 in
          let self' :=
            mkColorsPalette rnd (_overriden_colors self) (_overriden_room_colors self) in
          match str_of_int r with
          | inl e => (inl e, self')
          | inr random_key =>
              (inr (dict_get (_overriden_room_colors self) key
                      (dict_get ROOM_COLORS key
                         (dict_get ROOM_COLORS random_key (RGB 0 0 0)))),
               self')
          end
      end
  end.

(** ** config/size.py *)

Inductive Size : Type :=
| CHARGER_RADIUS | IGNORED_OBSTACLE_RADIUS | IGNORED_OBSTACLE_WITH_PHOTO_RADIUS
| MOP_PATH_WIDTH | OBSTACLE_RADIUS | OBSTACLE_WITH_PHOTO_RADIUS
| VACUUM_RADIUS | PATH_WIDTH.

Definition Size_value (s : Size) : string :=
  match s with
  | CHARGER_RADIUS => "charger_radius"
  | IGNORED_OBSTACLE_RADIUS => "ignored_obstacle_radius"
  | IGNORED_OBSTACLE_WITH_PHOTO_RADIUS => "ignored_obstacle_with_photo_radius"
  | MOP_PATH_WIDTH => "mop_path_width"
  | OBSTACLE_RADIUS => "obstacle_radius"
  | OBSTACLE_WITH_PHOTO_RADIUS => "obstacle_with_photo_radius"
  | VACUUM_RADIUS => "vacuum_radius"
  | PATH_WIDTH => "path_width"
  end.

Definition SIZES : gmap string Q :=
  list_to_map
    [ (Size_value VACUUM_RADIUS, 6%Q);
      (Size_value PATH_WIDTH, 1%Q);
      (Size_value IGNORED_OBSTACLE_RADIUS, 3%Q);
      (Size_value IGNORED_OBSTACLE_WITH_PHOTO_RADIUS, 3%Q);
      (Size_value OBSTACLE_RADIUS, 3%Q);
      (Size_value OBSTACLE_WITH_PHOTO_RADIUS, 3%Q);
      (Size_value CHARGER_RADIUS, 6%Q) ].

Record Sizes : Type := mkSizes {
  _overriden_sizes : gmap string Q
}.

Definition Sizes_init (sizes : option (gmap string Q)) : Sizes :=
  mkSizes (match sizes with None => ∅ | Some d => d end).

Definition get_size (self : Sizes) (size : string) : Q :=
  dict_get (_overriden_sizes self) size (dict_get SIZES size 1%Q).

(** ** config/drawable.py *)

Inductive Drawable : Type :=
| D_CHARGER | D_CLEANED_AREA | D_GOTO_PATH | D_IGNORED_OBSTACLES
| D_IGNORED_OBSTACLES_WITH_PHOTO | D_MOP_PATH | D_NO_CARPET_AREAS
| D_NO_GO_AREAS | D_NO_MOPPING_AREAS | D_OBSTACLES | D_OBSTACLES_WITH_PHOTO
| D_PATH | D_PREDICTED_PATH | D_ROOM_NAMES | D_VACUUM_POSITION
| D_VIRTUAL_WALLS | D_ZONES.

#[global] Instance Drawable_eq_dec : EqDecision Drawable.
Proof. solve_decision. Defined.

Definition Drawable_value (d : Drawable) : string :=
  match d with
  | D_CHARGER => "charger"
  | D_CLEANED_AREA => "cleaned_area"
  | D_GOTO_PATH => "goto_path"
  | D_IGNORED_OBSTACLES => "ignored_obstacles"
  | D_IGNORED_OBSTACLES_WITH_PHOTO => "ignored_obstacles_with_photo"
  | D_MOP_PATH => "mop_path"
  | D_NO_CARPET_AREAS => "no_carpet_zones"
  | D_NO_GO_AREAS => "no_go_zones"
  | D_NO_MOPPING_AREAS => "no_mopping_zones"
  | D_OBSTACLES => "obstacles"
  | D_OBSTACLES_WITH_PHOTO => "obstacles_with_photo"
  | D_PATH => "path"
  | D_PREDICTED_PATH => "predicted_path"
  | D_ROOM_NAMES => "room_names"
  | D_VACUUM_POSITION => "vacuum_position"
  | D_VIRTUAL_WALLS => "virtual_walls"
  | D_ZONES => "zones"
  end.

(** ** config/image_config.py and config/text.py *)

Record TrimConfig : Type := mkTrimConfig {
  trim_left : Q;
  trim_right : Q;
  trim_top : Q;
  trim_bottom : Q
}.

Definition TrimConfig_default : TrimConfig := mkTrimConfig 0 0 0 0.

Record ImageConfig : Type := mkImageConfig {
  ic_scale : Q;
  ic_rotate : Q;
  ic_trim : TrimConfig
}.

Definition ImageConfig_default : ImageConfig :=
  mkImageConfig 1 0 TrimConfig_default.

Record Text : Type := mkText {
  text_text : string;
  text_x : Q;
  text_y : Q;
  text_color : Color;
  text_font : option string;
  text_font_size : option Z
}.

(** ** The raster library (PIL), as far as the renderer uses it

    An [Image] is the history of the library calls that produced it; the
    library's rasterisation itself is not modelled.  All images are taken
    to be in mode RGBA. *)

(** A font loaded by [ImageFont.truetype(font_file, font_size)]. *)
Record Font : Type := mkFont {
  font_file : string;
  font_size : Z
}.

(** Outcome of [ImageFont.truetype]. *)
Inductive FontResult : Type :=
| FontLoaded (f : Font)
| FontOSError
| FontImportError.

(** The calls on an [ImageDraw] object. *)
Inductive DrawOp : Type :=
| Draw_ellipse (xy : list Q) (fill outline : option Color)
| Draw_line (xy : list Q) (fill : Color) (width : Z)
| Draw_pieslice (xy : list Q) (start end_ : Q) (fill outline : Color)
| Draw_polygon (xy : list Q) (fill outline : Color)
| Draw_text (xy : Q * Q) (text : string) (font : option Font) (fill : Color).

Inductive Transpose : Type := ROTATE_90 | ROTATE_180 | ROTATE_270.

Inductive Image : Type :=
| Raster (name : string) (size : Z * Z)
    (* a raster built outside this package (the parser's map image,
       an additional layer) *)
| Image_new (mode : string) (size : Z * Z) (color : Color)
| Drawn (im : Image) (op : DrawOp)
    (* [im] after one call on an [ImageDraw.Draw(im, "RGBA")] *)
| Image_transpose (im : Image) (method : Transpose)
| Image_rotate (im : Image) (angle : Q) (fillcolor : Color)
    (* [im.rotate(angle, Resampling.BILINEAR, True, fillcolor=...)] *)
| Image_resize (im : Image) (size : Z * Z)
    (* [im.resize(size, resample=Resampling.BOX)] *)
| Image_alpha_composite (im1 im2 : Image).

(** ** map_data.py: geometry *)

Record Point : Type := mkPoint {
  pt_x : Q;
  pt_y : Q;
  pt_a : option Q
}.

(** [Point(x, y)]: the angle defaults to [None]. *)
Definition Point_xy (x y : Q) : Point := mkPoint x y None.

Record ObstacleDetails : Type := mkObstacleDetails {
  od_type : option Z;
  od_description : option string;
  od_confidence_level : option Q;
  od_photo_name : option string
}.

(** [class Obstacle(Point)]: a point ([Obstacle.__init__] passes only
    [x] and [y] on) with its details. *)
Record Obstacle : Type := mkObstacle {
  ob_point : Point;
  ob_details : ObstacleDetails
}.

Definition Obstacle_init (x y : Q) (details : ObstacleDetails) : Obstacle :=
  mkObstacle (Point_xy x y) details.

Record ImageDimensions : Type := mkImageDimensions {
  top : Z;
  left : Z;
  height : Z;
  width : Z;
  scale : Q;
  rotation : Q;
  img_transformation : Point -> Point
}.

(** [ImageDimensions.to_img]. *)
Definition to_img (self : ImageDimensions) (point : Point) : Point :=
  let p := img_transformation self point in
  Point_xy
    ((pt_x p - inject_Z (left self)) * scale self)%Q
    ((inject_Z (height self) - (pt_y p - inject_Z (top self)) - 1) * scale self)%Q.

(** [Point.to_img]. *)
Definition Point_to_img (self : Point) (image_dimensions : ImageDimensions) : Point :=
  to_img image_dimensions self.

(** [Point.__mul__] and [Point.__truediv__]. *)
Definition Point_mul (self : Point) (other : Q) : Point :=
  mkPoint (pt_x self * other)%Q (pt_y self * other)%Q (pt_a self).
Definition Point_truediv (self : Point) (other : Q) : Point :=
  mkPoint (pt_x self / other)%Q (pt_y self / other)%Q (pt_a self).

(** The [while alpha > 0] loop of [Point.rotated]; [None] when the fuel
    runs out before the loop condition fails. *)
Fixpoint rotated_loop (fuel : nat) (alpha x y : Q) (w h : Z) : option Point :=
  if py_gt alpha 0 then
    match fuel with
    | O => None
    | S fuel' => rotated_loop fuel' (alpha - 90)%Q y (inject_Z w - x)%Q h w
    end
  else Some (Point_xy x y).

(** Iterations that the loop needs from [alpha]. *)
Definition rotated_fuel (alpha : Q) : nat := Z.to_nat (Qceiling (alpha / 90)).

(** The branch of [Point.rotated] for a rotation that is a multiple of 90
    degrees. *)
Definition rotated_fast (alpha x y : Q) (w h : Z) : Point :=
  match rotated_loop (rotated_fuel alpha) alpha x y w h with
  | Some p => p
  | None => Point_xy x y (* not reached: see [rotated_loop_fuel] *)
  end.

(** The branch of [Point.rotated] for any other rotation; [cos] and [sin]
    are [math.cos] and [math.sin], [a] is [math.radians(alpha)]. *)
Definition rotated_general (cos sin : Q -> Q) (a x y : Q) (w h : Z) : Point :=
  let xm := (inject_Z w / 2)%Q in
  let ym := (inject_Z h / 2)%Q in
  let wr := (Qabs (inject_Z w * cos a) + Qabs (inject_Z h * sin a))%Q in
  let hr := (Qabs (inject_Z w * sin a) + Qabs (inject_Z h * cos a))%Q in
  let xr := ((x - xm) * cos a + (y - ym) * sin a + wr / 2)%Q in
  let yr := (- (x - xm) * sin a + (y - ym) * cos a + hr / 2)%Q in
  Point_xy xr yr.

(** [Wall], [Area], [Zone], [Room], [Path]. *)
Record Wall : Type := mkWall {
  wall_x0 : Q; wall_y0 : Q; wall_x1 : Q; wall_y1 : Q
}.

Definition Wall_to_img (self : Wall) (image_dimensions : ImageDimensions) : Wall :=
  let p0 := Point_to_img (Point_xy (wall_x0 self) (wall_y0 self)) image_dimensions in
  let p1 := Point_to_img (Point_xy (wall_x1 self) (wall_y1 self)) image_dimensions in
  mkWall (pt_x p0) (pt_y p0) (pt_x p1) (pt_y p1).

Definition Wall_as_list (self : Wall) : list Q :=
  [wall_x0 self; wall_y0 self; wall_x1 self; wall_y1 self].

Record Area : Type := mkArea {
  area_x0 : Q; area_y0 : Q; area_x1 : Q; area_y1 : Q;
  area_x2 : Q; area_y2 : Q; area_x3 : Q; area_y3 : Q
}.

Definition Area_as_list (self : Area) : list Q :=
  [area_x0 self; area_y0 self; area_x1 self; area_y1 self;
   area_x2 self; area_y2 self; area_x3 self; area_y3 self].

Definition Area_to_img (self : Area) (image_dimensions : ImageDimensions) : Area :=
  let p0 := Point_to_img (Point_xy (area_x0 self) (area_y0 self)) image_dimensions in
  let p1 := Point_to_img (Point_xy (area_x1 self) (area_y1 self)) image_dimensions in
  let p2 := Point_to_img (Point_xy (area_x2 self) (area_y2 self)) image_dimensions in
  let p3 := Point_to_img (Point_xy (area_x3 self) (area_y3 self)) image_dimensions in
  mkArea (pt_x p0) (pt_y p0) (pt_x p1) (pt_y p1)
         (pt_x p2) (pt_y p2) (pt_x p3) (pt_y p3).

Record Zone : Type := mkZone {
  zone_x0 : Q; zone_y0 : Q; zone_x1 : Q; zone_y1 : Q
}.

Definition as_area (self : Zone) : Area :=
  mkArea (zone_x0 self) (zone_y0 self) (zone_x0 self) (zone_y1 self)
         (zone_x1 self) (zone_y1 self) (zone_x1 self) (zone_y0 self).

(** [class Room(Zone)]. *)
Record Room : Type := mkRoom {
  room_zone : Zone;
  room_number : Z;
  room_name : option string;
  room_pos_x : option Q;
  room_pos_y : option Q
}.

(** [Room.point]. *)
Definition Room_point (self : Room) : option Point :=
  match room_pos_x self, room_pos_y self, room_name self with
  | Some px, Some py, Some _ => Some (Point_xy px py)
  | _, _, _ => None
  end.

Record Path : Type := mkPath {
  point_length : option Z;
  point_size : option Z;
  path_angle : option Z;
  path_path : list (list Point)
}.

(** ** The part of the model that calls into external libraries *)

Section Model.

(** [math.cos], [math.sin], [math.pi], [math.radians]: their results are
    floats, hence rationals. *)
Variables (math_cos math_sin : Q -> Q) (math_pi : Q) (math_radians : Q -> Q).

(** [ImageDraw.textbbox((0, 0), text, font)]: left, top, right, bottom. *)
Variable textbbox : string -> option Font -> Q * Q * Q * Q.

(** [ImageFont.truetype(font_file, font_size)]. *)
Variable truetype : string -> Z -> FontResult.

(** Size of [im.rotate(angle, ..., expand=True)] from the size of [im]. *)
Variable rotate_size : Q -> Z * Z -> Z * Z.

(** [im.size]. *)
Fixpoint Image_size (im : Image) : Z * Z :=
  match im with
  | Raster _ size => size
  | Image_new _ size _ => size
  | Drawn im' _ => Image_size im'
  | Image_transpose im' method =>
      match method with
      | ROTATE_180 => Image_size im'
      | ROTATE_90 | ROTATE_270 => (snd (Image_size im'), fst (Image_size im'))
      end
  | Image_rotate im' angle _ => rotate_size angle (Image_size im')
  | Image_resize _ size => size
  | Image_alpha_composite im1 _ => Image_size im1
  end.

(** [Image.alpha_composite(im1, im2)]: the two sizes must agree. *)
Definition alpha_composite (im1 im2 : Image) : Exn + Image :=
  if decide (Image_size im1 = Image_size im2)
  then inr (Image_alpha_composite im1 im2)
  else inl (ValueError "images do not match").

(** [Point.rotated]. *)
Definition rotated (self : Point) (image_dimensions : ImageDimensions) : Point :=
  let alpha := rotation image_dimensions in
  let w := py_int (inject_Z (width image_dimensions) * scale image_dimensions) in
  let h := py_int (inject_Z (height image_dimensions) * scale image_dimensions) in
  let x := pt_x self in
  let y := pt_y self in
  if py_eq (py_mod alpha 90) 0 then rotated_fast alpha x y w h
  else rotated_general math_cos math_sin (math_radians alpha) x y w h.

(** ** map_data.py: [ImageData] and [MapData] *)

Record ImageData : Type := mkImageData {
  size_ : Z;
  dimensions : ImageDimensions;
  is_empty : bool;
  data : Image;
  additional_layers : gmap string Image
}.

(** [ImageData.__init__]. *)
Definition ImageData_init (size top left height width : Z)
    (image_config : ImageConfig) (data : Image)
    (img_transformation : Point -> Point)
    (additional_layers : option (gmap string (option Image))) : ImageData :=
  let trim_left := py_int (trim_left (ic_trim image_config) * inject_Z width / 100) in
  let trim_right := py_int (trim_right (ic_trim image_config) * inject_Z width / 100) in
  let trim_top := py_int (trim_top (ic_trim image_config) * inject_Z height / 100) in
  let trim_bottom := py_int (trim_bottom (ic_trim image_config) * inject_Z height / 100) in
  let scale := ic_scale image_config in
  let rotation := ic_rotate image_config in
  mkImageData size
    (mkImageDimensions
       (top + trim_bottom)
       (left + trim_left)
       (height - trim_top - trim_bottom)
       (width - trim_left - trim_right)
       scale rotation img_transformation)
    ((height =? 0) || (width =? 0))
    data
    (match additional_layers with
     | None => ∅
     | Some layers => omap (fun layer => layer) layers
     end).

(** [ImageData.create_empty]. *)
Definition create_empty (data : Image) : ImageData :=
  ImageData_init 0 0 0 0 0 ImageConfig_default data (fun p => p) None.

Record MapData : Type := mkMapData {
  _calibration_center : Q;
  _calibration_diff : Q;
  blocks : option (list Z);
  charger : option Point;
  goto : option (list Point);
  goto_path : option Path;
  image : option ImageData;
  no_go_areas : option (list Area);
  no_mopping_areas : option (list Area);
  no_carpet_areas : option (list Area);
  carpet_map : option (gset Z);
  obstacles : option (list Obstacle);
  ignored_obstacles : option (list Obstacle);
  obstacles_with_photo : option (list Obstacle);
  ignored_obstacles_with_photo : option (list Obstacle);
  path : option Path;
  predicted_path : option Path;
  mop_path : option Path;
  rooms : option (list (Z * Room));
    (* [dict[int, Room]], with its entries in insertion order *)
  vacuum_position : option Point;
  vacuum_room : option Z;
  vacuum_room_name : option string;
  walls : option (list Wall);
  zones : option (list Zone);
  cleaned_rooms : option (gset Z);
  map_name : option string
}.

(** [MapData.__init__]. *)
Definition MapData_init (calibration_center calibration_diff : Q) : MapData :=
  mkMapData calibration_center calibration_diff
    None None None None None None None None (Some ∅) None None None None
    None None None None None None None None None None None.

(** One entry of [CalibrationPoints]: the ["vacuum"] and the ["map"]
    coordinates, each as [(x, y)]. *)
Record CalibrationPoint : Type := mkCalibrationPoint {
  cp_vacuum : Q * Q;
  cp_map : Q * Q
}.

(** [MapData.calibration]. *)
Definition calibration (self : MapData) : option (list CalibrationPoint) :=
  match image self with
  | None => None
  | Some image =>
      if is_empty image then None
      else
        let c := _calibration_center self in
        let d := _calibration_diff self in
        Some
          (List.map
             (fun point =>
                let img_point :=
                  rotated (Point_to_img point (dimensions image)) (dimensions image) in
                mkCalibrationPoint (pt_x point, pt_y point)
                                   (pt_x img_point, pt_y img_point))
             [ Point_xy c c;
               Point_xy (c + d * 10)%Q c;
               Point_xy c (c + d * 10)%Q ])
  end.

(** Assignments to the two attributes that the renderer writes. *)
Definition set_data (im : ImageData) (d : Image) : ImageData :=
  mkImageData (size_ im) (dimensions im) (is_empty im) d (additional_layers im).

Definition set_image (md : MapData) (im : option ImageData) : MapData :=
  mkMapData (_calibration_center md) (_calibration_diff md) (blocks md)
    (charger md) (goto md) (goto_path md) im (no_go_areas md)
    (no_mopping_areas md) (no_carpet_areas md) (carpet_map md) (obstacles md)
    (ignored_obstacles md) (obstacles_with_photo md)
    (ignored_obstacles_with_photo md) (path md) (predicted_path md)
    (mop_path md) (rooms md) (vacuum_position md) (vacuum_room md)
    (vacuum_room_name md) (walls md) (zones md) (cleaned_rooms md) (map_name md).

Definition set_vacuum_position (md : MapData) (p : option Point) : MapData :=
  mkMapData (_calibration_center md) (_calibration_diff md) (blocks md)
    (charger md) (goto md) (goto_path md) (image md) (no_go_areas md)
    (no_mopping_areas md) (no_carpet_areas md) (carpet_map md) (obstacles md)
    (ignored_obstacles md) (obstacles_with_photo md)
    (ignored_obstacles_with_photo md) (path md) (predicted_path md)
    (mop_path md) (rooms md) p (vacuum_room md)
    (vacuum_room_name md) (walls md) (zones md) (cleaned_rooms md) (map_name md).

(** ** image_generator.py *)

(** Outcome of a routine that works on a mutable object of type [S]: the
    object as the routine leaves it, on normal return or at the point
    where an exception is raised. *)
Inductive Res (S : Type) : Type :=
| Ok (s : S)
| Raised (e : Exn) (s : S).
#[global] Arguments Ok {S} s.
#[global] Arguments Raised {S} e s.

Definition bind {S : Type} (r : Res S) (f : S -> Res S) : Res S :=
  match r with
  | Ok s => f s
  | Raised e s => Raised e s
  end.

Notation "r >>= f" := (bind r f) (at level 50, left associativity).

(** [for x in xs: step(x)] on the object. *)
Fixpoint for_each {S A : Type} (step : A -> S -> Res S) (xs : list A) (s : S) : Res S :=
  match xs with
  | [] => Ok s
  | x :: xs' => step x s >>= for_each step xs'
  end.

(** The state of a routine that works on the image of a map. *)
Definition on_image (md : MapData) (r : Res ImageData) : Res MapData :=
  match r with
  | Ok im => Ok (set_image md (Some im))
  | Raised e im => Raised e (set_image md (Some im))
  end.

Record ImageGenerator : Type := mkImageGenerator {
  _palette : ColorsPalette;
  _sizes : Sizes;
  _drawables : list string;
  _image_config : ImageConfig;
  _texts : list Text
}.

Definition _get_color (self : ImageGenerator) (name : SupportedColor) : Color :=
  get_color (_palette self) (SupportedColor_value name).

Definition _get_room_color (self : ImageGenerator) (index : Z)
    : (Exn + Color) * ColorsPalette :=
  get_room_color (_palette self) (RoomInt (index + 1)).

Definition _get_size (self : ImageGenerator) (size : Size) : Q :=
  get_size (_sizes self) (Size_value size).

(** [_use_transparency]: does any of the colours carry an alpha channel? *)
Definition _use_transparency (colors : list Color) : bool :=
  existsb (fun color => Color_len color >? 3) colors.

(** The calls [ops], in order, on the [ImageDraw] of [im]. *)
Definition draw_ops (ops : list DrawOp) (im : Image) : Image :=
  fold_left Drawn ops im.

(** [_draw_layer_with_alpha]. *)
Definition _draw_layer_with_alpha (image : ImageData) (layer : Image) : Res ImageData :=
  match alpha_composite (data image) layer with
  | inr im => Ok (set_data image im)
  | inl e => Raised e image
  end.

(** [_draw_on_new_layer]; [draw_function] is the effect of the callable
    on the image that its [ImageDraw] argument draws on. *)
Definition _draw_on_new_layer (image : ImageData) (draw_function : Image -> Image)
    (scale : Q) (use_transparency : bool) : Res ImageData :=
  if py_eq scale 1 && negb use_transparency then
    Ok (set_data image (draw_function (data image)))
  else
    let size := (py_int (inject_Z (fst (Image_size (data image))) * scale),
                 py_int (inject_Z (snd (Image_size (data image))) * scale)) in
    let layer := Image_new "RGBA" size (RGBA 255 255 255 0) in
    let layer := draw_function layer in
    let layer :=
      if negb (py_eq scale 1)
      then Image_resize layer (Image_size (data image))
      else layer in
    _draw_layer_with_alpha image layer.

(** The square of half-side [r] around [(x, y)], as
    [[x - r, y - r, x + r, y + r]]. *)
Definition box (x y r : Q) : list Q := [x - r; y - r; x + r; y + r]%Q.

(** [_draw_vacuum]: the calls of its [draw_func], which also stores the
    default angle in [vacuum_pos]. *)
Definition _draw_vacuum_ops (dims : ImageDimensions) (vacuum_pos : Point)
    (r : Q) (outline fill : Color) : list DrawOp * Point :=
  let vacuum_pos :=
    match pt_a vacuum_pos with
    | None => mkPoint (pt_x vacuum_pos) (pt_y vacuum_pos) (Some 0%Q)
    | Some _ => vacuum_pos
    end in
  let a := match pt_a vacuum_pos with Some a => a | None => 0%Q end in
  let point := Point_to_img vacuum_pos dims in
  let r_scaled := (r / 16)%Q in
  (* main outline *)
  let op_body := [Draw_ellipse (box (pt_x point) (pt_y point) r) (Some fill) (Some outline)] in
  (* secondary outline *)
  let op_ring :=
    if py_ge r 8 then
      let r2 := (r_scaled * 14)%Q in
      [Draw_ellipse (box (pt_x point) (pt_y point) r2) None (Some outline)]
    else [] in
  (* bin cover *)
  let a1 := ((a + 104) / 180 * math_pi)%Q in
  let a2 := ((a - 104) / 180 * math_pi)%Q in
  let r2 := (r_scaled * 13)%Q in
  let x1 := (pt_x point - r2 * math_cos a1)%Q in
  let y1 := (pt_y point + r2 * math_sin a1)%Q in
  let x2 := (pt_x point - r2 * math_cos a2)%Q in
  let y2 := (pt_y point + r2 * math_sin a2)%Q in
  let op_bin := [Draw_line [x1; y1; x2; y2] outline 1] in
  (* lidar *)
  let angle := (a / 180 * math_pi)%Q in
  let r2 := (r_scaled * 3)%Q in
  let x := (pt_x point + r2 * math_cos angle)%Q in
  let y := (pt_y point - r2 * math_sin angle)%Q in
  let r2 := (r_scaled * 4)%Q in
  let op_lidar := [Draw_ellipse (box x y r2) (Some fill) (Some outline)] in
  (* button *)
  let half_color :=
    RGB ((Color_r outline + Color_r fill) / 2)
        ((Color_g outline + Color_g fill) / 2)
        ((Color_b outline + Color_b fill) / 2) in
  let r2 := (r_scaled * 10)%Q in
  let x := (pt_x point + r2 * math_cos angle)%Q in
  let y := (pt_y point - r2 * math_sin angle)%Q in
  let r2 := (r_scaled * 2)%Q in
  let op_button := [Draw_ellipse (box x y r2) (Some half_color) (Some half_color)] in
  (op_body ++ op_ring ++ op_bin ++ op_lidar ++ op_button, vacuum_pos).

Definition _draw_vacuum (image : ImageData) (vacuum_pos : Point)
    (r : Q) (outline fill : Color) : Res (ImageData * Point) :=
  let '(ops, vacuum_pos') :=
    _draw_vacuum_ops (dimensions image) vacuum_pos r outline fill in
  match _draw_on_new_layer image (draw_ops ops) 1 (_use_transparency [outline; fill]) with
  | Ok im => Ok (im, vacuum_pos')
  | Raised e im => Raised e (im, vacuum_pos')
  end.

(** [_draw_circle]. *)
Definition _draw_circle (image : ImageData) (center : Point)
    (r : Q) (outline fill : Color) : Res ImageData :=
  let point := Point_to_img center (dimensions image) in
  _draw_on_new_layer image
    (draw_ops [Draw_ellipse (box (pt_x point) (pt_y point) r) (Some fill) (Some outline)])
    1 (_use_transparency [outline; fill]).

(** [_draw_pieslice]. *)
Definition _draw_pieslice (image : ImageData) (position : Point)
    (r : Q) (outline fill : Color) : Res ImageData :=
  let point := Point_to_img position (dimensions image) in
  let angle := match pt_a position with Some a => (- a)%Q | None => 0%Q end in
  _draw_on_new_layer image
    (draw_ops [Draw_pieslice (box (pt_x point) (pt_y point) r)
                 (angle + 90)%Q (angle - 90)%Q fill outline])
    1 (_use_transparency [outline; fill]).

(** [_draw_areas]. *)
Definition _draw_areas (image : ImageData) (areas : list Area)
    (fill outline : Color) : Res ImageData :=
  if (Z.of_nat (length areas) =? 0) then Ok image
  else
    let use_transparency := _use_transparency [outline; fill] in
    for_each
      (fun area image =>
         let polygon := Area_as_list (Area_to_img area (dimensions image)) in
         _draw_on_new_layer image (draw_ops [Draw_polygon polygon fill outline])
           1 use_transparency)
      areas image.

(** [_draw_path]: the inner [for point in current_path[1:]] loop.  [s] is
    the start of the next segment and [coords] the last cap drawn
    ([None] before the first one). *)
Fixpoint _draw_path_segments (dims : ImageDimensions) (scale path_width : Q)
    (color : Color) (s : Point) (coords : option (list Q)) (points : list Point)
    : list DrawOp :=
  match points with
  | [] => []
  | point :: points' =>
      let e := Point_mul (Point_to_img point dims) scale in
      let op_line :=
        [Draw_line [pt_x s; pt_y s; pt_x e; pt_y e] color (py_int (scale * path_width))] in
      if py_gt path_width 4 then
        let r := (scale * path_width / 2)%Q in
        let op_start :=
          match coords with
          | None => [Draw_pieslice (box (pt_x s) (pt_y s) r) 0 360 color color]
          | Some _ => []
          end in
        let coords := box (pt_x e) (pt_y e) r in
        op_line ++ op_start ++ [Draw_pieslice coords 0 360 color color]
        ++ _draw_path_segments dims scale path_width color e (Some coords) points'
      else
        op_line ++ _draw_path_segments dims scale path_width color e coords points'
  end.

(** [_draw_path]: the calls of [draw_func] for one polyline. *)
Definition _draw_path_polyline (dims : ImageDimensions) (scale path_width : Q)
    (color : Color) (current_path : list Point) : list DrawOp :=
  match current_path with
  | first :: rest =>
      if (Z.of_nat (length current_path) >? 1) then
        let s := Point_mul (Point_to_img first dims) scale in
        _draw_path_segments dims scale path_width color s None rest
      else []
  | [] => []
  end.

(** [_draw_path]: the calls of [draw_func]. *)
Definition _draw_path_ops (dims : ImageDimensions) (scale path_width : Q)
    (color : Color) (path : Path) : list DrawOp :=
  flat_map (_draw_path_polyline dims scale path_width color) (path_path path).

(** [_draw_path]. *)
Definition _draw_path (self : ImageGenerator) (image : ImageData) (path : Path)
    (path_width : Q) (color : Color) : Res ImageData :=
  if (Z.of_nat (length (path_path path)) <? 1) then Ok image
  else
    let scale := ic_scale (_image_config self) in
    _draw_on_new_layer image
      (draw_ops (_draw_path_ops (dimensions image) scale path_width color path))
      scale (_use_transparency [color]).

(** [_draw_text]; the warning that is logged when the font cannot be
    loaded is not modelled. *)
Definition _draw_text (image : ImageData) (text : string) (x y : Q) (color : Color)
    (font_file : option string) (font_size : option Z) : Res ImageData :=
  let font :=
    match font_file, font_size with
    | Some file, Some size =>
        if size >? 0 then
          match truetype file size with
          | FontLoaded f => Some f
          | FontOSError => None
          | FontImportError => None
          end
        else None
    | _, _ => None
    end in
  let '(l, t, r, b) := textbbox text font in
  let w := (r - l)%Q in
  let h := (b - t)%Q in
  _draw_on_new_layer image
    (draw_ops [Draw_text ((x - w / 2)%Q, (y - h / 2)%Q) text font color])
    1 (_use_transparency [color]).

(** [_draw_texts]. *)
Definition _draw_texts (image : ImageData) (texts : list Text) : Res ImageData :=
  for_each
    (fun text_config image =>
       let x := (text_x text_config * inject_Z (fst (Image_size (data image))) / 100)%Q in
       let y := (text_y text_config * inject_Z (snd (Image_size (data image))) / 100)%Q in
       _draw_text image (text_text text_config) x y (text_color text_config)
         (text_font text_config) (text_font_size text_config))
    texts image.

(** [_rotate]. *)
Definition _rotate (self : ImageGenerator) (image : ImageData) : ImageData :=
  if py_eq (rotation (dimensions image)) 90 then
    set_data image (Image_transpose (data image) ROTATE_90)
  else if py_eq (rotation (dimensions image)) 180 then
    set_data image (Image_transpose (data image) ROTATE_180)
  else if py_eq (rotation (dimensions image)) 270 then
    set_data image (Image_transpose (data image) ROTATE_270)
  else
    set_data image
      (Image_rotate (data image) (rotation (dimensions image))
         (_get_color self MAP_OUTSIDE)).

(** [_draw_all_obstacles]. *)
Definition _draw_all_obstacles (image : ImageData) (obstacles : list Obstacle)
    (radius : Q) (color : Color) : Res ImageData :=
  for_each
    (fun obstacle image => _draw_circle image (ob_point obstacle) radius color color)
    obstacles image.

(** *** The renderers that [draw_map] dispatches to *)

Definition _draw_layer (map_data : MapData) (layer_name : string) : Res MapData :=
  match image map_data with
  | Some image =>
      match additional_layers image !! layer_name with
      | Some layer => on_image map_data (_draw_layer_with_alpha image layer)
      | None => Ok map_data
      end
  | None => Ok map_data
  end.

Definition _draw_vacuum_path (self : ImageGenerator) (map_data : MapData) : Res MapData :=
  match path map_data, image map_data with
  | Some path, Some image =>
      on_image map_data
        (_draw_path self image path
           (_get_size self PATH_WIDTH) (_get_color self PATH))
  | _, _ => Ok map_data
  end.

Definition _draw_goto_path (self : ImageGenerator) (map_data : MapData) : Res MapData :=
  match goto_path map_data, image map_data with
  | Some goto_path, Some image =>
      on_image map_data
        (_draw_path self image goto_path
           (_get_size self PATH_WIDTH) (_get_color self GOTO_PATH))
  | _, _ => Ok map_data
  end.

Definition _draw_predicted_path (self : ImageGenerator) (map_data : MapData) : Res MapData :=
  match predicted_path map_data, image map_data with
  | Some predicted_path, Some image =>
      on_image map_data
        (_draw_path self image predicted_path
           (_get_size self PATH_WIDTH) (_get_color self PREDICTED_PATH))
  | _, _ => Ok map_data
  end.

Definition _draw_mop_path (self : ImageGenerator) (map_data : MapData) : Res MapData :=
  match mop_path map_data, image map_data with
  | Some mop_path, Some image =>
      on_image map_data
        (_draw_path self image mop_path
           (_get_size self MOP_PATH_WIDTH) (_get_color self MOP_PATH))
  | _, _ => Ok map_data
  end.

Definition _draw_no_carpet_areas (self : ImageGenerator) (map_data : MapData) : Res MapData :=
  match no_carpet_areas map_data, image map_data with
  | Some no_carpet_areas, Some image =>
      on_image map_data
        (_draw_areas image no_carpet_areas
           (_get_color self NO_CARPET_ZONES) (_get_color self NO_CARPET_ZONES_OUTLINE))
  | _, _ => Ok map_data
  end.

Definition _draw_no_go_areas (self : ImageGenerator) (map_data : MapData) : Res MapData :=
  match no_go_areas map_data, image map_data with
  | Some no_go_areas, Some image =>
      on_image map_data
        (_draw_areas image no_go_areas
           (_get_color self NO_GO_ZONES) (_get_color self NO_GO_ZONES_OUTLINE))
  | _, _ => Ok map_data
  end.

Definition _draw_no_mopping_areas (self : ImageGenerator) (map_data : MapData) : Res MapData :=
  match no_mopping_areas map_data, image map_data with
  | Some no_mopping_areas, Some image =>
      on_image map_data
        (_draw_areas image no_mopping_areas
           (_get_color self NO_MOPPING_ZONES) (_get_color self NO_MOPPING_ZONES_OUTLINE))
  | _, _ => Ok map_data
  end.

Definition _draw_walls (self : ImageGenerator) (map_data : MapData) : Res MapData :=
  match walls map_data, image map_data with
  | Some walls, Some image =>
      let color := _get_color self VIRTUAL_WALLS in
      on_image map_data
        (_draw_on_new_layer image
           (draw_ops
              (List.map
                 (fun wall =>
                    Draw_line (Wall_as_list (Wall_to_img wall (dimensions image))) color 2)
                 walls))
           1 (_use_transparency [color]))
  | _, _ => Ok map_data
  end.

Definition _draw_zones (self : ImageGenerator) (map_data : MapData) : Res MapData :=
  match zones map_data, image map_data with
  | Some zones, Some image =>
      on_image map_data
        (_draw_areas image (List.map as_area zones)
           (_get_color self ZONES) (_get_color self ZONES_OUTLINE))
  | _, _ => Ok map_data
  end.

Definition _draw_charger (self : ImageGenerator) (map_data : MapData) : Res MapData :=
  match charger map_data, image map_data with
  | Some charger, Some image =>
      let fill := _get_color self CHARGER in
      let outline := _get_color self CHARGER_OUTLINE in
      let radius := _get_size self CHARGER_RADIUS in
      on_image map_data (_draw_pieslice image charger radius outline fill)
  | _, _ => Ok map_data
  end.

Definition _draw_obstacles (self : ImageGenerator) (map_data : MapData) : Res MapData :=
  match obstacles map_data, image map_data with
  | Some obstacles, Some image =>
      let color := _get_color self OBSTACLE in
      let radius := _get_size self OBSTACLE_RADIUS in
      on_image map_data (_draw_all_obstacles image obstacles radius color)
  | _, _ => Ok map_data
  end.

Definition _draw_ignored_obstacles (self : ImageGenerator) (map_data : MapData) : Res MapData :=
  match ignored_obstacles map_data, image map_data with
  | Some ignored_obstacles, Some image =>
      let color := _get_color self IGNORED_OBSTACLE in
      let radius := _get_size self IGNORED_OBSTACLE_RADIUS in
      on_image map_data (_draw_all_obstacles image ignored_obstacles radius color)
  | _, _ => Ok map_data
  end.

Definition _draw_obstacles_with_photo (self : ImageGenerator) (map_data : MapData)
    : Res MapData :=
  match obstacles_with_photo map_data, image map_data with
  | Some obstacles_with_photo, Some image =>
      let color := _get_color self OBSTACLE_WITH_PHOTO in
      let radius := _get_size self OBSTACLE_WITH_PHOTO_RADIUS in
      on_image map_data (_draw_all_obstacles image obstacles_with_photo radius color)
  | _, _ => Ok map_data
  end.

Definition _draw_ignored_obstacles_with_photo (self : ImageGenerator) (map_data : MapData)
    : Res MapData :=
  match ignored_obstacles_with_photo map_data, image map_data with
  | Some ignored_obstacles_with_photo, Some image =>
      let color := _get_color self IGNORED_OBSTACLE_WITH_PHOTO in
      let radius := _get_size self IGNORED_OBSTACLE_WITH_PHOTO_RADIUS in
      on_image map_data
        (_draw_all_obstacles image ignored_obstacles_with_photo radius color)
  | _, _ => Ok map_data
  end.

Definition _draw_vacuum_position (self : ImageGenerator) (map_data : MapData) : Res MapData :=
  match vacuum_position map_data, image map_data with
  | Some vacuum_position, Some image =>
      let color := _get_color self ROBO in
      let outline := _get_color self ROBO_OUTLINE in
      let radius := _get_size self VACUUM_RADIUS in
      match _draw_vacuum image vacuum_position radius outline color with
      | Ok (im, pos) =>
          Ok (set_image (set_vacuum_position map_data (Some pos)) (Some im))
      | Raised e (im, pos) =>
          Raised e (set_image (set_vacuum_position map_data (Some pos)) (Some im))
      end
  | _, _ => Ok map_data
  end.

Definition _draw_room_names (self : ImageGenerator) (map_data : MapData) : Res MapData :=
  match rooms map_data, image map_data with
  | Some rooms, Some image =>
      let color := _get_color self ROOM_NAMES in
      on_image map_data
        (for_each
           (fun (entry : Z * Room) image =>
              let room := snd entry in
              match Room_point room, room_name room with
              | Some p, Some name =>
                  let point := Point_to_img p (dimensions image) in
                  _draw_text image name (pt_x point) (pt_y point) color None None
              | _, _ => Ok image
              end)
           rooms image)
  | _, _ => Ok map_data
  end.

(** One iteration of the loop of [draw_map]: the [match drawable]
    statement, its cases in the order of the source.  A value that no
    case matches does nothing. *)
Definition draw_drawable (self : ImageGenerator) (drawable : string)
    (map_data : MapData) : Res MapData :=
  if String.eqb drawable (Drawable_value D_CHARGER) then
    _draw_charger self map_data
  else if String.eqb drawable (Drawable_value D_VACUUM_POSITION) then
    _draw_vacuum_position self map_data
  else if String.eqb drawable (Drawable_value D_OBSTACLES) then
    _draw_obstacles self map_data
  else if String.eqb drawable (Drawable_value D_IGNORED_OBSTACLES) then
    _draw_ignored_obstacles self map_data
  else if String.eqb drawable (Drawable_value D_OBSTACLES_WITH_PHOTO) then
    _draw_obstacles_with_photo self map_data
  else if String.eqb drawable (Drawable_value D_IGNORED_OBSTACLES_WITH_PHOTO) then
    _draw_ignored_obstacles_with_photo self map_data
  else if String.eqb drawable (Drawable_value D_MOP_PATH) then
    _draw_mop_path self map_data
  else if String.eqb drawable (Drawable_value D_PATH) then
    _draw_vacuum_path self map_data
  else if String.eqb drawable (Drawable_value D_GOTO_PATH) then
    _draw_goto_path self map_data
  else if String.eqb drawable (Drawable_value D_PREDICTED_PATH) then
    _draw_predicted_path self map_data
  else if String.eqb drawable (Drawable_value D_NO_CARPET_AREAS) then
    _draw_no_carpet_areas self map_data
  else if String.eqb drawable (Drawable_value D_NO_GO_AREAS) then
    _draw_no_go_areas self map_data
  else if String.eqb drawable (Drawable_value D_NO_MOPPING_AREAS) then
    _draw_no_mopping_areas self map_data
  else if String.eqb drawable (Drawable_value D_VIRTUAL_WALLS) then
    _draw_walls self map_data
  else if String.eqb drawable (Drawable_value D_ZONES) then
    _draw_zones self map_data
  else if String.eqb drawable (Drawable_value D_CLEANED_AREA) then
    _draw_layer map_data drawable
  else if String.eqb drawable (Drawable_value D_ROOM_NAMES) then
    _draw_room_names self map_data
  else Ok map_data.

(** [map_data.image], as an attribute access on what must be an
    [ImageData]. *)
Definition with_image (map_data : MapData) (f : ImageData -> Res ImageData)
    : Res MapData :=
  match image map_data with
  | Some image => on_image map_data (f image)
  | None => Raised (AttributeError "'NoneType' object has no attribute") map_data
  end.

(** [ImageGenerator.draw_map]. *)
Definition draw_map (self : ImageGenerator) (map_data : MapData) : Res MapData :=
  match image map_data with
  | None => Ok map_data
  | Some _ =>
      for_each (draw_drawable self) (_drawables self) map_data
      >>= (fun map_data => with_image map_data (fun image => Ok (_rotate self image)))
      >>= (fun map_data => with_image map_data (fun image => _draw_texts image (_texts self)))
  end.

(** [sum(color[0:3])]. *)
Definition Color_sum3 (color : Color) : Z :=
  Color_r color + Color_g color + Color_b color.

(** [ImageGenerator.create_empty_map_image]. *)
Definition create_empty_map_image (self : ImageGenerator) (text : string) : Image :=
  let color := _get_color self MAP_OUTSIDE in
  let image := Image_new "RGBA" (300, 200) color in
  let text_color :=
    if Color_sum3 color >? 382 then RGB 0 0 0 else RGB 255 255 255 in
  let '(l, t, r, b) := textbbox text None in
  let w := (r - l)%Q in
  let h := (b - t)%Q in
  Drawn image
    (Draw_text (((inject_Z (fst (Image_size image)) - w) / 2)%Q,
                ((inject_Z (snd (Image_size image)) - h) / 2)%Q)
       text None text_color).

(** ** map_data_parser.py: [MapDataParser.create_empty] *)
Definition MapDataParser_create_empty (image_generator : ImageGenerator)
    (text : string) : MapData :=
  let map_data := MapData_init 0 0 in
  let empty_map := create_empty_map_image image_generator text in
  set_image map_data (Some (create_empty empty_map)).



(** * Sample inputs *)

(** A map with a 10 by 20 image, calibration centre 0 and difference 1. *)
Definition image_10_20 : ImageData :=
  ImageData_init 0 0 0 20 10 ImageConfig_default (Raster "map" (10, 20))
    (fun p => p) None.

Definition md_calibrated : MapData :=
  set_image (MapData_init 0 1) (Some image_10_20).

(** The same map with the vacuum at (5, 5), its heading not reported. *)
Definition md_vacuum : MapData :=
  set_vacuum_position md_calibrated (Some (Point_xy 5 5)).

(** A palette without overrides whose random source draws 1. *)
Definition palette_default : ColorsPalette :=
  ColorsPalette_init (mkRandom (fun _ => 0) 0) None None.

(** A generator with the default palette, sizes and image configuration
    that draws the given kinds and no text. *)
Definition generator_of (drawables : list Drawable) : ImageGenerator :=
  mkImageGenerator palette_default (Sizes_init None)
    (List.map Drawable_value drawables) ImageConfig_default [].


(** * Vocabulary of the properties *)

(** The fast path as its description has it: [k] discrete quarter turns,
    each sending [(x, y)] to [(y, w - x)] and swapping width and height. *)
Fixpoint quarter_turns (k : nat) (x y : Q) (w h : Z) : Point :=
  match k with
  | O => Point_xy x y
  | S k' => quarter_turns k' y (inject_Z w - x)%Q h w
  end.

(** Two coordinate pairs denote the same point. *)
Definition xy_eq (u v : Q * Q) : Prop :=
  (fst u == fst v)%Q /\ (snd u == snd v)%Q.

(** What the description of the path renderer asks for: one straight
    segment between each two consecutive points, and a full-circle cap
    on a point. *)
Definition segment (width_px : Z) (color : Color) (s e : Point) : DrawOp :=
  Draw_line [pt_x s; pt_y s; pt_x e; pt_y e] color width_px.

Fixpoint segments (width_px : Z) (color : Color) (s : Point) (es : list Point)
    : list DrawOp :=
  match es with
  | [] => []
  | e :: es' => segment width_px color s e :: segments width_px color e es'
  end.

Definition end_cap (r : Q) (color : Color) (q : Point) : DrawOp :=
  Draw_pieslice (box (pt_x q) (pt_y q) r) 0 360 color color.

Definition is_line (op : DrawOp) : bool :=
  match op with Draw_line _ _ _ => true | _ => false end.

Definition is_pieslice (op : DrawOp) : bool :=
  match op with Draw_pieslice _ _ _ _ _ => true | _ => false end.

(** A point of a path on the supersampled layer. *)
Definition on_layer (dims : ImageDimensions) (scale : Q) (p : Point) : Point :=
  Point_mul (Point_to_img p dims) scale.

(** The shapes that the path, area and obstacle renderers share. *)
Definition draw_path_of (self : ImageGenerator) (map_data : MapData)
    (path : option Path) (width : Size) (color : SupportedColor) : Res MapData :=
  match path, image map_data with
  | Some path, Some image =>
      on_image map_data
        (_draw_path self image path (_get_size self width) (_get_color self color))
  | _, _ => Ok map_data
  end.

Definition draw_areas_of (self : ImageGenerator) (map_data : MapData)
    (areas : option (list Area)) (fill outline : SupportedColor) : Res MapData :=
  match areas, image map_data with
  | Some areas, Some image =>
      on_image map_data
        (_draw_areas image areas (_get_color self fill) (_get_color self outline))
  | _, _ => Ok map_data
  end.

Definition draw_obstacles_of (self : ImageGenerator) (map_data : MapData)
    (obstacles : option (list Obstacle)) (color : SupportedColor) (radius : Size)
    : Res MapData :=
  match obstacles, image map_data with
  | Some obstacles, Some image =>
      on_image map_data
        (_draw_all_obstacles image obstacles (_get_size self radius) (_get_color self color))
  | _, _ => Ok map_data
  end.

(** The renderer that [draw_map] runs for a drawable kind. *)
Definition renderer (d : Drawable) (self : ImageGenerator) (map_data : MapData)
    : Res MapData :=
  match d with
  | D_CHARGER => _draw_charger self map_data
  | D_CLEANED_AREA => _draw_layer map_data (Drawable_value D_CLEANED_AREA)
  | D_GOTO_PATH => _draw_goto_path self map_data
  | D_IGNORED_OBSTACLES => _draw_ignored_obstacles self map_data
  | D_IGNORED_OBSTACLES_WITH_PHOTO => _draw_ignored_obstacles_with_photo self map_data
  | D_MOP_PATH => _draw_mop_path self map_data
  | D_NO_CARPET_AREAS => _draw_no_carpet_areas self map_data
  | D_NO_GO_AREAS => _draw_no_go_areas self map_data
  | D_NO_MOPPING_AREAS => _draw_no_mopping_areas self map_data
  | D_OBSTACLES => _draw_obstacles self map_data
  | D_OBSTACLES_WITH_PHOTO => _draw_obstacles_with_photo self map_data
  | D_PATH => _draw_vacuum_path self map_data
  | D_PREDICTED_PATH => _draw_predicted_path self map_data
  | D_ROOM_NAMES => _draw_room_names self map_data
  | D_VACUUM_POSITION => _draw_vacuum_position self map_data
  | D_VIRTUAL_WALLS => _draw_walls self map_data
  | D_ZONES => _draw_zones self map_data
  end.

(** The model field that a renderer needs is missing. *)
Definition required_field_absent (d : Drawable) (md : MapData) : Prop :=
  image md = None \/
  match d with
  | D_CHARGER => charger md = None
  | D_CLEANED_AREA =>
      exists im, image md = Some im /\
                 additional_layers im !! Drawable_value D_CLEANED_AREA = None
  | D_GOTO_PATH => goto_path md = None
  | D_IGNORED_OBSTACLES => ignored_obstacles md = None
  | D_IGNORED_OBSTACLES_WITH_PHOTO => ignored_obstacles_with_photo md = None
  | D_MOP_PATH => mop_path md = None
  | D_NO_CARPET_AREAS => no_carpet_areas md = None
  | D_NO_GO_AREAS => no_go_areas md = None
  | D_NO_MOPPING_AREAS => no_mopping_areas md = None
  | D_OBSTACLES => obstacles md = None
  | D_OBSTACLES_WITH_PHOTO => obstacles_with_photo md = None
  | D_PATH => path md = None
  | D_PREDICTED_PATH => predicted_path md = None
  | D_ROOM_NAMES => rooms md = None
  | D_VACUUM_POSITION => vacuum_position md = None
  | D_VIRTUAL_WALLS => walls md = None
  | D_ZONES => zones md = None
  end.

(** The list that a renderer draws from is there and empty. *)
Definition path_empty (p : option Path) : Prop :=
  exists p0, p = Some p0 /\ path_path p0 = [].

Definition drawn_list_empty (d : Drawable) (md : MapData) : Prop :=
  match d with
  | D_CHARGER | D_CLEANED_AREA | D_VACUUM_POSITION => False
  | D_GOTO_PATH => path_empty (goto_path md)
  | D_IGNORED_OBSTACLES => ignored_obstacles md = Some []
  | D_IGNORED_OBSTACLES_WITH_PHOTO => ignored_obstacles_with_photo md = Some []
  | D_MOP_PATH => path_empty (mop_path md)
  | D_NO_CARPET_AREAS => no_carpet_areas md = Some []
  | D_NO_GO_AREAS => no_go_areas md = Some []
  | D_NO_MOPPING_AREAS => no_mopping_areas md = Some []
  | D_OBSTACLES => obstacles md = Some []
  | D_OBSTACLES_WITH_PHOTO => obstacles_with_photo md = Some []
  | D_PATH => path_empty (path md)
  | D_PREDICTED_PATH => path_empty (predicted_path md)
  | D_ROOM_NAMES => rooms md = Some []
  | D_VIRTUAL_WALLS => walls md = Some []
  | D_ZONES => zones md = Some []
  end.

(** [im'] shows the pixels of [im].  The one fact about the raster
    library used here: compositing a fully transparent layer, on which
    nothing was drawn, onto an image leaves every pixel of the image as
    it is. *)
Inductive same_pixels : Image -> Image -> Prop :=
| same_pixels_refl (im : Image) : same_pixels im im
| same_pixels_blank (im im' : Image) (size : Z * Z) :
    same_pixels im im' ->
    same_pixels im
      (Image_alpha_composite im' (Image_new "RGBA" size (RGBA 255 255 255 0))).

(** Nothing of the map has changed, the content of its image included. *)
Definition content_unchanged (md md' : MapData) : Prop :=
  match image md with
  | None => md' = md
  | Some im =>
      exists pixels, md' = set_image md (Some (set_data im pixels)) /\
                     same_pixels (data im) pixels
  end.

(** The object as a routine leaves it, and whether it returned normally. *)
Definition Res_state {S : Type} (r : Res S) : S :=
  match r with Ok s => s | Raised _ s => s end.

Definition Res_ok {S : Type} (r : Res S) : bool :=
  match r with Ok _ => true | Raised _ _ => false end.

(** Only the pixel buffer of the image differs. *)
Definition pixels_only (im im' : ImageData) : Prop :=
  exists pixels, im' = set_data im pixels.

(** [p'] is [p], or [p] with the angle 0 in place of [None]. *)
Definition angle_defaulted (p p' : Point) : Prop :=
  p' = p \/ (pt_a p = None /\ p' = mkPoint (pt_x p) (pt_y p) (Some 0%Q)).

(** The same for an image and a position that may be absent. *)
Definition image_pixels_only (o o' : option ImageData) : Prop :=
  match o, o' with
  | None, None => True
  | Some im, Some im' => pixels_only im im'
  | _, _ => False
  end.

Definition position_angle_defaulted (o o' : option Point) : Prop :=
  match o, o' with
  | None, None => True
  | Some p, Some p' => angle_defaulted p p'
  | _, _ => False
  end.

(** [md'] is [md] except for the pixel buffer of its image and for an
    angle of the vacuum position that went from [None] to 0. *)
Definition writes_pixels_and_angle_only (md md' : MapData) : Prop :=
  md' = set_image (set_vacuum_position md (vacuum_position md')) (image md') /\
  image_pixels_only (image md) (image md') /\
  position_angle_defaulted (vacuum_position md) (vacuum_position md').

(** The accuracy asked of [math.cos] and [math.sin]: one unit in the last
    place of a double near 1, which the C library keeps at the angles
    used here. *)
Definition trig_accuracy : Q := 1 # 4503599627370496.

(** A bound on pixel coordinates and image extents, far beyond any
    raster: a million pixels. *)
Definition pixel_range : Q := 1000000.

(** The doubles that CPython's [math.radians] returns at 90, 180 and 270
    degrees, and [math.cos] and [math.sin] at those; no other argument
    is used, and the functions are 0 there. *)
Definition radians_cpython (a : Q) : Q :=
  if Qeq_bool a 90 then 884279719003555 # 562949953421312
  else if Qeq_bool a 180 then 884279719003555 # 281474976710656
  else if Qeq_bool a 270 then 2652839157010665 # 562949953421312
  else 0.

Definition cos_cpython (r : Q) : Q :=
  if Qeq_bool r (radians_cpython 90)
  then 4967757600021511 # 81129638414606681695789005144064
  else if Qeq_bool r (radians_cpython 180) then - (1)
  else if Qeq_bool r (radians_cpython 270)
  then - (3725818200016133 # 20282409603651670423947251286016)
  else 0.

Definition sin_cpython (r : Q) : Q :=
  if Qeq_bool r (radians_cpython 90) then 1
  else if Qeq_bool r (radians_cpython 180)
  then 4967757600021511 # 40564819207303340847894502572032
  else if Qeq_bool r (radians_cpython 270) then - (1)
  else 0.

(** A 10 by 10 image, untrimmed, unscaled and unrotated. *)
Definition dims_10 : ImageDimensions :=
  mkImageDimensions 0 0 10 10 1 0 (fun p => p).

(** A 10 by 20 image rotated by a quarter turn, and a mathematical
    library that is exact at that angle ([math.radians] is left out of
    it: the angle is passed on in degrees). *)
Definition dims_quarter : ImageDimensions :=
  mkImageDimensions 0 0 20 10 1 90 (fun p => p).

Definition cos_quarter (a : Q) : Q := 0.
Definition sin_quarter (a : Q) : Q := 1.
Definition radians_deg (a : Q) : Q := a.

(** A two-point polyline. *)
Definition polyline_0_10 : list Point := [Point_xy 0 0; Point_xy 10 0].

(** A stand-in for the libraries: trigonometry exact at a quarter turn,
    a caption box of 30 by 10, no font file, rotation keeping the size. *)
Definition pi_approx : Q := 355 # 113.
Definition textbbox_fixed (text : string) (font : option Font) : Q * Q * Q * Q :=
  (0, 0, 30, 10)%Q.
Definition truetype_missing (file : string) (size : Z) : FontResult := FontOSError.
Definition rotate_size_same (angle : Q) (size : Z * Z) : Z * Z := size.


(** * More vocabulary *)

(** [im'] is [im] with other pixels on a raster of the same size. *)
Definition same_size_pixels (im im' : ImageData) : Prop :=
  exists pixels, im' = set_data im pixels /\
                 Image_size pixels = Image_size (data im).

(** The size of a raster after [_rotate]. *)
Definition size_after_rotate (rotation : Q) (size : Z * Z) : Z * Z :=
  if py_eq rotation 90 then (snd size, fst size)
  else if py_eq rotation 180 then size
  else if py_eq rotation 270 then (snd size, fst size)
  else rotate_size rotation size.

(** A generator that differs in the list of drawables only. *)
Definition with_drawables (self : ImageGenerator) (drawables : list string)
    : ImageGenerator :=
  mkImageGenerator (_palette self) (_sizes self) drawables
    (_image_config self) (_texts self).

(** The map still has an image, of the pixels' size of [im0]. *)
Definition image_kept (im0 : ImageData) (md : MapData) : Prop :=
  exists im, image md = Some im /\ same_size_pixels im0 im.

(** The polygon that [_draw_areas] draws for an area. *)
Definition area_polygon (dims : ImageDimensions) (fill outline : Color) (area : Area)
    : DrawOp :=
  Draw_polygon (Area_as_list (Area_to_img area dims)) fill outline.

(** A fresh fully transparent layer of the size of [im] with one call
    drawn on it, composited onto [im]. *)
Definition composite_one (op : DrawOp) (im : Image) : Image :=
  Image_alpha_composite im
    (Drawn (Image_new "RGBA" (Image_size im) (RGBA 255 255 255 0)) op).

(** The segments of one polyline of a path. *)
Definition polyline_segments (dims : ImageDimensions) (scale path_width : Q)
    (color : Color) (current_path : list Point) : list DrawOp :=
  match List.map (on_layer dims scale) current_path with
  | s :: es => segments (py_int (scale * path_width)) color s es
  | [] => []
  end.

(** ** map_data.py: the [as_dict] family *)

(** The values that [as_dict] builds.  A dict is the list of its items
    in insertion order. *)
#[warnings="-register-all"] Inductive PyVal : Type :=
| PyNone
| PyInt (n : Z)
| PyFloat (q : Q)
| PyStr (s : string)
| PyList (l : list PyVal)
| PyDict (items : list (string * PyVal)).

Definition is_None (v : PyVal) : bool :=
  match v with PyNone => true | _ => false end.

Definition opt_val {A : Type} (f : A -> PyVal) (o : option A) : PyVal :=
  match o with Some a => f a | None => PyNone end.

(** [d[k] = v]: the value of an existing key is replaced in place, a new
    key goes last. *)
Fixpoint dict_set (d : list (string * PyVal)) (k : string) (v : PyVal)
    : list (string * PyVal) :=
  match d with
  | [] => [(k, v)]
  | (k', v') :: d' =>
      if String.eqb k' k then (k', v) :: d' else (k', v') :: dict_set d' k v
  end.

(** [{**a, **b}]. *)
Definition dict_merge (a b : list (string * PyVal)) : list (string * PyVal) :=
  fold_left (fun d kv => dict_set d (fst kv) (snd kv)) b a.

Fixpoint dict_lookup (d : list (string * PyVal)) (k : string) : option PyVal :=
  match d with
  | [] => None
  | (k', v) :: d' => if String.eqb k' k then Some v else dict_lookup d' k
  end.

(** [dataclasses.asdict] on the dataclasses of this module: the fields in
    the order of their declaration, dataclass instances and lists
    converted recursively. *)
Definition asdict_Point (p : Point) : list (string * PyVal) :=
  [("x", PyFloat (pt_x p)); ("y", PyFloat (pt_y p)); ("a", opt_val PyFloat (pt_a p))].

Definition asdict_ObstacleDetails (d : ObstacleDetails) : list (string * PyVal) :=
  [("type", opt_val PyInt (od_type d));
   ("description", opt_val PyStr (od_description d));
   ("confidence_level", opt_val PyFloat (od_confidence_level d));
   ("photo_name", opt_val PyStr (od_photo_name d))].

Definition asdict_Path (p : Path) : list (string * PyVal) :=
  [("point_length", opt_val PyInt (point_length p));
   ("point_size", opt_val PyInt (point_size p));
   ("angle", opt_val PyInt (path_angle p));
   ("path",
    PyList (List.map
              (fun subpath => PyList (List.map (fun p => PyDict (asdict_Point p)) subpath))
              (path_path p)))].

(** [OutputObject.as_dict], on the result of [asdict(self)]. *)
Definition OutputObject_as_dict (fields : list (string * PyVal))
    : list (string * PyVal) :=
  List.filter (fun kv => negb (is_None (snd kv))) fields.

Definition Point_as_dict (p : Point) : list (string * PyVal) :=
  OutputObject_as_dict (asdict_Point p).

Definition ObstacleDetails_as_dict (d : ObstacleDetails) : list (string * PyVal) :=
  OutputObject_as_dict (asdict_ObstacleDetails d).

(** [Obstacle.as_dict]: the dataclass fields of an obstacle are those of
    [Point]. *)
Definition Obstacle_as_dict (o : Obstacle) : list (string * PyVal) :=
  dict_merge (OutputObject_as_dict (asdict_Point (ob_point o)))
    (ObstacleDetails_as_dict (ob_details o)).

(** [Path.as_dict]. *)
Definition Path_as_dict (p : Path) : list (string * PyVal) :=
  dict_merge (OutputObject_as_dict (asdict_Path p))
    [("path",
      PyList (List.map
                (fun subpath => PyList (List.map (fun p => PyDict (Point_as_dict p)) subpath))
                (path_path p)))].

(** [ImageData.as_dict]. *)
Definition ImageData_as_dict (self : ImageData) : list (string * PyVal) :=
  [("size", PyInt (size_ self));
   ("offset_y", PyInt (top (dimensions self)));
   ("offset_x", PyInt (left (dimensions self)));
   ("height", PyInt (height (dimensions self)));
   ("scale", PyFloat (scale (dimensions self)));
   ("rotation", PyFloat (rotation (dimensions self)));
   ("width", PyInt (width (dimensions self)))].

(** No [None] occurs in the value, at any depth. *)
Fixpoint None_free (v : PyVal) : bool :=
  match v with
  | PyNone => false
  | PyInt _ | PyFloat _ | PyStr _ => true
  | PyList l => forallb None_free l
  | PyDict items => forallb (fun kv => let '(_, v) := kv in None_free v) items
  end.

(** How many of the details of an obstacle are set. *)
Definition count_set {A : Type} (o : option A) : nat :=
  match o with Some _ => 1 | None => 0 end.

Definition details_set (d : ObstacleDetails) : nat :=
  count_set (od_type d) + count_set (od_description d)
  + count_set (od_confidence_level d) + count_set (od_photo_name d).

(** ** More sample inputs *)

(** The 10 by 20 image with a cleaned-area layer of the given size, and
    a map that holds it. *)
Definition image_with_layer (layer_size : Z * Z) : ImageData :=
  ImageData_init 0 0 0 20 10 ImageConfig_default (Raster "map" (10, 20))
    (fun p => p)
    (Some {[ Drawable_value D_CLEANED_AREA := Some (Raster "cleaned" layer_size) ]}).

Definition md_with_layer (layer_size : Z * Z) : MapData :=
  set_image (MapData_init 0 1) (Some (image_with_layer layer_size)).

(** A generator with the default palette and sizes for the given names
    and texts. *)
Definition generator_named (drawables : list string) (texts : list Text)
    : ImageGenerator :=
  mkImageGenerator palette_default (Sizes_init None) drawables ImageConfig_default texts.

(** A caption at the centre of the picture. *)
Definition text_centre : Text := mkText "map" 50 50 (RGB 0 0 0) None None.

(** A quarter of the width trimmed on the left and on the right. *)
Definition config_trimmed : ImageConfig :=
  mkImageConfig 1 0 (mkTrimConfig 25 25 0 0).

(** A path of one polyline whose points carry no angle. *)
Definition path_0_10 : Path := mkPath None None None [polyline_0_10].

(** * Properties *)

(** ** Geometry transform *)

(** C1: with [scale = 1], [left = top = 0] and the identity
    pre-transformation, [to_img] keeps the x-coordinate and flips the
    y-coordinate about the trimmed height: [y = height - p.y - 1]. *)
Theorem to_img_axis_flip (p : Point) (d : ImageDimensions) :
  (scale d == 1)%Q ->
  left d = 0 ->
  top d = 0 ->
  (forall q, img_transformation d q = q) ->
  (pt_y (to_img d p) == inject_Z (height d) - pt_y p - 1)%Q /\
  (pt_x (to_img d p) == pt_x p)%Q.
Proof.
  intros Hscale Hleft Htop Hid.
  unfold to_img. rewrite Hid, Hleft, Htop. cbn [pt_x pt_y Point_xy].
  rewrite Hscale. split; unfold inject_Z; ring.
Qed.

(** *** The loop of [rotated] terminates *)

Lemma py_gt_true (a b : Q) : py_gt a b = true <-> (b < a)%Q.
Proof.
  unfold py_gt. rewrite negb_true_iff. split.
  - intros H. apply Qnot_le_lt. intros Hle.
    apply Qle_bool_iff in Hle. congruence.
  - intros H. destruct (Qle_bool a b) eqn:E; [| reflexivity].
    apply Qle_bool_iff in E. exfalso. exact (Qlt_not_le _ _ H E).
Qed.

Lemma py_gt_false (a b : Q) : py_gt a b = false <-> (a <= b)%Q.
Proof.
  unfold py_gt. rewrite negb_false_iff. apply Qle_bool_iff.
Qed.

Lemma py_gt_Qeq (a a' b : Q) : (a == a')%Q -> py_gt a b = py_gt a' b.
Proof. intros H. unfold py_gt. now rewrite H. Qed.

(** With [n] iterations of fuel the loop finishes from any [alpha] up to
    [90 * n]. *)
Lemma rotated_loop_fuel (n : nat) :
  forall (alpha x y : Q) (w h : Z),
    (alpha <= 90 * inject_Z (Z.of_nat n))%Q ->
    is_Some (rotated_loop n alpha x y w h).
Proof.
  induction n as [| n IH]; intros alpha x y w h Hle.
  - cbn [rotated_loop]. destruct (py_gt alpha 0) eqn:E; [| eauto].
    apply py_gt_true in E. exfalso.
    change (inject_Z (Z.of_nat 0)) with 0%Q in Hle. lra.
  - cbn [rotated_loop]. destruct (py_gt alpha 0) eqn:E; [| eauto].
    apply IH. rewrite Nat2Z.inj_succ in Hle. unfold Z.succ in Hle.
    rewrite inject_Z_plus in Hle. change (inject_Z 1) with 1%Q in Hle. lra.
Qed.

Lemma rotated_fuel_enough (alpha : Q) :
  (alpha <= 90 * inject_Z (Z.of_nat (rotated_fuel alpha)))%Q.
Proof.
  unfold rotated_fuel.
  assert (H1 : (alpha / 90 <= inject_Z (Qceiling (alpha / 90)))%Q) by apply Qle_ceiling.
  assert (H2 : (inject_Z (Qceiling (alpha / 90))
                <= inject_Z (Z.of_nat (Z.to_nat (Qceiling (alpha / 90)))))%Q).
  { rewrite <- Zle_Qle. lia. }
  assert (H3 : (alpha == 90 * (alpha / 90))%Q) by (field).
  lra.
Qed.

(** The fast path always leaves the loop through its exit condition. *)
Lemma rotated_fast_terminates (alpha x y : Q) (w h : Z) :
  rotated_loop (rotated_fuel alpha) alpha x y w h
  = Some (rotated_fast alpha x y w h).
Proof.
  unfold rotated_fast.
  destruct (rotated_loop_fuel (rotated_fuel alpha) alpha x y w h
              (rotated_fuel_enough alpha)) as [p Hp].
  now rewrite Hp.
Qed.

(** More fuel does not change the result. *)
Lemma rotated_loop_more_fuel (n : nat) :
  forall (alpha x y : Q) (w h : Z) (p : Point),
    rotated_loop n alpha x y w h = Some p ->
    forall m, (n <= m)%nat -> rotated_loop m alpha x y w h = Some p.
Proof.
  induction n as [| n IH]; intros alpha x y w h p Hp m Hm.
  - cbn [rotated_loop] in Hp. destruct (py_gt alpha 0) eqn:E; [discriminate |].
    destruct m; cbn [rotated_loop]; now rewrite E.
  - destruct m as [| m]; [lia |].
    cbn [rotated_loop] in *. destruct (py_gt alpha 0) eqn:E; [| exact Hp].
    apply IH; [exact Hp | lia].
Qed.

Lemma rotated_loop_Qeq (n : nat) :
  forall (alpha alpha' x y : Q) (w h : Z),
    (alpha == alpha')%Q ->
    rotated_loop n alpha x y w h = rotated_loop n alpha' x y w h.
Proof.
  induction n as [| n IH]; intros alpha alpha' x y w h Heq;
    cbn [rotated_loop]; rewrite (py_gt_Qeq alpha alpha' 0 Heq).
  - reflexivity.
  - destruct (py_gt alpha' 0); [| reflexivity].
    apply IH. now rewrite Heq.
Qed.

Lemma rotated_fast_Qeq (alpha alpha' x y : Q) (w h : Z) :
  (alpha == alpha')%Q ->
  rotated_fast alpha x y w h = rotated_fast alpha' x y w h.
Proof.
  intros Heq. unfold rotated_fast, rotated_fuel.
  rewrite (rotated_loop_Qeq _ alpha alpha' x y w h Heq).
  now rewrite Heq.
Qed.

(** The fast path at the three canonical rotations. *)
Lemma rotated_fast_90 (x y : Q) (w h : Z) :
  rotated_fast 90 x y w h = Point_xy y (inject_Z w - x)%Q.
Proof. reflexivity. Qed.

Lemma rotated_fast_180 (x y : Q) (w h : Z) :
  rotated_fast 180 x y w h = Point_xy (inject_Z w - x)%Q (inject_Z h - y)%Q.
Proof. reflexivity. Qed.

Lemma rotated_fast_270 (x y : Q) (w h : Z) :
  rotated_fast 270 x y w h
  = Point_xy (inject_Z h - y)%Q (inject_Z w - (inject_Z w - x))%Q.
Proof. reflexivity. Qed.

(** A rotation that is a multiple of 90 takes the fast path. *)
Lemma py_mod_multiple (alpha : Q) (k : Z) :
  (alpha == 90 * inject_Z k)%Q -> py_eq (py_mod alpha 90) 0 = true.
Proof.
  intros H. unfold py_eq, py_mod. apply Qeq_bool_iff.
  assert (Hq : (alpha / 90 == inject_Z k)%Q) by (rewrite H; field).
  rewrite Hq, Qfloor_Z, H. ring.
Qed.

Lemma rotated_loop_quarter_turns (k : nat) :
  forall (alpha x y : Q) (w h : Z) (fuel : nat),
    (alpha == 90 * inject_Z (Z.of_nat k))%Q ->
    (k <= fuel)%nat ->
    rotated_loop fuel alpha x y w h = Some (quarter_turns k x y w h).
Proof.
  induction k as [| k IH]; intros alpha x y w h fuel Halpha Hfuel.
  - assert (E : py_gt alpha 0 = false).
    { apply py_gt_false. rewrite Halpha. cbn. discriminate. }
    destruct fuel; cbn [rotated_loop quarter_turns]; now rewrite E.
  - rewrite Nat2Z.inj_succ in Halpha. unfold Z.succ in Halpha.
    rewrite inject_Z_plus in Halpha. change (inject_Z 1) with 1%Q in Halpha.
    assert (Hk : (0 <= inject_Z (Z.of_nat k))%Q).
    { change 0%Q with (inject_Z 0). rewrite <- Zle_Qle. lia. }
    assert (E : py_gt alpha 0 = true) by (apply py_gt_true; lra).
    destruct fuel as [| fuel]; [lia |].
    cbn [rotated_loop quarter_turns]. rewrite E.
    apply IH; [lra | lia].
Qed.

(** On a rotation of [k] quarter turns the loop of the source makes
    exactly these [k] steps. *)
Lemma rotated_fast_quarter_turns (k : nat) (alpha x y : Q) (w h : Z) :
  (alpha == 90 * inject_Z (Z.of_nat k))%Q ->
  rotated_fast alpha x y w h = quarter_turns k x y w h /\
  Z.to_nat (Qfloor (alpha / 90)) = k.
Proof.
  intros Halpha.
  assert (Hq : (alpha / 90 == inject_Z (Z.of_nat k))%Q) by (rewrite Halpha; field).
  split.
  - unfold rotated_fast, rotated_fuel.
    rewrite (rotated_loop_quarter_turns k alpha x y w h _ Halpha); [reflexivity |].
    rewrite Hq, Qceiling_Z. lia.
  - rewrite Hq, Qfloor_Z. lia.
Qed.

(** *** The general path at exact and at nearly exact values of cosine and sine *)

Lemma py_int_nonneg (z : Z) (q : Q) : 0 <= z -> (0 <= q)%Q -> 0 <= py_int (inject_Z z * q).
Proof.
  intros Hz Hq. unfold py_int. apply Z.quot_pos; [| lia].
  destruct q as [n d]. unfold Qle in Hq. cbn in *. nia.
Qed.

Lemma Qabs_minus_sym (u v : Q) : (Qabs (u - v) == Qabs (v - u))%Q.
Proof. rewrite <- (Qabs_opp (u - v)). apply Qabs_wd. ring. Qed.

(** A product moves by at most [bound * e] when one factor, of size at
    most [bound], is kept and the other moves by at most [e]. *)
Lemma Qabs_prod_close (u v v0 e bound : Q) :
  (Qabs u <= bound)%Q -> (Qabs (v - v0) <= e)%Q ->
  (Qabs (u * v - u * v0) <= bound * e)%Q.
Proof.
  intros Hu Hv. assert (E : (u * v - u * v0 == u * (v - v0))%Q) by ring.
  rewrite E, Qabs_Qmult.
  pose proof (Qabs_nonneg u). pose proof (Qabs_nonneg (v - v0)). nra.
Qed.

Lemma Qabs_abs_close (u v v0 e bound : Q) :
  (Qabs u <= bound)%Q -> (Qabs (v - v0) <= e)%Q ->
  (Qabs (Qabs (u * v) - Qabs (u * v0)) <= bound * e)%Q.
Proof.
  intros Hu Hv.
  pose proof (Qabs_prod_close u v v0 e bound Hu Hv) as H1.
  assert (Hv' : (Qabs (v0 - v) <= e)%Q) by now rewrite Qabs_minus_sym.
  pose proof (Qabs_prod_close u v0 v e bound Hu Hv') as H2.
  pose proof (Qabs_triangle_reverse (u * v) (u * v0)) as T1.
  pose proof (Qabs_triangle_reverse (u * v0) (u * v)) as T2.
  apply Qabs_Qle_condition. split; lra.
Qed.

Section GeneralPath.

Variables (cos sin : Q -> Q) (a x y : Q) (w h : Z).
Hypotheses (Hw : 0 <= w) (Hh : 0 <= h).

Let abs_w : (Qabs (inject_Z w) == inject_Z w)%Q.
Proof. apply Qabs_pos. change 0%Q with (inject_Z 0). now rewrite <- Zle_Qle. Qed.

Let abs_h : (Qabs (inject_Z h) == inject_Z h)%Q.
Proof. apply Qabs_pos. change 0%Q with (inject_Z 0). now rewrite <- Zle_Qle. Qed.

Lemma rotated_general_quarter :
  (cos a == 0)%Q -> (sin a == 1)%Q ->
  (pt_x (rotated_general cos sin a x y w h) == y)%Q /\
  (pt_y (rotated_general cos sin a x y w h) == inject_Z w - x)%Q.
Proof.
  intros Hc Hs. unfold rotated_general. cbn [pt_x pt_y Point_xy].
  rewrite Hc, Hs, !Qmult_0_r, !Qmult_1_r, abs_w, abs_h.
  change (Qabs 0) with 0%Q. split; field.
Qed.

Lemma rotated_general_half :
  (cos a == -1)%Q -> (sin a == 0)%Q ->
  (pt_x (rotated_general cos sin a x y w h) == inject_Z w - x)%Q /\
  (pt_y (rotated_general cos sin a x y w h) == inject_Z h - y)%Q.
Proof.
  intros Hc Hs. unfold rotated_general. cbn [pt_x pt_y Point_xy].
  rewrite Hc, Hs, !Qmult_0_r.
  assert (Hmw : (Qabs (inject_Z w * -1) == inject_Z w)%Q).
  { rewrite Qabs_Qmult, abs_w. change (Qabs (-1)) with 1%Q. ring. }
  assert (Hmh : (Qabs (inject_Z h * -1) == inject_Z h)%Q).
  { rewrite Qabs_Qmult, abs_h. change (Qabs (-1)) with 1%Q. ring. }
  rewrite Hmw, Hmh. change (Qabs 0) with 0%Q. split; field.
Qed.

Lemma rotated_general_three_quarters :
  (cos a == 0)%Q -> (sin a == -1)%Q ->
  (pt_x (rotated_general cos sin a x y w h) == inject_Z h - y)%Q /\
  (pt_y (rotated_general cos sin a x y w h) == x)%Q.
Proof.
  intros Hc Hs. unfold rotated_general. cbn [pt_x pt_y Point_xy].
  rewrite Hc, Hs, !Qmult_0_r.
  assert (Hmw : (Qabs (inject_Z w * -1) == inject_Z w)%Q).
  { rewrite Qabs_Qmult, abs_w. change (Qabs (-1)) with 1%Q. ring. }
  assert (Hmh : (Qabs (inject_Z h * -1) == inject_Z h)%Q).
  { rewrite Qabs_Qmult, abs_h. change (Qabs (-1)) with 1%Q. ring. }
  rewrite Hmw, Hmh. change (Qabs 0) with 0%Q. split; field.
Qed.

(** With a cosine and a sine within [trig_accuracy] of [c0] and [s0],
    and coordinates and extents within [pixel_range], the general path
    stays within 1e-9 of what it yields at [c0] and [s0] themselves. *)
Lemma rotated_general_close (c0 s0 : Q) :
  (Qabs (cos a - c0) <= trig_accuracy)%Q ->
  (Qabs (sin a - s0) <= trig_accuracy)%Q ->
  (Qabs x <= pixel_range)%Q -> (Qabs y <= pixel_range)%Q ->
  (inject_Z w <= pixel_range)%Q -> (inject_Z h <= pixel_range)%Q ->
  let exact := rotated_general (fun _ => c0) (fun _ => s0) a x y w h in
  (Qabs (pt_x (rotated_general cos sin a x y w h) - pt_x exact) <= 1 / 1000000000)%Q /\
  (Qabs (pt_y (rotated_general cos sin a x y w h) - pt_y exact) <= 1 / 1000000000)%Q.
Proof.
  intros Hc Hs Hx Hy Hwr Hhr exact. subst exact.
  unfold rotated_general. cbn [pt_x pt_y Point_xy].
  assert (Hw0 : (0 <= inject_Z w)%Q)
    by (change 0%Q with (inject_Z 0); now rewrite <- Zle_Qle).
  assert (Hh0 : (0 <= inject_Z h)%Q)
    by (change 0%Q with (inject_Z 0); now rewrite <- Zle_Qle).
  assert (Haw : (Qabs (inject_Z w) <= pixel_range)%Q) by now rewrite abs_w.
  assert (Hah : (Qabs (inject_Z h) <= pixel_range)%Q) by now rewrite abs_h.
  set (wq := inject_Z w) in *. set (hq := inject_Z h) in *. clearbody wq hq.
  cbv beta. unfold Qdiv. change (/ 2)%Q with (1 # 2)%Q.
  assert (Hxm : (Qabs (x - wq * (1 # 2)) <= (3 # 2) * pixel_range)%Q).
  { apply Qabs_Qle_condition. apply Qabs_Qle_condition in Hx.
    unfold pixel_range in *. lra. }
  assert (Hym : (Qabs (y - hq * (1 # 2)) <= (3 # 2) * pixel_range)%Q).
  { apply Qabs_Qle_condition. apply Qabs_Qle_condition in Hy.
    unfold pixel_range in *. lra. }
  set (T1 := ((x - wq * (1 # 2)) * cos a - (x - wq * (1 # 2)) * c0)%Q).
  set (T2 := ((y - hq * (1 # 2)) * sin a - (y - hq * (1 # 2)) * s0)%Q).
  set (T3 := (Qabs (wq * cos a) - Qabs (wq * c0))%Q).
  set (T4 := (Qabs (hq * sin a) - Qabs (hq * s0))%Q).
  set (T5 := ((x - wq * (1 # 2)) * sin a - (x - wq * (1 # 2)) * s0)%Q).
  set (T6 := ((y - hq * (1 # 2)) * cos a - (y - hq * (1 # 2)) * c0)%Q).
  set (T7 := (Qabs (wq * sin a) - Qabs (wq * s0))%Q).
  set (T8 := (Qabs (hq * cos a) - Qabs (hq * c0))%Q).
  pose proof (Qabs_prod_close _ _ _ _ _ Hxm Hc) as P1. fold T1 in P1.
  pose proof (Qabs_prod_close _ _ _ _ _ Hym Hs) as P2. fold T2 in P2.
  pose proof (Qabs_abs_close _ _ _ _ _ Haw Hc) as P3. fold T3 in P3.
  pose proof (Qabs_abs_close _ _ _ _ _ Hah Hs) as P4. fold T4 in P4.
  pose proof (Qabs_prod_close _ _ _ _ _ Hxm Hs) as P5. fold T5 in P5.
  pose proof (Qabs_prod_close _ _ _ _ _ Hym Hc) as P6. fold T6 in P6.
  pose proof (Qabs_abs_close _ _ _ _ _ Haw Hs) as P7. fold T7 in P7.
  pose proof (Qabs_abs_close _ _ _ _ _ Hah Hc) as P8. fold T8 in P8.
  apply Qabs_Qle_condition in P1, P2, P3, P4, P5, P6, P7, P8.
  match goal with
  | |- (Qabs ?dx <= _)%Q /\ (Qabs ?dy <= _)%Q =>
      assert (Ex : (dx == T1 + T2 + (T3 + T4) * (1 # 2))%Q) by (unfold T1, T2, T3, T4; ring);
      assert (Ey : (dy == - T5 + T6 + (T7 + T8) * (1 # 2))%Q) by (unfold T5, T6, T7, T8; ring);
      rewrite Ex, Ey
  end.
  clearbody T1 T2 T3 T4 T5 T6 T7 T8.
  unfold trig_accuracy, pixel_range in *.
  change (1 * / 1000000000)%Q with (1 # 1000000000)%Q.
  split; apply Qabs_Qle_condition; lra.
Qed.

End GeneralPath.

(** The exact cosine and sine of 90, 180 and 270 degrees. *)
Lemma cos_sin_deg_90 : Rtrigo_def.cos (90 * PI / 180) = 0%R /\ Rtrigo_def.sin (90 * PI / 180) = 1%R.
Proof.
  replace (90 * PI / 180)%R with (PI / 2)%R by field.
  split; [apply cos_PI2 | apply sin_PI2].
Qed.

Lemma cos_sin_deg_180 : Rtrigo_def.cos (180 * PI / 180) = (-1)%R /\ Rtrigo_def.sin (180 * PI / 180) = 0%R.
Proof.
  replace (180 * PI / 180)%R with PI by field.
  split; [apply cos_PI | apply sin_PI].
Qed.

Lemma cos_sin_deg_270 : Rtrigo_def.cos (270 * PI / 180) = 0%R /\ Rtrigo_def.sin (270 * PI / 180) = (-1)%R.
Proof.
  replace (270 * PI / 180)%R with (3 * (PI / 2))%R by field.
  split; [apply cos_3PI2 | apply sin_3PI2].
Qed.

Lemma Q2R_IZR (q : Q) (z : Z) : (q == inject_Z z)%Q -> Q2R q = IZR z.
Proof.
  intros H. rewrite (Qeq_eqR _ _ H). unfold Q2R, inject_Z. cbn. field.
Qed.

Lemma tolerance_margin : (1 / 1000000000 <= 1 / 1000000)%Q.
Proof. discriminate. Qed.

(** A float within [e] of an integer value of the reals is within [e]
    of it among the rationals. *)
Lemma Qabs_close_of_R (q e : Q) (z : Z) (r : R) :
  r = IZR z ->
  (Rabs (Q2R q - r) <= Q2R e)%R ->
  (Qabs (q - inject_Z z) <= e)%Q.
Proof.
  intros -> H.
  assert (Hz : Q2R (inject_Z z) = IZR z) by (apply Q2R_IZR; reflexivity).
  assert (H2 : (- Q2R e <= Q2R q - IZR z <= Q2R e)%R).
  { unfold Rabs in H. destruct (Rcase_abs (Q2R q - IZR z)); Lra.lra. }
  apply Qabs_Qle_condition. split; apply Rle_Qle.
  - rewrite Q2R_opp, Q2R_minus, Hz. Lra.lra.
  - rewrite Q2R_minus, Hz. Lra.lra.
Qed.

(** C2 (amended): at a rotation of 90, 180 or 270 degrees, [rotated]
    takes the fast path (the loop of discrete quarter turns).  Where
    [math.cos] and [math.sin] return the cosine and the sine of the angle
    to within [trig_accuracy], and the coordinates of the point and the
    extents of the image are within [pixel_range], each coordinate of
    the result differs by at most 1e-6 from that of the general
    trigonometric path at that angle; with the operations read exactly
    the difference is at most 1e-9 ([rotated_general_close]), which
    leaves the rest to the rounding of the code's arithmetic.  The
    dimensions are those of the data model: width, height and scale are
    not negative. *)
Theorem rotated_fast_agrees_with_general (p : Point) (d : ImageDimensions) :
  let alpha := rotation d in
  let w := py_int (inject_Z (width d) * scale d) in
  let h := py_int (inject_Z (height d) * scale d) in
  let general :=
    rotated_general math_cos math_sin (math_radians alpha) (pt_x p) (pt_y p) w h in
  (alpha == 90 \/ alpha == 180 \/ alpha == 270)%Q ->
  0 <= width d -> 0 <= height d -> (0 <= scale d)%Q ->
  (Rabs (Q2R (math_cos (math_radians alpha)) - Rtrigo_def.cos (Q2R alpha * PI / 180))
   <= Q2R trig_accuracy)%R ->
  (Rabs (Q2R (math_sin (math_radians alpha)) - Rtrigo_def.sin (Q2R alpha * PI / 180))
   <= Q2R trig_accuracy)%R ->
  (Qabs (pt_x p) <= pixel_range)%Q -> (Qabs (pt_y p) <= pixel_range)%Q ->
  (inject_Z w <= pixel_range)%Q -> (inject_Z h <= pixel_range)%Q ->
  rotated p d = rotated_fast alpha (pt_x p) (pt_y p) w h /\
  rotated_loop (rotated_fuel alpha) alpha (pt_x p) (pt_y p) w h = Some (rotated p d) /\
  rotated p d = quarter_turns (Z.to_nat (Qfloor (alpha / 90))) (pt_x p) (pt_y p) w h /\
  (Qabs (pt_x (rotated p d) - pt_x general) <= 1 / 1000000)%Q /\
  (Qabs (pt_y (rotated p d) - pt_y general) <= 1 / 1000000)%Q.
Proof.
  intros alpha w h general Halpha Hwd Hht Hsc Hcos Hsin Hx Hy Hwr Hhr.
  assert (Hw : 0 <= w) by (apply py_int_nonneg; assumption).
  assert (Hh : 0 <= h) by (apply py_int_nonneg; assumption).
  assert (Hfast : rotated p d = rotated_fast alpha (pt_x p) (pt_y p) w h).
  { unfold rotated. fold alpha w h.
    assert (Hm : py_eq (py_mod alpha 90) 0 = true).
    { destruct Halpha as [H | [H | H]].
      - apply (py_mod_multiple alpha 1). rewrite H. reflexivity.
      - apply (py_mod_multiple alpha 2). rewrite H. reflexivity.
      - apply (py_mod_multiple alpha 3). rewrite H. reflexivity. }
    now rewrite Hm. }
  split; [exact Hfast |]. split; [rewrite Hfast; apply rotated_fast_terminates |].
  split.
  { rewrite Hfast. destruct Halpha as [H | [H | H]].
    - destruct (rotated_fast_quarter_turns 1 alpha (pt_x p) (pt_y p) w h) as [E1 E2];
        [rewrite H; reflexivity | now rewrite E2].
    - destruct (rotated_fast_quarter_turns 2 alpha (pt_x p) (pt_y p) w h) as [E1 E2];
        [rewrite H; reflexivity | now rewrite E2].
    - destruct (rotated_fast_quarter_turns 3 alpha (pt_x p) (pt_y p) w h) as [E1 E2];
        [rewrite H; reflexivity | now rewrite E2]. }
  rewrite Hfast. subst general.
  destruct Halpha as [H | [H | H]].
  - rewrite (Q2R_IZR alpha 90 H) in Hcos, Hsin.
    destruct cos_sin_deg_90 as [Ec Es]. rewrite Ec in Hcos. rewrite Es in Hsin.
    apply (Qabs_close_of_R _ _ 0 _ eq_refl) in Hcos.
    apply (Qabs_close_of_R _ _ 1 _ eq_refl) in Hsin.
    destruct (rotated_general_close math_cos math_sin (math_radians alpha)
                (pt_x p) (pt_y p) w h Hw Hh _ _ Hcos Hsin Hx Hy Hwr Hhr) as [Cx Cy].
    apply (fun H => Qle_trans _ _ _ H tolerance_margin) in Cx.
    apply (fun H => Qle_trans _ _ _ H tolerance_margin) in Cy.
    destruct (rotated_general_quarter (fun _ => inject_Z 0) (fun _ => inject_Z 1)
                (math_radians alpha) (pt_x p) (pt_y p) w h Hw Hh
                (Qeq_refl _) (Qeq_refl _)) as [Ex Ey].
    rewrite (rotated_fast_Qeq alpha 90 _ _ _ _ H), rotated_fast_90.
    cbn [pt_x pt_y Point_xy].
    rewrite Ex in Cx. rewrite Ey in Cy.
    split; rewrite Qabs_minus_sym; assumption.
  - rewrite (Q2R_IZR alpha 180 H) in Hcos, Hsin.
    destruct cos_sin_deg_180 as [Ec Es]. rewrite Ec in Hcos. rewrite Es in Hsin.
    apply (Qabs_close_of_R _ _ (-1) _ eq_refl) in Hcos.
    apply (Qabs_close_of_R _ _ 0 _ eq_refl) in Hsin.
    destruct (rotated_general_close math_cos math_sin (math_radians alpha)
                (pt_x p) (pt_y p) w h Hw Hh _ _ Hcos Hsin Hx Hy Hwr Hhr) as [Cx Cy].
    apply (fun H => Qle_trans _ _ _ H tolerance_margin) in Cx.
    apply (fun H => Qle_trans _ _ _ H tolerance_margin) in Cy.
    destruct (rotated_general_half (fun _ => inject_Z (-1)) (fun _ => inject_Z 0)
                (math_radians alpha) (pt_x p) (pt_y p) w h Hw Hh
                (Qeq_refl _) (Qeq_refl _)) as [Ex Ey].
    rewrite (rotated_fast_Qeq alpha 180 _ _ _ _ H), rotated_fast_180.
    cbn [pt_x pt_y Point_xy].
    rewrite Ex in Cx. rewrite Ey in Cy.
    split; rewrite Qabs_minus_sym; assumption.
  - rewrite (Q2R_IZR alpha 270 H) in Hcos, Hsin.
    destruct cos_sin_deg_270 as [Ec Es]. rewrite Ec in Hcos. rewrite Es in Hsin.
    apply (Qabs_close_of_R _ _ 0 _ eq_refl) in Hcos.
    apply (Qabs_close_of_R _ _ (-1) _ eq_refl) in Hsin.
    destruct (rotated_general_close math_cos math_sin (math_radians alpha)
                (pt_x p) (pt_y p) w h Hw Hh _ _ Hcos Hsin Hx Hy Hwr Hhr) as [Cx Cy].
    apply (fun H => Qle_trans _ _ _ H tolerance_margin) in Cx.
    apply (fun H => Qle_trans _ _ _ H tolerance_margin) in Cy.
    destruct (rotated_general_three_quarters (fun _ => inject_Z 0)
                (fun _ => inject_Z (-1))
                (math_radians alpha) (pt_x p) (pt_y p) w h Hw Hh
                (Qeq_refl _) (Qeq_refl _)) as [Ex Ey].
    rewrite (rotated_fast_Qeq alpha 270 _ _ _ _ H), rotated_fast_270.
    cbn [pt_x pt_y Point_xy].
    rewrite Ex in Cx. rewrite Ey in Cy.
    assert (E : (inject_Z w - (inject_Z w - pt_x p) == pt_x p)%Q) by ring.
    split; rewrite Qabs_minus_sym; [| rewrite E]; assumption.
Qed.

(** ** Calibration points *)

Lemma calibration_some (md : MapData) (im : ImageData) :
  image md = Some im ->
  is_empty im = false ->
  exists m1 m2 m3,
    calibration md
    = Some [ mkCalibrationPoint (_calibration_center md, _calibration_center md) m1;
             mkCalibrationPoint
               ((_calibration_center md + _calibration_diff md * 10)%Q,
                _calibration_center md) m2;
             mkCalibrationPoint
               (_calibration_center md,
                (_calibration_center md + _calibration_diff md * 10)%Q) m3 ].
Proof.
  intros Him Hne. unfold calibration. rewrite Him, Hne.
  cbn [List.map Point_xy pt_x pt_y]. eauto.
Qed.

(** C5: [calibration] returns [None] exactly when the image is absent or
    empty; otherwise it returns three points whose vacuum fields are
    [(c, c)], [(c + 10 d, c)] and [(c, c + 10 d)] for the configured
    centre [c] and difference [d]; with [c = 0] and [d = 1] these are
    [(0, 0)], [(10, 0)] and [(0, 10)]. *)
Theorem calibration_points (md : MapData) :
  let c := _calibration_center md in
  let d := _calibration_diff md in
  (calibration md = None <->
   image md = None \/ exists im, image md = Some im /\ is_empty im = true) /\
  (forall pts, calibration md = Some pts ->
     length pts = 3%nat /\
     Forall2 xy_eq (List.map cp_vacuum pts)
       [ (c, c); ((c + 10 * d)%Q, c); (c, (c + 10 * d)%Q) ]) /\
  (forall pts, calibration md = Some pts -> (c == 0)%Q -> (d == 1)%Q ->
     Forall2 xy_eq (List.map cp_vacuum pts) [ (0, 0); (10, 0); (0, 10) ]%Q).
Proof.
  intros c d.
  assert (Hsome : forall pts, calibration md = Some pts ->
            length pts = 3%nat /\
            Forall2 xy_eq (List.map cp_vacuum pts)
              [ (c, c); ((c + 10 * d)%Q, c); (c, (c + 10 * d)%Q) ]).
  { intros pts Hpts. destruct (image md) as [im |] eqn:Him.
    - destruct (is_empty im) eqn:Hne.
      + unfold calibration in Hpts. rewrite Him, Hne in Hpts. discriminate.
      + destruct (calibration_some md im Him Hne) as (m1 & m2 & m3 & Hc).
        rewrite Hc in Hpts. injection Hpts as <-. split; [reflexivity |].
        cbn [List.map cp_vacuum]. fold c d.
        repeat constructor; cbn [fst snd]; ring.
    - unfold calibration in Hpts. rewrite Him in Hpts. discriminate. }
  split; [| split].
  - unfold calibration. destruct (image md) as [im |].
    + destruct (is_empty im) eqn:Hne; split.
      * intros _. right. eauto.
      * reflexivity.
      * discriminate.
      * intros [H | (im' & H & Hempty)]; [discriminate |].
        injection H as <-. congruence.
    + split; [intros _; now left | reflexivity].
  - exact Hsome.
  - intros pts Hpts Hc Hd. destruct (Hsome pts Hpts) as [_ HF].
    destruct pts as [| p1 [| p2 [| p3 [| p4 pts]]]]; cbn [List.map] in *;
      repeat match goal with H : Forall2 _ _ _ |- _ => inversion H; clear H; subst end.
    unfold xy_eq in *. cbn [fst snd] in *.
    repeat constructor; cbn [fst snd];
      repeat match goal with H : _ /\ _ |- _ => destruct H end.
    all: try (rewrite Hc in *; rewrite Hd in *); lra.
Qed.

(** ** Empty images *)

(** C10: [is_empty] is true exactly when the height or the width given
    to the constructor is zero; the trim percentages do not enter.  An
    image whose trim leaves a width of zero is therefore not empty, and
    [calibration] still returns its three points. *)
Theorem is_empty_ignores_trim (size0 top0 left0 h0 w0 : Z) (image_config : ImageConfig)
    (data0 : Image) (transformation : Point -> Point)
    (layers : option (gmap string (option Image))) :
  let im := ImageData_init size0 top0 left0 h0 w0 image_config data0
              transformation layers in
  let trimmed := ImageData_init size0 top0 left0 10 10
                   (mkImageConfig 1 0 (mkTrimConfig 50 50 0 0)) data0
                   transformation layers in
  (is_empty im = true <-> h0 = 0 \/ w0 = 0) /\
  (forall md, image md = Some im -> h0 <> 0 -> w0 <> 0 ->
     exists pts, calibration md = Some pts /\ length pts = 3%nat) /\
  (width (dimensions trimmed) = 0 /\
   is_empty trimmed = false /\
   forall md, image md = Some trimmed ->
     exists pts, calibration md = Some pts /\ length pts = 3%nat).
Proof.
  intros im trimmed.
  assert (Hempty : is_empty im = true <-> h0 = 0 \/ w0 = 0).
  { subst im. unfold ImageData_init. cbn [is_empty].
    rewrite orb_true_iff, !Z.eqb_eq. reflexivity. }
  split; [exact Hempty | split; [| split; [reflexivity | split; [reflexivity |]]]].
  - intros md Him Hh Hw.
    assert (Hne : is_empty im = false).
    { destruct (is_empty im); [| reflexivity].
      destruct (proj1 Hempty eq_refl); lia. }
    destruct (calibration_some md im Him Hne) as (m1 & m2 & m3 & Hc).
    rewrite Hc. eauto.
  - intros md Him.
    destruct (calibration_some md trimmed Him eq_refl) as (m1 & m2 & m3 & Hc).
    rewrite Hc. eauto.
Qed.

(** ** Colour resolution *)

(** The fallback chain of [get_color] over any built-in table: the
    override, else the table's entry, else the table's entry for the
    "unknown" role, else opaque black. *)
Lemma get_color_in_chain (builtin : gmap string Color) (p : ColorsPalette)
    (name : string) :
  (forall c, _overriden_colors p !! name = Some c -> get_color_in builtin p name = c) /\
  (forall c, _overriden_colors p !! name = None -> builtin !! name = Some c ->
     get_color_in builtin p name = c) /\
  (forall c, _overriden_colors p !! name = None -> builtin !! name = None ->
     builtin !! SupportedColor_value UNKNOWN = Some c ->
     get_color_in builtin p name = c) /\
  (_overriden_colors p !! name = None -> builtin !! name = None ->
   builtin !! SupportedColor_value UNKNOWN = None ->
   get_color_in builtin p name = RGB 0 0 0).
Proof.
  unfold get_color_in, dict_get.
  repeat split; intros; repeat match goal with H : _ !! _ = _ |- _ => rewrite H end;
    reflexivity.
Qed.

(** With empty overrides: a name with an entry in [COLORS] gets that
    entry, any other name gets the entry of the "unknown" role. *)
Lemma get_color_empty_overrides (p : ColorsPalette) (name : string) :
  _overriden_colors p = ∅ ->
  (forall c, COLORS !! name = Some c -> get_color p name = c) /\
  (COLORS !! name = None ->
   COLORS !! SupportedColor_value UNKNOWN = Some (get_color p name)).
Proof.
  intros He. unfold get_color, get_color_in, dict_get. rewrite He, lookup_empty.
  split; intros; repeat match goal with H : _ !! _ = _ |- _ => rewrite H end;
    reflexivity.
Qed.

(** [get_color] reads nothing of the palette but the colour overrides. *)
Lemma get_color_deterministic (p1 p2 : ColorsPalette) (name : string) :
  _overriden_colors p1 = _overriden_colors p2 ->
  get_color p1 name = get_color p2 name.
Proof. intros H. unfold get_color, get_color_in. now rewrite H. Qed.

(** C7: the role [MOP_PATH] is a member of [SupportedColor], yet [COLORS]
    has no entry for it (every other member has one); with empty
    overrides [get_color] answers it with the value of the "unknown"
    role, opaque black. *)
Theorem get_color_mop_path_has_no_builtin :
  let p := ColorsPalette_init (mkRandom (fun _ => 0) 0) None None in
  In MOP_PATH SupportedColor_members /\
  COLORS !! SupportedColor_value MOP_PATH = None /\
  get_color p (SupportedColor_value MOP_PATH) = RGB 0 0 0 /\
  get_color p (SupportedColor_value MOP_PATH)
  = get_color p (SupportedColor_value UNKNOWN) /\
  (forall role, role <> MOP_PATH ->
     COLORS !! SupportedColor_value role
     = Some (get_color p (SupportedColor_value role))).
Proof.
  intros p. split; [cbn; tauto |]. split; [vm_compute; reflexivity |].
  split; [vm_compute; reflexivity |]. split; [vm_compute; reflexivity |].
  intros role Hne. destruct role; try (vm_compute; reflexivity).
  congruence.
Qed.

(** ** Room colours *)

Lemma room_id_wrap_range (n : Z) : 1 <= (n - 1) mod 16 + 1 <= 16.
Proof. pose proof (Z.mod_pos_bound (n - 1) 16 ltac:(lia)). lia. Qed.

Lemma size_ROOM_COLORS : Z.of_nat (size ROOM_COLORS) = 16.
Proof. vm_compute. reflexivity. Qed.

(** [str] returns on every integer of at most 4300 digits. *)
Lemma str_of_int_within (n : Z) :
  - 10 ^ int_max_str_digits < n < 10 ^ int_max_str_digits ->
  str_of_int n = inr (py_str n).
Proof.
  intros H. unfold str_of_int.
  destruct (10 ^ int_max_str_digits <=? Z.abs n) eqn:E; [| reflexivity].
  apply Z.leb_le in E. lia.
Qed.

Lemma str_of_int_beyond (n : Z) :
  10 ^ int_max_str_digits <= Z.abs n -> str_of_int n = inl exceeds_limit.
Proof.
  intros H. unfold str_of_int. apply Z.leb_le in H. now rewrite H.
Qed.

Lemma limit_above_16 : 16 < 10 ^ int_max_str_digits.
Proof.
  assert (H : 10 ^ 2 <= 10 ^ int_max_str_digits)
    by (apply Z.pow_le_mono_r; unfold int_max_str_digits; lia).
  change (10 ^ 2) with 100 in H. lia.
Qed.

Lemma str_of_int_room (n : Z) : 1 <= n <= 16 -> str_of_int n = inr (py_str n).
Proof.
  intros H. apply str_of_int_within. pose proof limit_above_16. lia.
Qed.

Lemma randint_1_16 (r : Random) : 1 <= fst (randint r 1 16) <= 16.
Proof.
  unfold randint. cbn [fst].
  pose proof (Z.mod_pos_bound (rnd_draws r (rnd_pos r)) (16 - 1 + 1) ltac:(lia)). lia.
Qed.

(** C4 (amended): an integer room id above 16 gets the colour of
    [((id - 1) mod 16) + 1]; so 17 gets the colour of 1 and 32 that of
    16; and a numeric string gets the colour of the integer it denotes. *)
Theorem get_room_color_wraps_above_16 (p : ColorsPalette) :
  (forall n, 16 < n ->
     get_room_color p (RoomInt n) = get_room_color p (RoomInt ((n - 1) mod 16 + 1))) /\
  get_room_color p (RoomInt 17) = get_room_color p (RoomInt 1) /\
  get_room_color p (RoomInt 32) = get_room_color p (RoomInt 16) /\
  (forall s n, py_int_of_str s = Some n ->
     get_room_color p (RoomStr s) = get_room_color p (RoomInt n)).
Proof.
  assert (Hwrap : forall n, 16 < n ->
            get_room_color p (RoomInt n)
            = get_room_color p (RoomInt ((n - 1) mod 16 + 1))).
  { intros n Hn. unfold get_room_color. rewrite size_ROOM_COLORS.
    pose proof (room_id_wrap_range n) as Hr.
    destruct (n >? 16) eqn:E1; [| lia].
    destruct ((n - 1) mod 16 + 1 >? 16) eqn:E2; [lia | reflexivity]. }
  split; [exact Hwrap |]. split; [exact (Hwrap 17 ltac:(lia)) |].
  split; [exact (Hwrap 32 ltac:(lia)) |].
  intros s n Hs. unfold py_int_of_str in Hs. unfold get_room_color.
  destruct (int_of_str s) as [e | m]; [discriminate Hs |].
  injection Hs as ->. reflexivity.
Qed.

(** The keys of [ROOM_COLORS] are the decimal strings of 1 to 16. *)
Lemma ROOM_COLORS_keys :
  ROOM_COLORS_items.*1 = py_str <$> [1; 2; 3; 4; 5; 6; 7; 8; 9; 10; 11; 12; 13; 14; 15; 16].
Proof. vm_compute. reflexivity. Qed.

Lemma ROOM_COLORS_lookup (n : Z) :
  is_Some (ROOM_COLORS !! py_str n) <-> 1 <= n <= 16.
Proof.
  split.
  - intros [c Hc]. unfold ROOM_COLORS in Hc.
    apply elem_of_list_to_map_2 in Hc.
    assert (Hk : py_str n ∈ ROOM_COLORS_items.*1).
    { apply list_elem_of_fmap. exists (py_str n, c). split; [reflexivity | exact Hc]. }
    rewrite ROOM_COLORS_keys in Hk. apply list_elem_of_fmap in Hk.
    destruct Hk as (k & Hk & Hin). unfold py_str in Hk.
    apply (inj pretty) in Hk. subst k.
    repeat (apply elem_of_cons in Hin; destruct Hin as [-> | Hin]; [lia |]).
    inversion Hin.
  - intros Hn.
    assert (Hcases : n = 1 \/ n = 2 \/ n = 3 \/ n = 4 \/ n = 5 \/ n = 6 \/ n = 7 \/ n = 8
                     \/ n = 9 \/ n = 10 \/ n = 11 \/ n = 12 \/ n = 13 \/ n = 14
                     \/ n = 15 \/ n = 16) by lia.
    repeat (destruct Hcases as [-> | Hcases]; [vm_compute; eauto |]).
    subst n. vm_compute. eauto.
Qed.

(** An id below 1 is not wrapped.  Without an override for its own key
    it gets the colour of the id that the random source draws. *)
Lemma get_room_color_below_1 (p : ColorsPalette) (n : Z) :
  - 10 ^ int_max_str_digits < n < 1 ->
  _overriden_room_colors p !! py_str n = None ->
  let r := fst (randint (_random p) 1 16) in
  1 <= r <= 16 /\
  exists c, ROOM_COLORS !! py_str r = Some c /\
            fst (get_room_color p (RoomInt n)) = inr c.
Proof.
  intros Hn Hov r.
  assert (Hr : 1 <= r <= 16) by apply randint_1_16.
  split; [exact Hr |].
  destruct (proj2 (ROOM_COLORS_lookup r) Hr) as [c Hc]. exists c. split; [exact Hc |].
  unfold get_room_color. rewrite size_ROOM_COLORS.
  destruct (n >? 16) eqn:E; [lia |].
  rewrite str_of_int_within by (pose proof limit_above_16; lia).
  destruct (randint (_random p) 1 16) as [r' rnd'] eqn:Er. cbn [fst snd] in *.
  subst r. rewrite (str_of_int_room r' Hr). cbn [fst].
  unfold dict_get. rewrite Hov, Hc.
  destruct (ROOM_COLORS !! py_str n) as [c' |] eqn:Hn'; [| reflexivity].
  assert (1 <= n <= 16) by (apply ROOM_COLORS_lookup; eauto). lia.
Qed.

(** ** The placeholder image *)


(** ** Paths *)

Section PathOps.

Variables (dims : ImageDimensions) (scale path_width : Q) (color : Color).

Lemma segments_lines (points : list Point) :
  forall s coords,
    List.filter is_line (_draw_path_segments dims scale path_width color s coords points)
    = segments (py_int (scale * path_width)) color s
        (List.map (on_layer dims scale) points).
Proof.
  induction points as [| point points IH]; intros s coords; [reflexivity |].
  cbn [_draw_path_segments List.map segments].
  destruct (py_gt path_width 4).
  - destruct coords; cbn [app List.filter is_line]; fold (on_layer dims scale point);
      unfold segment; f_equal; apply IH.
  - cbn [app List.filter is_line]. fold (on_layer dims scale point).
    unfold segment. f_equal. apply IH.
Qed.

Lemma segments_no_caps (points : list Point) :
  py_gt path_width 4 = false ->
  forall s coords,
    List.filter is_pieslice
      (_draw_path_segments dims scale path_width color s coords points) = [].
Proof.
  intros Hw. induction points as [| point points IH]; intros s coords; [reflexivity |].
  cbn [_draw_path_segments]. rewrite Hw. cbn [app List.filter is_pieslice]. apply IH.
Qed.

Lemma segments_uncapped (points : list Point) :
  py_gt path_width 4 = false ->
  forall s coords,
    _draw_path_segments dims scale path_width color s coords points
    = segments (py_int (scale * path_width)) color s
        (List.map (on_layer dims scale) points).
Proof.
  intros Hw. induction points as [| point points IH]; intros s coords; [reflexivity |].
  cbn [_draw_path_segments List.map segments]. rewrite Hw.
  cbn [app]. fold (on_layer dims scale point). unfold segment. f_equal. apply IH.
Qed.

Lemma segments_caps_after_first (points : list Point) :
  py_gt path_width 4 = true ->
  forall s coords,
    List.filter is_pieslice
      (_draw_path_segments dims scale path_width color s (Some coords) points)
    = List.map (end_cap (scale * path_width / 2) color)
        (List.map (on_layer dims scale) points).
Proof.
  intros Hw. induction points as [| point points IH]; intros s coords; [reflexivity |].
  cbn [_draw_path_segments]. rewrite Hw.
  cbn [app List.filter is_pieslice List.map]. fold (on_layer dims scale point).
  unfold end_cap at 1. f_equal. apply IH.
Qed.

Lemma segments_caps (point : Point) (points : list Point) (s : Point) :
  py_gt path_width 4 = true ->
  List.filter is_pieslice
    (_draw_path_segments dims scale path_width color s None (point :: points))
  = List.map (end_cap (scale * path_width / 2) color)
      (s :: List.map (on_layer dims scale) (point :: points)).
Proof.
  intros Hw. cbn [_draw_path_segments]. rewrite Hw.
  cbn [app List.filter is_pieslice List.map]. fold (on_layer dims scale point).
  unfold end_cap at 1 2. do 2 f_equal. now apply segments_caps_after_first.
Qed.

Lemma segments_only_lines_and_caps (points : list Point) :
  forall s coords,
    Forall (fun op => is_line op || is_pieslice op = true)
      (_draw_path_segments dims scale path_width color s coords points).
Proof.
  induction points as [| point points IH]; intros s coords; [constructor |].
  cbn [_draw_path_segments].
  destruct (py_gt path_width 4); [destruct coords |];
    cbn [app]; repeat (constructor; [reflexivity |]); apply IH.
Qed.

End PathOps.

(** C9 (amended): for a polyline of at least two points the path
    renderer draws the straight segments between consecutive points, each
    of pixel width [int(scale * w)]; it adds a full-circle cap of radius
    [scale * w / 2] on every point of the polyline exactly when [w > 4]
    (without caps the segments are all that is drawn); it issues nothing
    else, and nothing at all for a polyline that is empty or has a single
    point. *)
Theorem draw_path_polyline_ops (dims : ImageDimensions) (scale path_width : Q)
    (color : Color) (current_path : list Point) :
  let ops := _draw_path_polyline dims scale path_width color current_path in
  let points := List.map (on_layer dims scale) current_path in
  ((length current_path <= 1)%nat -> ops = []) /\
  ((2 <= length current_path)%nat ->
     List.filter is_line ops
     = match points with
       | s :: es => segments (py_int (scale * path_width)) color s es
       | [] => []
       end /\
     ((4 < path_width)%Q ->
        List.filter is_pieslice ops
        = List.map (end_cap (scale * path_width / 2) color) points) /\
     (~ (4 < path_width)%Q ->
        List.filter is_pieslice ops = [] /\
        ops = match points with
              | s :: es => segments (py_int (scale * path_width)) color s es
              | [] => []
              end) /\
     Forall (fun op => is_line op || is_pieslice op = true) ops).
Proof.
  intros ops points. subst ops points. split.
  - intros Hlen. destruct current_path as [| p0 [| p1 rest]]; cbn in *; [reflexivity .. | lia].
  - intros Hlen. destruct current_path as [| p0 [| p1 rest]]; cbn [length] in Hlen; try lia.
    unfold _draw_path_polyline.
    replace (Z.of_nat (length (p0 :: p1 :: rest)) >? 1) with true
      by (symmetry; apply Z.gtb_lt; cbn [length]; lia).
    fold (on_layer dims scale p0). cbn [List.map].
    split; [apply segments_lines |]. split; [| split].
    + intros Hw. apply segments_caps. now apply py_gt_true.
    + intros Hw.
      assert (E : py_gt path_width 4 = false).
      { destruct (py_gt path_width 4) eqn:E; [| reflexivity].
        apply py_gt_true in E. contradiction. }
      split; [now apply segments_no_caps | now apply segments_uncapped].
    + apply segments_only_lines_and_caps.
Qed.

(** The renderer hands exactly these calls, polyline after polyline, to
    the compositor, together with the scale of the image configuration;
    a path without polylines does nothing. *)
Lemma draw_path_uses_polyline_ops (self : ImageGenerator) (image0 : ImageData)
    (path0 : Path) (path_width : Q) (color : Color) :
  _draw_path self image0 path0 path_width color
  = match path_path path0 with
    | [] => Ok image0
    | _ :: _ =>
        _draw_on_new_layer image0
          (draw_ops
             (flat_map
                (_draw_path_polyline (dimensions image0) (ic_scale (_image_config self))
                   path_width color)
                (path_path path0)))
          (ic_scale (_image_config self)) (_use_transparency [color])
    end.
Proof.
  unfold _draw_path, _draw_path_ops. destruct (path_path path0) as [| l ls];
    [reflexivity |].
  replace (Z.of_nat (length (l :: ls)) <? 1) with false; [reflexivity |].
  symmetry. apply Z.ltb_ge. cbn [length]. lia.
Qed.

(** ** Renderers on absent or empty input *)

Lemma path_renderers_shape (self : ImageGenerator) (md : MapData) :
  _draw_vacuum_path self md = draw_path_of self md (path md) PATH_WIDTH PATH /\
  _draw_goto_path self md = draw_path_of self md (goto_path md) PATH_WIDTH GOTO_PATH /\
  _draw_predicted_path self md
  = draw_path_of self md (predicted_path md) PATH_WIDTH PREDICTED_PATH /\
  _draw_mop_path self md = draw_path_of self md (mop_path md) MOP_PATH_WIDTH MOP_PATH.
Proof. repeat split. Qed.

Lemma area_renderers_shape (self : ImageGenerator) (md : MapData) :
  _draw_no_carpet_areas self md
  = draw_areas_of self md (no_carpet_areas md) NO_CARPET_ZONES NO_CARPET_ZONES_OUTLINE /\
  _draw_no_go_areas self md
  = draw_areas_of self md (no_go_areas md) NO_GO_ZONES NO_GO_ZONES_OUTLINE /\
  _draw_no_mopping_areas self md
  = draw_areas_of self md (no_mopping_areas md)
      NO_MOPPING_ZONES NO_MOPPING_ZONES_OUTLINE.
Proof. repeat split. Qed.

Lemma obstacle_renderers_shape (self : ImageGenerator) (md : MapData) :
  _draw_obstacles self md
  = draw_obstacles_of self md (obstacles md) OBSTACLE OBSTACLE_RADIUS /\
  _draw_ignored_obstacles self md
  = draw_obstacles_of self md (ignored_obstacles md)
      IGNORED_OBSTACLE IGNORED_OBSTACLE_RADIUS /\
  _draw_obstacles_with_photo self md
  = draw_obstacles_of self md (obstacles_with_photo md)
      OBSTACLE_WITH_PHOTO OBSTACLE_WITH_PHOTO_RADIUS /\
  _draw_ignored_obstacles_with_photo self md
  = draw_obstacles_of self md (ignored_obstacles_with_photo md)
      IGNORED_OBSTACLE_WITH_PHOTO IGNORED_OBSTACLE_WITH_PHOTO_RADIUS.
Proof. repeat split. Qed.

Lemma draw_drawable_dispatch (self : ImageGenerator) (d : Drawable) (md : MapData) :
  draw_drawable self (Drawable_value d) md = renderer d self md.
Proof. destruct d; reflexivity. Qed.

(** A string that is the value of no drawable kind is skipped. *)
Lemma draw_drawable_unknown (self : ImageGenerator) (name : string) (md : MapData) :
  (forall d, name <> Drawable_value d) -> draw_drawable self name md = Ok md.
Proof.
  intros Hne. unfold draw_drawable.
  repeat match goal with
         | |- context [String.eqb name (Drawable_value ?d)] =>
             destruct (String.eqb_spec name (Drawable_value d)) as [E | _];
             [exfalso; exact (Hne d E) |]
         end.
  reflexivity.
Qed.

Lemma set_data_same (im : ImageData) : set_data im (data im) = im.
Proof. destruct im; reflexivity. Qed.

Lemma set_image_same (md : MapData) (im : ImageData) :
  image md = Some im -> set_image md (Some im) = md.
Proof. destruct md; cbn. now intros ->. Qed.

Lemma content_unchanged_refl (md : MapData) : content_unchanged md md.
Proof.
  unfold content_unchanged. destruct (image md) as [im |] eqn:E; [| reflexivity].
  exists (data im). split; [| constructor].
  now rewrite set_data_same, set_image_same.
Qed.

Lemma py_int_mul_1 (z : Z) : py_int (inject_Z z * 1) = z.
Proof. unfold py_int. cbn. now rewrite Z.mul_1_r, Z.quot_1_r. Qed.

(** The compositor with a callable that draws nothing, at scale 1. *)
Lemma draw_on_new_layer_nothing (im : ImageData) (use_transparency : bool) :
  (use_transparency = false ->
   _draw_on_new_layer im (draw_ops []) 1 use_transparency = Ok im) /\
  exists pixels,
    _draw_on_new_layer im (draw_ops []) 1 use_transparency = Ok (set_data im pixels) /\
    same_pixels (data im) pixels.
Proof.
  unfold _draw_on_new_layer. change (py_eq 1 1) with true.
  destruct use_transparency; cbn [andb negb draw_ops fold_left].
  - split; [discriminate |].
    rewrite !py_int_mul_1. unfold _draw_layer_with_alpha, alpha_composite.
    rewrite <- surjective_pairing. cbn [Image_size].
    destruct (decide (Image_size (data im) = Image_size (data im))) as [_ | Hne];
      [| contradiction].
    eexists. split; [reflexivity |]. constructor. constructor.
  - rewrite set_data_same. split; [reflexivity |].
    exists (data im). rewrite set_data_same. split; [reflexivity | constructor].
Qed.

Lemma renderer_absent (self : ImageGenerator) (d : Drawable) (md : MapData) :
  required_field_absent d md -> renderer d self md = Ok md.
Proof.
  intros [Him | Hfield].
  - destruct d; cbn [renderer];
      unfold _draw_charger, _draw_layer, _draw_goto_path, _draw_ignored_obstacles,
        _draw_ignored_obstacles_with_photo, _draw_mop_path, _draw_no_carpet_areas,
        _draw_no_go_areas, _draw_no_mopping_areas, _draw_obstacles,
        _draw_obstacles_with_photo, _draw_vacuum_path, _draw_predicted_path,
        _draw_room_names, _draw_vacuum_position, _draw_walls, _draw_zones,
        draw_path_of, draw_areas_of, draw_obstacles_of;
      rewrite Him;
      repeat match goal with |- context [match ?x with _ => _ end] => destruct x end;
      reflexivity.
  - destruct d; cbn [renderer required_field_absent] in *;
      unfold _draw_charger, _draw_layer, _draw_goto_path, _draw_ignored_obstacles,
        _draw_ignored_obstacles_with_photo, _draw_mop_path, _draw_no_carpet_areas,
        _draw_no_go_areas, _draw_no_mopping_areas, _draw_obstacles,
        _draw_obstacles_with_photo, _draw_vacuum_path, _draw_predicted_path,
        _draw_room_names, _draw_vacuum_position, _draw_walls, _draw_zones,
        draw_path_of, draw_areas_of, draw_obstacles_of;
      try (rewrite Hfield; reflexivity).
    destruct Hfield as (im & Him & Hlayer). now rewrite Him, Hlayer.
Qed.

Lemma renderer_empty_list (self : ImageGenerator) (d : Drawable) (md : MapData) :
  drawn_list_empty d md ->
  (d <> D_VIRTUAL_WALLS -> renderer d self md = Ok md) /\
  (_use_transparency [_get_color self VIRTUAL_WALLS] = false ->
   renderer d self md = Ok md) /\
  exists md', renderer d self md = Ok md' /\ content_unchanged md md'.
Proof.
  intros Hempty.
  assert (Hexact : d <> D_VIRTUAL_WALLS -> renderer d self md = Ok md).
  { intros Hd. destruct d; cbn [renderer drawn_list_empty] in *; try contradiction;
      unfold _draw_goto_path, _draw_ignored_obstacles,
        _draw_ignored_obstacles_with_photo, _draw_mop_path, _draw_no_carpet_areas,
        _draw_no_go_areas, _draw_no_mopping_areas, _draw_obstacles,
        _draw_obstacles_with_photo, _draw_vacuum_path, _draw_predicted_path,
        _draw_room_names, _draw_zones,
        draw_path_of, draw_areas_of, draw_obstacles_of, path_empty in *;
      try (destruct Hempty as (p0 & Hp & Hnil));
      try rewrite Hempty; try rewrite Hp;
      destruct (image md) as [im |] eqn:Him; try reflexivity;
      unfold _draw_path, _draw_all_obstacles, _draw_areas;
      try rewrite Hnil; cbn -[set_image]; try change (Z.of_nat 0) with 0;
      cbn -[set_image]; now rewrite set_image_same. }
  destruct (decide (d = D_VIRTUAL_WALLS)) as [-> | Hd].
  - split; [exact Hexact |]. cbn [renderer drawn_list_empty] in *.
    unfold _draw_walls. rewrite Hempty.
    destruct (image md) as [im |] eqn:Him.
    + cbn [List.map].
      destruct (draw_on_new_layer_nothing im
                  (_use_transparency [_get_color self VIRTUAL_WALLS]))
        as [Hopaque (pixels & Hdraw & Hsame)].
      split.
      * intros Hno. rewrite (Hopaque Hno). cbn [on_image]. now rewrite set_image_same.
      * rewrite Hdraw. cbn [on_image]. eexists. split; [reflexivity |].
        unfold content_unchanged. rewrite Him. eauto.
    + split; [reflexivity |]. eexists. split; [reflexivity |].
      apply content_unchanged_refl.
  - split; [exact Hexact |]. split; [intros _; now apply Hexact |].
    exists md. split; [now apply Hexact | apply content_unchanged_refl].
Qed.

(** C6: without an image [draw_map] returns at once, the map as it was:
    no draw, rotation or text step is performed.  A renderer whose model
    field is absent returns normally and changes nothing; so does a
    renderer whose list is empty (for an empty wall list under a wall
    colour with an alpha channel the image object holds a new raster of
    the same pixels, an untouched transparent layer composited on it). *)
Theorem absent_input_is_no_op (self : ImageGenerator) (md : MapData) :
  (image md = None -> draw_map self md = Ok md) /\
  (forall d, required_field_absent d md ->
     renderer d self md = Ok md /\
     draw_drawable self (Drawable_value d) md = Ok md) /\
  (forall d, drawn_list_empty d md ->
     (d <> D_VIRTUAL_WALLS \/ _use_transparency [_get_color self VIRTUAL_WALLS] = false ->
      renderer d self md = Ok md) /\
     exists md', renderer d self md = Ok md' /\ content_unchanged md md').
Proof.
  split; [| split].
  - intros Him. unfold draw_map. now rewrite Him.
  - intros d Habs. rewrite draw_drawable_dispatch.
    split; now apply renderer_absent.
  - intros d Hempty.
    destruct (renderer_empty_list self d md Hempty) as (H1 & H2 & H3).
    split; [intros [H | H]; auto | exact H3].
Qed.

(** ** What [draw_map] writes *)

Lemma pixels_only_refl (im : ImageData) : pixels_only im im.
Proof. exists (data im). now rewrite set_data_same. Qed.

Lemma pixels_only_trans (im1 im2 im3 : ImageData) :
  pixels_only im1 im2 -> pixels_only im2 im3 -> pixels_only im1 im3.
Proof. intros [p ->] [q ->]. now exists q. Qed.

Lemma pixels_only_dimensions (im im' : ImageData) :
  pixels_only im im' -> dimensions im' = dimensions im.
Proof. now intros [p ->]. Qed.

Lemma for_each_preserves {S A : Type} (R : S -> S -> Prop) (step : A -> S -> Res S) :
  (forall s, R s s) ->
  (forall s1 s2 s3, R s1 s2 -> R s2 s3 -> R s1 s3) ->
  (forall x s, R s (Res_state (step x s))) ->
  forall xs s, R s (Res_state (for_each step xs s)).
Proof.
  intros Hrefl Htrans Hstep xs.
  induction xs as [| x xs IH]; intros s; cbn [for_each Res_state]; [apply Hrefl |].
  specialize (Hstep x s). destruct (step x s) as [s' | e s']; cbn [bind Res_state] in *.
  - eapply Htrans; [exact Hstep | apply IH].
  - exact Hstep.
Qed.

Lemma draw_layer_with_alpha_pixels (im : ImageData) (layer : Image) :
  pixels_only im (Res_state (_draw_layer_with_alpha im layer)).
Proof.
  unfold _draw_layer_with_alpha. destruct (alpha_composite (data im) layer);
    cbn [Res_state]; [apply pixels_only_refl | now eexists].
Qed.

Lemma draw_on_new_layer_pixels (im : ImageData) (f : Image -> Image) (s : Q) (t : bool) :
  pixels_only im (Res_state (_draw_on_new_layer im f s t)).
Proof.
  unfold _draw_on_new_layer. destruct (py_eq s 1 && negb t).
  - cbn [Res_state]. now eexists.
  - apply draw_layer_with_alpha_pixels.
Qed.

Lemma draw_text_pixels (im : ImageData) (text : string) (x y : Q) (color : Color)
    (file : option string) (size : option Z) :
  pixels_only im (Res_state (_draw_text im text x y color file size)).
Proof.
  unfold _draw_text. destruct (textbbox text _) as [[[l t] r] b].
  apply draw_on_new_layer_pixels.
Qed.

Lemma draw_areas_pixels (im : ImageData) (areas : list Area) (fill outline : Color) :
  pixels_only im (Res_state (_draw_areas im areas fill outline)).
Proof.
  unfold _draw_areas. destruct (Z.of_nat (length areas) =? 0);
    [apply pixels_only_refl |].
  apply for_each_preserves;
    [apply pixels_only_refl | apply pixels_only_trans |].
  intros area s. apply draw_on_new_layer_pixels.
Qed.

Lemma draw_all_obstacles_pixels (im : ImageData) (obstacles0 : list Obstacle)
    (radius : Q) (color : Color) :
  pixels_only im (Res_state (_draw_all_obstacles im obstacles0 radius color)).
Proof.
  unfold _draw_all_obstacles. apply for_each_preserves;
    [apply pixels_only_refl | apply pixels_only_trans |].
  intros ob s. unfold _draw_circle. apply draw_on_new_layer_pixels.
Qed.

Lemma draw_path_pixels (self : ImageGenerator) (im : ImageData) (path0 : Path)
    (path_width : Q) (color : Color) :
  pixels_only im (Res_state (_draw_path self im path0 path_width color)).
Proof.
  unfold _draw_path. destruct (Z.of_nat (length (path_path path0)) <? 1);
    [apply pixels_only_refl | apply draw_on_new_layer_pixels].
Qed.

Lemma draw_texts_pixels (im : ImageData) (texts : list Text) :
  pixels_only im (Res_state (_draw_texts im texts)).
Proof.
  unfold _draw_texts. apply for_each_preserves;
    [apply pixels_only_refl | apply pixels_only_trans |].
  intros t s. apply draw_text_pixels.
Qed.

Lemma rotate_pixels (self : ImageGenerator) (im : ImageData) :
  pixels_only im (_rotate self im).
Proof.
  unfold _rotate.
  repeat match goal with |- context [py_eq ?a ?b] => destruct (py_eq a b) end;
    now eexists.
Qed.

Lemma draw_vacuum_writes (im : ImageData) (p : Point) (r : Q) (outline fill : Color) :
  pixels_only im (fst (Res_state (_draw_vacuum im p r outline fill))) /\
  angle_defaulted p (snd (Res_state (_draw_vacuum im p r outline fill))) /\
  (pt_a p = None ->
   snd (Res_state (_draw_vacuum im p r outline fill))
   = mkPoint (pt_x p) (pt_y p) (Some 0%Q)).
Proof.
  unfold _draw_vacuum, _draw_vacuum_ops.
  match goal with
  | |- context [_draw_on_new_layer im ?f ?s ?t] =>
      pose proof (draw_on_new_layer_pixels im f s t) as Hpix;
      destruct (_draw_on_new_layer im f s t) as [im' | e im']
  end; cbn [Res_state fst snd] in *;
    (split; [exact Hpix |]); unfold angle_defaulted;
    destruct (pt_a p) eqn:Ea; split; auto; discriminate.
Qed.

Lemma writes_refl (md : MapData) : writes_pixels_and_angle_only md md.
Proof.
  split; [destruct md; reflexivity |]. split.
  - unfold image_pixels_only. destruct (image md); [apply pixels_only_refl | exact I].
  - unfold position_angle_defaulted, angle_defaulted.
    destruct (vacuum_position md); auto.
Qed.

Lemma writes_trans (md1 md2 md3 : MapData) :
  writes_pixels_and_angle_only md1 md2 ->
  writes_pixels_and_angle_only md2 md3 ->
  writes_pixels_and_angle_only md1 md3.
Proof.
  intros (E12 & I12 & P12) (E23 & I23 & P23). split; [| split].
  - rewrite E23. rewrite E12 at 1. destruct md1; reflexivity.
  - unfold image_pixels_only in *.
    destruct (image md1), (image md2), (image md3); try contradiction; auto.
    eapply pixels_only_trans; eassumption.
  - unfold position_angle_defaulted, angle_defaulted in *.
    destruct (vacuum_position md1) as [p1 |], (vacuum_position md2) as [p2 |],
      (vacuum_position md3) as [p3 |]; try contradiction; auto.
    destruct P12 as [-> | [Ha ->]], P23 as [-> | [Hb ->]]; auto.
Qed.

Lemma on_image_writes (md : MapData) (im : ImageData) (r : Res ImageData) :
  image md = Some im ->
  pixels_only im (Res_state r) ->
  writes_pixels_and_angle_only md (Res_state (on_image md r)).
Proof.
  intros Him Hpix.
  assert (H : writes_pixels_and_angle_only md (set_image md (Some (Res_state r)))).
  { split; [destruct md; reflexivity |]. split.
    - unfold image_pixels_only. rewrite Him. destruct md; exact Hpix.
    - replace (vacuum_position (set_image md (Some (Res_state r))))
        with (vacuum_position md) by (destruct md; reflexivity).
      unfold position_angle_defaulted, angle_defaulted.
      destruct (vacuum_position md); auto. }
  destruct r; exact H.
Qed.

Lemma draw_path_of_writes (self : ImageGenerator) (md : MapData) (p : option Path)
    (w : Size) (c : SupportedColor) :
  writes_pixels_and_angle_only md (Res_state (draw_path_of self md p w c)).
Proof.
  unfold draw_path_of. destruct p as [p |]; [| apply writes_refl].
  destruct (image md) as [im |] eqn:Him; [| apply writes_refl].
  apply (on_image_writes md im _ Him), draw_path_pixels.
Qed.

Lemma draw_areas_of_writes (self : ImageGenerator) (md : MapData)
    (areas : option (list Area)) (fill outline : SupportedColor) :
  writes_pixels_and_angle_only md (Res_state (draw_areas_of self md areas fill outline)).
Proof.
  unfold draw_areas_of. destruct areas as [areas |]; [| apply writes_refl].
  destruct (image md) as [im |] eqn:Him; [| apply writes_refl].
  apply (on_image_writes md im _ Him), draw_areas_pixels.
Qed.

Lemma draw_obstacles_of_writes (self : ImageGenerator) (md : MapData)
    (obs : option (list Obstacle)) (c : SupportedColor) (r : Size) :
  writes_pixels_and_angle_only md (Res_state (draw_obstacles_of self md obs c r)).
Proof.
  unfold draw_obstacles_of. destruct obs as [obs |]; [| apply writes_refl].
  destruct (image md) as [im |] eqn:Him; [| apply writes_refl].
  apply (on_image_writes md im _ Him), draw_all_obstacles_pixels.
Qed.

Lemma draw_charger_writes (self : ImageGenerator) (md : MapData) :
  writes_pixels_and_angle_only md (Res_state (_draw_charger self md)).
Proof.
  unfold _draw_charger. destruct (charger md) as [p |]; [| apply writes_refl].
  destruct (image md) as [im |] eqn:Him; [| apply writes_refl].
  apply (on_image_writes md im _ Him). unfold _draw_pieslice.
  apply draw_on_new_layer_pixels.
Qed.

Lemma draw_layer_writes (md : MapData) (name : string) :
  writes_pixels_and_angle_only md (Res_state (_draw_layer md name)).
Proof.
  unfold _draw_layer. destruct (image md) as [im |] eqn:Him; [| apply writes_refl].
  destruct (additional_layers im !! name); [| apply writes_refl].
  apply (on_image_writes md im _ Him), draw_layer_with_alpha_pixels.
Qed.

Lemma draw_walls_writes (self : ImageGenerator) (md : MapData) :
  writes_pixels_and_angle_only md (Res_state (_draw_walls self md)).
Proof.
  unfold _draw_walls. destruct (walls md) as [ws |]; [| apply writes_refl].
  destruct (image md) as [im |] eqn:Him; [| apply writes_refl].
  apply (on_image_writes md im _ Him), draw_on_new_layer_pixels.
Qed.

Lemma draw_zones_writes (self : ImageGenerator) (md : MapData) :
  writes_pixels_and_angle_only md (Res_state (_draw_zones self md)).
Proof.
  unfold _draw_zones. destruct (zones md) as [zs |]; [| apply writes_refl].
  destruct (image md) as [im |] eqn:Him; [| apply writes_refl].
  apply (on_image_writes md im _ Him), draw_areas_pixels.
Qed.

Lemma draw_room_names_writes (self : ImageGenerator) (md : MapData) :
  writes_pixels_and_angle_only md (Res_state (_draw_room_names self md)).
Proof.
  unfold _draw_room_names. destruct (rooms md) as [rs |]; [| apply writes_refl].
  destruct (image md) as [im |] eqn:Him; [| apply writes_refl].
  apply (on_image_writes md im _ Him).
  apply for_each_preserves; [apply pixels_only_refl | apply pixels_only_trans |].
  intros [k room] s. cbn [snd].
  destruct (Room_point room), (room_name room); try apply pixels_only_refl.
  apply draw_text_pixels.
Qed.

Lemma draw_vacuum_position_writes (self : ImageGenerator) (md : MapData) :
  writes_pixels_and_angle_only md (Res_state (_draw_vacuum_position self md)).
Proof.
  unfold _draw_vacuum_position.
  destruct (vacuum_position md) as [p |] eqn:Hp; [| apply writes_refl].
  destruct (image md) as [im |] eqn:Him; [| apply writes_refl].
  destruct (draw_vacuum_writes im p (_get_size self VACUUM_RADIUS)
              (_get_color self ROBO_OUTLINE) (_get_color self ROBO))
    as (Hpix & Hang & _).
  assert (H : forall im' p', pixels_only im im' -> angle_defaulted p p' ->
            writes_pixels_and_angle_only md
              (set_image (set_vacuum_position md (Some p')) (Some im'))).
  { intros im' p' H1 H2. split; [destruct md; reflexivity |]. split.
    - unfold image_pixels_only. rewrite Him. destruct md; exact H1.
    - unfold position_angle_defaulted. rewrite Hp. destruct md; exact H2. }
  destruct (_draw_vacuum im p _ _ _) as [[im' p'] | e [im' p']];
    cbn [Res_state fst snd] in *; now apply H.
Qed.

Lemma renderer_writes (self : ImageGenerator) (d : Drawable) (md : MapData) :
  writes_pixels_and_angle_only md (Res_state (renderer d self md)).
Proof.
  destruct d; cbn [renderer];
    first [ apply draw_path_of_writes | apply draw_areas_of_writes
          | apply draw_obstacles_of_writes | apply draw_charger_writes
          | apply draw_layer_writes | apply draw_walls_writes
          | apply draw_zones_writes | apply draw_room_names_writes
          | apply draw_vacuum_position_writes ].
Qed.

Lemma draw_drawable_writes (self : ImageGenerator) (name : string) (md : MapData) :
  writes_pixels_and_angle_only md (Res_state (draw_drawable self name md)).
Proof.
  unfold draw_drawable.
  repeat match goal with
         | |- context [String.eqb name ?v] => destruct (String.eqb name v)
         end;
    first [ apply (renderer_writes self D_CHARGER)
          | apply (renderer_writes self D_VACUUM_POSITION)
          | apply (renderer_writes self D_OBSTACLES)
          | apply (renderer_writes self D_IGNORED_OBSTACLES)
          | apply (renderer_writes self D_OBSTACLES_WITH_PHOTO)
          | apply (renderer_writes self D_IGNORED_OBSTACLES_WITH_PHOTO)
          | apply (renderer_writes self D_MOP_PATH)
          | apply (renderer_writes self D_PATH)
          | apply (renderer_writes self D_GOTO_PATH)
          | apply (renderer_writes self D_PREDICTED_PATH)
          | apply (renderer_writes self D_NO_CARPET_AREAS)
          | apply (renderer_writes self D_NO_GO_AREAS)
          | apply (renderer_writes self D_NO_MOPPING_AREAS)
          | apply (renderer_writes self D_VIRTUAL_WALLS)
          | apply (renderer_writes self D_ZONES)
          | apply draw_layer_writes
          | apply (renderer_writes self D_ROOM_NAMES)
          | apply writes_refl ].
Qed.

Lemma with_image_writes (md : MapData) (f : ImageData -> Res ImageData) :
  (forall im, pixels_only im (Res_state (f im))) ->
  writes_pixels_and_angle_only md (Res_state (with_image md f)).
Proof.
  intros Hf. unfold with_image. destruct (image md) as [im |] eqn:Him.
  - apply (on_image_writes md im _ Him), Hf.
  - apply writes_refl.
Qed.

Lemma bind_writes (md : MapData) (r : Res MapData) (f : MapData -> Res MapData) :
  writes_pixels_and_angle_only md (Res_state r) ->
  (forall md', writes_pixels_and_angle_only md' (Res_state (f md'))) ->
  writes_pixels_and_angle_only md (Res_state (r >>= f)).
Proof.
  intros Hr Hf. destruct r as [s | e s]; cbn [bind Res_state] in *; [| exact Hr].
  eapply writes_trans; [exact Hr | apply Hf].
Qed.

(** Whatever its outcome, [draw_map] leaves the map as it was except for
    the pixel buffer of the image and for the angle of the vacuum
    position, which it sets to 0 where it was [None]. *)
Lemma draw_map_writes (self : ImageGenerator) (md : MapData) :
  writes_pixels_and_angle_only md (Res_state (draw_map self md)).
Proof.
  unfold draw_map. destruct (image md) as [im |] eqn:Him; [| apply writes_refl].
  apply bind_writes; [apply bind_writes |].
  - apply for_each_preserves; [apply writes_refl | apply writes_trans |].
    intros name s. apply draw_drawable_writes.
  - intros md'. apply with_image_writes. intros im'. cbn [Res_state].
    apply rotate_pixels.
  - intros md'. apply with_image_writes. intros im'. apply draw_texts_pixels.
Qed.

(** Every attribute of the map but the image and the vacuum position,
    and every attribute of the image but its pixel buffer, is as it was
    before [draw_map]. *)
Corollary draw_map_frame (self : ImageGenerator) (md : MapData) :
  let md' := Res_state (draw_map self md) in
  _calibration_center md' = _calibration_center md /\
  _calibration_diff md' = _calibration_diff md /\
  blocks md' = blocks md /\ charger md' = charger md /\ goto md' = goto md /\
  goto_path md' = goto_path md /\ no_go_areas md' = no_go_areas md /\
  no_mopping_areas md' = no_mopping_areas md /\
  no_carpet_areas md' = no_carpet_areas md /\ carpet_map md' = carpet_map md /\
  obstacles md' = obstacles md /\ ignored_obstacles md' = ignored_obstacles md /\
  obstacles_with_photo md' = obstacles_with_photo md /\
  ignored_obstacles_with_photo md' = ignored_obstacles_with_photo md /\
  path md' = path md /\ predicted_path md' = predicted_path md /\
  mop_path md' = mop_path md /\ rooms md' = rooms md /\
  vacuum_room md' = vacuum_room md /\ vacuum_room_name md' = vacuum_room_name md /\
  walls md' = walls md /\ zones md' = zones md /\
  cleaned_rooms md' = cleaned_rooms md /\ map_name md' = map_name md /\
  image_pixels_only (image md) (image md') /\
  position_angle_defaulted (vacuum_position md) (vacuum_position md').
Proof.
  intros md'. destruct (draw_map_writes self md) as (E & Him & Hpos).
  fold md' in E, Him, Hpos.
  repeat split; try exact Him; try exact Hpos; rewrite E; destruct md; reflexivity.
Qed.

(** The vacuum renderer stores the default angle in the model. *)
Lemma draw_vacuum_position_defaults_angle (self : ImageGenerator) (md : MapData)
    (im : ImageData) (p : Point) :
  image md = Some im ->
  vacuum_position md = Some p ->
  pt_a p = None ->
  vacuum_position (Res_state (_draw_vacuum_position self md))
  = Some (mkPoint (pt_x p) (pt_y p) (Some 0%Q)).
Proof.
  intros Him Hp Ha. unfold _draw_vacuum_position. rewrite Hp, Him.
  destruct (draw_vacuum_writes im p (_get_size self VACUUM_RADIUS)
              (_get_color self ROBO_OUTLINE) (_get_color self ROBO))
    as (_ & _ & Hang).
  specialize (Hang Ha).
  destruct (_draw_vacuum im p _ _ _) as [[im' p'] | e [im' p']];
    cbn [Res_state fst snd] in *; subst p'; destruct md; reflexivity.
Qed.

(** The charger renderer, which has the same default, leaves the angle
    of the charger as it is. *)
Lemma draw_charger_keeps_angle (self : ImageGenerator) (md : MapData) :
  charger (Res_state (_draw_charger self md)) = charger md.
Proof.
  destruct (draw_charger_writes self md) as (E & _ & _).
  rewrite E. destruct md; reflexivity.
Qed.

(** C3: on a map whose vacuum position carries no angle, [draw_map] with
    the vacuum drawable returns normally and leaves the angle 0 in the
    vacuum position of the model: it writes more than the pixel buffer. *)
Theorem draw_map_writes_vacuum_angle :
  let self := generator_of [D_VACUUM_POSITION] in
  let md' := Res_state (draw_map self md_vacuum) in
  vacuum_position md_vacuum = Some (mkPoint 5 5 None) /\
  Res_ok (draw_map self md_vacuum) = true /\
  vacuum_position md' = Some (mkPoint 5 5 (Some 0%Q)) /\
  md' <> set_image md_vacuum (image md').
Proof.
  intros self md'.
  assert (Hpos : vacuum_position md' = Some (mkPoint 5 5 (Some 0%Q)))
    by (vm_compute; reflexivity).
  split; [reflexivity |]. split; [vm_compute; reflexivity |]. split; [exact Hpos |].
  intros E. rewrite E in Hpos. cbn in Hpos. discriminate Hpos.
Qed.


(** * Further properties of the code *)

(** ** Rotation by quarter turns *)

Lemma py_int_of_Z (q : Q) (z : Z) : (q == inject_Z z)%Q -> py_int q = z.
Proof.
  unfold Qeq, py_int. cbn. rewrite Z.mul_1_r. intros ->.
  apply Z.quot_mul. discriminate.
Qed.

Lemma rotated_at_multiple (p : Point) (d : ImageDimensions) (k : nat) :
  (rotation d == 90 * inject_Z (Z.of_nat k))%Q ->
  rotated p d
  = quarter_turns k (pt_x p) (pt_y p)
      (py_int (inject_Z (width d) * scale d))
      (py_int (inject_Z (height d) * scale d)).
Proof.
  intros H. unfold rotated.
  rewrite (py_mod_multiple (rotation d) (Z.of_nat k) H).
  now destruct (rotated_fast_quarter_turns k (rotation d) (pt_x p) (pt_y p)
                  (py_int (inject_Z (width d) * scale d))
                  (py_int (inject_Z (height d) * scale d)) H).
Qed.

(** X1: on a rotation of [k] right angles, also beyond 270, [rotated]
    makes exactly [k] quarter turns: a rotation of 360 degrees is four
    turns, not none.  The image is one whose scaled width and height are
    the integers [w] and [h], and [90 k] is at most [2^53], so that the
    products and the countdown of the loop are free of rounding. *)
Theorem rotated_quarter_turns (p : Point) (d : ImageDimensions) (k : nat) (w h : Z) :
  (rotation d == 90 * inject_Z (Z.of_nat k))%Q ->
  90 * Z.of_nat k <= 2 ^ 53 ->
  (inject_Z (width d) * scale d == inject_Z w)%Q ->
  (inject_Z (height d) * scale d == inject_Z h)%Q ->
  rotated p d = quarter_turns k (pt_x p) (pt_y p) w h.
Proof.
  intros Hrot _ Hw Hh. rewrite (rotated_at_multiple p d k Hrot).
  now rewrite (py_int_of_Z _ w Hw), (py_int_of_Z _ h Hh).
Qed.

(** X2: a rotation of zero or of a negative number of right angles is
    not applied: [rotated] returns the coordinates it was given. *)
Theorem rotated_not_positive (p : Point) (d : ImageDimensions) (k : nat) :
  (rotation d == - (90 * inject_Z (Z.of_nat k)))%Q ->
  rotated p d = Point_xy (pt_x p) (pt_y p).
Proof.
  intros H. unfold rotated.
  rewrite (py_mod_multiple (rotation d) (- Z.of_nat k)).
  - unfold rotated_fast.
    assert (E : py_gt (rotation d) 0 = false).
    { apply py_gt_false. rewrite H.
      assert (Hk : (0 <= inject_Z (Z.of_nat k))%Q).
      { change 0%Q with (inject_Z 0). rewrite <- Zle_Qle. lia. }
      lra. }
    destruct (rotated_fuel (rotation d)); cbn [rotated_loop]; now rewrite E.
  - rewrite H, inject_Z_opp. ring.
Qed.

(** ** The pixel transform *)

(** X3: [to_img] keeps the horizontal order of points and reverses
    their vertical order, whatever the offsets: with a scale that is not
    negative, a point that lies no further right than another before
    the mapping lies no further right after it, and a point that lies no
    higher lies no lower. *)
Theorem to_img_monotone (d : ImageDimensions) (p q : Point) :
  (0 <= scale d)%Q ->
  let p' := img_transformation d p in
  let q' := img_transformation d q in
  ((pt_x p' <= pt_x q')%Q -> (pt_x (to_img d p) <= pt_x (to_img d q))%Q) /\
  ((pt_y p' <= pt_y q')%Q -> (pt_y (to_img d q) <= pt_y (to_img d p))%Q).
Proof.
  intros Hs p' q'. unfold to_img. fold p' q'. cbn [pt_x pt_y Point_xy].
  split; intros H; apply Qmult_le_compat_r; try exact Hs; lra.
Qed.

(** ** Trimming *)

Lemma py_int_floor (q : Q) : (0 <= q)%Q -> 0 <= py_int q /\ (inject_Z (py_int q) <= q)%Q.
Proof.
  intros Hq. destruct q as [n d]. unfold py_int, Qle in *. cbn in *.
  assert (Hn : 0 <= n) by lia.
  rewrite Z.quot_div_nonneg by lia.
  split; [apply Z.div_pos; lia |].
  rewrite Z.mul_1_r. rewrite Z.mul_comm. apply Z.mul_div_le. lia.
Qed.

(** X5: when the trim percentages of an axis are not negative and sum to
    at most 100, the trimmed extent of a non-negative source extent lies
    between 0 and the source extent; the offsets move inward. *)
Theorem trim_keeps_dimensions_in_range (size0 top0 left0 h0 w0 : Z)
    (image_config : ImageConfig) (data0 : Image) (transformation : Point -> Point)
    (layers : option (gmap string (option Image))) :
  let t := ic_trim image_config in
  let dims := dimensions (ImageData_init size0 top0 left0 h0 w0 image_config data0
                            transformation layers) in
  (0 <= w0 -> (0 <= trim_left t)%Q -> (0 <= trim_right t)%Q ->
   (trim_left t + trim_right t <= 100)%Q ->
   0 <= width dims <= w0 /\ left0 <= left dims <= left0 + w0) /\
  (0 <= h0 -> (0 <= trim_top t)%Q -> (0 <= trim_bottom t)%Q ->
   (trim_top t + trim_bottom t <= 100)%Q ->
   0 <= height dims <= h0 /\ top0 <= top dims <= top0 + h0).
Proof.
  intros t dims.
  assert (Haxis : forall (a b : Q) (n : Z),
            0 <= n -> (0 <= a)%Q -> (0 <= b)%Q -> (a + b <= 100)%Q ->
            0 <= py_int (a * inject_Z n / 100) /\
            0 <= py_int (b * inject_Z n / 100) /\
            py_int (a * inject_Z n / 100) + py_int (b * inject_Z n / 100) <= n).
  { intros a b n Hn Ha Hb Hab.
    assert (Hn' : (0 <= inject_Z n)%Q)
      by (change 0%Q with (inject_Z 0); rewrite <- Zle_Qle; lia).
    assert (Han : (0 <= a * inject_Z n)%Q) by (apply Qmult_le_0_compat; assumption).
    assert (Hbn : (0 <= b * inject_Z n)%Q) by (apply Qmult_le_0_compat; assumption).
    assert (Ea : (a * inject_Z n / 100 == a * inject_Z n * (1 # 100))%Q) by field.
    assert (Eb : (b * inject_Z n / 100 == b * inject_Z n * (1 # 100))%Q) by field.
    destruct (py_int_floor (a * inject_Z n / 100)) as [A0 A1]; [lra |].
    destruct (py_int_floor (b * inject_Z n / 100)) as [B0 B1]; [lra |].
    split; [exact A0 |]. split; [exact B0 |].
    assert (Hsum : ((a + b) * inject_Z n <= 100 * inject_Z n)%Q).
    { apply Qmult_le_compat_r; assumption. }
    rewrite Zle_Qle, inject_Z_plus. lra. }
  subst dims. unfold ImageData_init. cbn [dimensions width height left top].
  fold t. split; intros H0 Ha Hb Hab.
  - destruct (Haxis (trim_left t) (trim_right t) w0 H0 Ha Hb Hab) as (A & B & C). lia.
  - destruct (Haxis (trim_top t) (trim_bottom t) h0 H0 Ha Hb Hab) as (A & B & C). lia.
Qed.

(** ** Additional layers and the placeholder map *)

(** X6: a layer handed to the constructor as [None] is not kept: the
    image has a layer under a name exactly when the constructor was
    given one there, and [_draw_layer] for any other name returns with
    the map as it was. *)
Theorem none_layers_are_dropped (size0 top0 left0 h0 w0 : Z)
    (image_config : ImageConfig) (data0 : Image) (transformation : Point -> Point)
    (layers : gmap string (option Image)) (name : string) (md : MapData) :
  let im := ImageData_init size0 top0 left0 h0 w0 image_config data0
              transformation (Some layers) in
  (forall layer, additional_layers im !! name = Some layer
                 <-> layers !! name = Some (Some layer)) /\
  (image md = Some im ->
   (layers !! name = None \/ layers !! name = Some None) ->
   _draw_layer md name = Ok md).
Proof.
  intros im.
  assert (Hl : additional_layers im !! name = layers !! name ≫= (fun layer => layer)).
  { subst im. unfold ImageData_init. cbn [additional_layers]. apply lookup_omap. }
  split.
  - intros layer. rewrite Hl. destruct (layers !! name) as [[l |] |]; cbn;
      split; intros H; congruence.
  - intros Him Habsent. unfold _draw_layer. rewrite Him, Hl.
    destruct Habsent as [-> | ->]; reflexivity.
Qed.

(** X7: the map that [MapDataParser.create_empty] builds carries the
    300 by 200 placeholder as the pixels of an image that is flagged
    empty and has dimensions 0 by 0; it has no calibration points and no
    other content. *)
Theorem create_empty_is_a_placeholder (self : ImageGenerator) (text : string) :
  let md := MapDataParser_create_empty self text in
  exists im,
    image md = Some im /\
    data im = create_empty_map_image self text /\
    Image_size (data im) = (300, 200) /\
    is_empty im = true /\
    (width (dimensions im), height (dimensions im)) = (0, 0) /\
    additional_layers im = ∅ /\
    calibration md = None /\
    md = set_image (MapData_init 0 0) (Some im).
Proof.
  intros md. subst md. unfold MapDataParser_create_empty.
  eexists. split; [reflexivity |].
  unfold create_empty, ImageData_init. cbn [data is_empty dimensions width height
                                             additional_layers].
  repeat split.
  unfold create_empty_map_image. destruct (textbbox text None) as [[[l t] r] b].
  reflexivity.
Qed.

(** ** Colour overrides *)

Lemma SupportedColor_value_inj (r r' : SupportedColor) :
  SupportedColor_value r = SupportedColor_value r' -> r = r'.
Proof.
  intros H. destruct r; destruct r';
    first [reflexivity | exfalso; vm_compute in H; discriminate H].
Qed.

(** X8: an override for one role decides the colour of that role and of
    no other: every other role keeps the colour it had. *)
Theorem override_is_local (rnd : Random) (colors room_colors : gmap string Color)
    (r : SupportedColor) (c : Color) :
  let p0 := ColorsPalette_init rnd (Some colors) (Some room_colors) in
  let p := ColorsPalette_init rnd
             (Some (<[SupportedColor_value r := c]> colors)) (Some room_colors) in
  get_color p (SupportedColor_value r) = c /\
  (forall r', r' <> r ->
     get_color p (SupportedColor_value r') = get_color p0 (SupportedColor_value r')).
Proof.
  intros p0 p. unfold get_color, get_color_in, dict_get. cbn [_overriden_colors p p0
    ColorsPalette_init]. split.
  - now rewrite lookup_insert_eq.
  - intros r' Hne. rewrite lookup_insert_ne; [reflexivity |].
    intros E. apply Hne. symmetry. now apply SupportedColor_value_inj.
Qed.

(** ** Room colours *)

(** X9: for a room id of 1 or more the colour is the override, else the
    built-in colour, of the id wrapped into 1..16; the built-in colour
    exists, so neither the random draw nor the black default decides
    it.  The call still advances the random source by one draw. *)
Theorem get_room_color_from_1 (p : ColorsPalette) (n : Z) :
  1 <= n ->
  let key := py_str ((n - 1) mod 16 + 1) in
  exists builtin,
    ROOM_COLORS !! key = Some builtin /\
    fst (get_room_color p (RoomInt n))
    = inr (dict_get (_overriden_room_colors p) key builtin) /\
    (forall p', _overriden_room_colors p' = _overriden_room_colors p ->
       fst (get_room_color p' (RoomInt n)) = fst (get_room_color p (RoomInt n))) /\
    snd (get_room_color p (RoomInt n))
    = mkColorsPalette (mkRandom (rnd_draws (_random p)) (S (rnd_pos (_random p))))
        (_overriden_colors p) (_overriden_room_colors p).
Proof.
  intros Hn key.
  destruct (proj2 (ROOM_COLORS_lookup ((n - 1) mod 16 + 1)) (room_id_wrap_range n))
    as [builtin Hb].
  exists builtin. split; [exact Hb |].
  assert (Hkey : forall q, get_room_color q (RoomInt n)
            = (inr (dict_get (_overriden_room_colors q) key builtin),
               mkColorsPalette
                 (mkRandom (rnd_draws (_random q)) (S (rnd_pos (_random q))))
                 (_overriden_colors q) (_overriden_room_colors q))).
  { intros q. unfold get_room_color. rewrite size_ROOM_COLORS.
    assert (Ek : (if n >? 16 then (n - 1) mod 16 + 1 else n) = (n - 1) mod 16 + 1).
    { destruct (n >? 16) eqn:E; [reflexivity |].
      rewrite Z.mod_small; lia. }
    rewrite Ek, (str_of_int_room _ (room_id_wrap_range n)).
    pose proof (randint_1_16 (_random q)) as Hr.
    destruct (randint (_random q) 1 16) as [r rnd] eqn:Er. cbn [fst] in Hr.
    rewrite (str_of_int_room r Hr). unfold randint in Er. injection Er as _ <-.
    unfold key. unfold dict_get at 2. rewrite Hb. reflexivity. }
  split; [now rewrite Hkey |]. split; [| now rewrite Hkey].
  intros p' Hp'. rewrite !Hkey. cbn [fst]. now rewrite Hp'.
Qed.

(** ** The size of the raster *)

Lemma Image_size_draw_ops (ops : list DrawOp) :
  forall im, Image_size (draw_ops ops im) = Image_size im.
Proof.
  unfold draw_ops. induction ops as [| op ops IH]; intros im; [reflexivity |].
  cbn [fold_left]. now rewrite IH.
Qed.

Lemma same_size_pixels_refl (im : ImageData) : same_size_pixels im im.
Proof. exists (data im). split; [now rewrite set_data_same | reflexivity]. Qed.

Lemma same_size_pixels_trans (im1 im2 im3 : ImageData) :
  same_size_pixels im1 im2 -> same_size_pixels im2 im3 -> same_size_pixels im1 im3.
Proof.
  intros (p & -> & Hp) (q & -> & Hq). exists q. split; [reflexivity |].
  cbn [data set_data] in Hq. congruence.
Qed.

(** A loop that completes keeps what each of its completed steps keeps. *)
Lemma for_each_invariant {S A : Type} (P : S -> Prop) (step : A -> S -> Res S) :
  (forall x s s', P s -> step x s = Ok s' -> P s') ->
  forall xs s s', P s -> for_each step xs s = Ok s' -> P s'.
Proof.
  intros Hstep xs. induction xs as [| x xs IH]; intros s s' Hs; cbn [for_each].
  - intros [= <-]. exact Hs.
  - destruct (step x s) as [s1 | e s1] eqn:E1; cbn [bind]; [| discriminate].
    apply IH. exact (Hstep x s s1 Hs E1).
Qed.

Lemma draw_layer_with_alpha_keeps (im0 im im' : ImageData) (layer : Image) :
  same_size_pixels im0 im ->
  _draw_layer_with_alpha im layer = Ok im' -> same_size_pixels im0 im'.
Proof.
  intros H0. unfold _draw_layer_with_alpha, alpha_composite.
  destruct (decide (Image_size (data im) = Image_size layer)); [| discriminate].
  intros [= <-]. apply (same_size_pixels_trans _ _ _ H0).
  eexists. split; reflexivity.
Qed.

(** The compositor with a callable that issues draw calls: when it
    returns, the raster has the size it had. *)
Lemma draw_on_new_layer_keeps (im0 im im' : ImageData) (ops : list DrawOp)
    (s : Q) (t : bool) :
  same_size_pixels im0 im ->
  _draw_on_new_layer im (draw_ops ops) s t = Ok im' -> same_size_pixels im0 im'.
Proof.
  intros H0. unfold _draw_on_new_layer.
  destruct (py_eq s 1 && negb t).
  - intros [= <-]. apply (same_size_pixels_trans _ _ _ H0).
    eexists. split; [reflexivity | apply Image_size_draw_ops].
  - apply draw_layer_with_alpha_keeps, H0.
Qed.

Lemma draw_text_keeps (im0 im im' : ImageData) (text : string) (x y : Q) (color : Color)
    (file : option string) (size : option Z) :
  same_size_pixels im0 im ->
  _draw_text im text x y color file size = Ok im' -> same_size_pixels im0 im'.
Proof.
  intros H0. unfold _draw_text. destruct (textbbox text _) as [[[l t] r] b].
  apply draw_on_new_layer_keeps, H0.
Qed.

Lemma draw_areas_keeps (im0 im im' : ImageData) (areas : list Area)
    (fill outline : Color) :
  same_size_pixels im0 im ->
  _draw_areas im areas fill outline = Ok im' -> same_size_pixels im0 im'.
Proof.
  intros H0. unfold _draw_areas. destruct (Z.of_nat (length areas) =? 0).
  - now intros [= <-].
  - apply for_each_invariant; [| exact H0].
    intros area s s' Hs. apply draw_on_new_layer_keeps, Hs.
Qed.

Lemma draw_all_obstacles_keeps (im0 im im' : ImageData) (obs : list Obstacle)
    (r : Q) (c : Color) :
  same_size_pixels im0 im ->
  _draw_all_obstacles im obs r c = Ok im' -> same_size_pixels im0 im'.
Proof.
  intros H0. unfold _draw_all_obstacles.
  apply for_each_invariant; [| exact H0].
  intros ob s s' Hs. unfold _draw_circle. apply draw_on_new_layer_keeps, Hs.
Qed.

Lemma draw_path_keeps (self : ImageGenerator) (im0 im im' : ImageData) (path0 : Path)
    (w : Q) (c : Color) :
  same_size_pixels im0 im ->
  _draw_path self im path0 w c = Ok im' -> same_size_pixels im0 im'.
Proof.
  intros H0. unfold _draw_path. destruct (Z.of_nat (length (path_path path0)) <? 1).
  - now intros [= <-].
  - apply draw_on_new_layer_keeps, H0.
Qed.

Lemma draw_texts_keeps (im0 im im' : ImageData) (texts : list Text) :
  same_size_pixels im0 im ->
  _draw_texts im texts = Ok im' -> same_size_pixels im0 im'.
Proof.
  intros H0. unfold _draw_texts.
  apply for_each_invariant; [| exact H0].
  intros t s s' Hs. apply draw_text_keeps, Hs.
Qed.

Lemma image_set_image (md : MapData) (o : option ImageData) :
  image (set_image md o) = o.
Proof. destruct md; reflexivity. Qed.

Lemma on_image_keeps (md md' : MapData) (im0 : ImageData) (r : Res ImageData) :
  (forall im', r = Ok im' -> same_size_pixels im0 im') ->
  on_image md r = Ok md' -> image_kept im0 md'.
Proof.
  intros H. destruct r as [im' | e im']; cbn [on_image]; [| discriminate].
  intros [= <-]. exists im'. split; [apply image_set_image | now apply H].
Qed.

(** A renderer that returns leaves an image whose raster has the size it
    had: a layer of another size makes the layer renderer raise. *)
Lemma renderer_keeps (self : ImageGenerator) (d : Drawable) (im0 : ImageData)
    (md md' : MapData) :
  image_kept im0 md ->
  renderer d self md = Ok md' -> image_kept im0 md'.
Proof.
  intros (im & Him & Hkept).
  assert (Hsame : Ok md = Ok md' -> image_kept im0 md').
  { intros [= <-]. exists im. now split. }
  destruct d; cbn [renderer];
    unfold _draw_charger, _draw_layer, _draw_goto_path, _draw_ignored_obstacles,
      _draw_ignored_obstacles_with_photo, _draw_mop_path, _draw_no_carpet_areas,
      _draw_no_go_areas, _draw_no_mopping_areas, _draw_obstacles,
      _draw_obstacles_with_photo, _draw_vacuum_path, _draw_predicted_path,
      _draw_room_names, _draw_vacuum_position, _draw_walls, _draw_zones;
    rewrite Him.
  - (* charger *)
    destruct (charger md); [| exact Hsame].
    apply on_image_keeps. intros im'. unfold _draw_pieslice.
    apply draw_on_new_layer_keeps, Hkept.
  - (* cleaned area *)
    destruct (additional_layers im !! Drawable_value D_CLEANED_AREA) as [layer |];
      [| exact Hsame].
    apply on_image_keeps. intros im'. apply draw_layer_with_alpha_keeps, Hkept.
  - destruct (goto_path md); [| exact Hsame].
    apply on_image_keeps. intros im'. apply draw_path_keeps, Hkept.
  - destruct (ignored_obstacles md); [| exact Hsame].
    apply on_image_keeps. intros im'. apply draw_all_obstacles_keeps, Hkept.
  - destruct (ignored_obstacles_with_photo md); [| exact Hsame].
    apply on_image_keeps. intros im'. apply draw_all_obstacles_keeps, Hkept.
  - destruct (mop_path md); [| exact Hsame].
    apply on_image_keeps. intros im'. apply draw_path_keeps, Hkept.
  - destruct (no_carpet_areas md); [| exact Hsame].
    apply on_image_keeps. intros im'. apply draw_areas_keeps, Hkept.
  - destruct (no_go_areas md); [| exact Hsame].
    apply on_image_keeps. intros im'. apply draw_areas_keeps, Hkept.
  - destruct (no_mopping_areas md); [| exact Hsame].
    apply on_image_keeps. intros im'. apply draw_areas_keeps, Hkept.
  - destruct (obstacles md); [| exact Hsame].
    apply on_image_keeps. intros im'. apply draw_all_obstacles_keeps, Hkept.
  - destruct (obstacles_with_photo md); [| exact Hsame].
    apply on_image_keeps. intros im'. apply draw_all_obstacles_keeps, Hkept.
  - destruct (path md); [| exact Hsame].
    apply on_image_keeps. intros im'. apply draw_path_keeps, Hkept.
  - destruct (predicted_path md); [| exact Hsame].
    apply on_image_keeps. intros im'. apply draw_path_keeps, Hkept.
  - (* room names *)
    destruct (rooms md); [| exact Hsame].
    apply on_image_keeps. intros im'.
    apply for_each_invariant; [| exact Hkept].
    intros [key room] s s' Hs. cbn [snd].
    destruct (Room_point room), (room_name room);
      try (intros [= <-]; exact Hs).
    apply draw_text_keeps, Hs.
  - (* vacuum position *)
    destruct (vacuum_position md) as [p |]; [| exact Hsame].
    unfold _draw_vacuum.
    destruct (_draw_vacuum_ops (dimensions im) p _ _ _) as [ops p'].
    destruct (_draw_on_new_layer im (draw_ops ops) 1 _) as [im1 | e im1] eqn:E;
      [| discriminate].
    intros [= <-]. exists im1. split; [apply image_set_image |].
    exact (draw_on_new_layer_keeps im0 im im1 ops _ _ Hkept E).
  - destruct (walls md); [| exact Hsame].
    apply on_image_keeps. intros im'. apply draw_on_new_layer_keeps, Hkept.
  - destruct (zones md); [| exact Hsame].
    apply on_image_keeps. intros im'. apply draw_areas_keeps, Hkept.
Qed.

Lemma draw_drawable_keeps (self : ImageGenerator) (name : string) (im0 : ImageData)
    (md md' : MapData) :
  image_kept im0 md ->
  draw_drawable self name md = Ok md' -> image_kept im0 md'.
Proof.
  intros Hkept. unfold draw_drawable.
  repeat match goal with
         | |- context [String.eqb name (Drawable_value ?d)] =>
             destruct (String.eqb_spec name (Drawable_value d)) as [-> | _];
             [first [ apply (renderer_keeps self D_CHARGER im0 md md' Hkept)
                    | apply (renderer_keeps self D_VACUUM_POSITION im0 md md' Hkept)
                    | apply (renderer_keeps self D_OBSTACLES im0 md md' Hkept)
                    | apply (renderer_keeps self D_IGNORED_OBSTACLES im0 md md' Hkept)
                    | apply (renderer_keeps self D_OBSTACLES_WITH_PHOTO im0 md md' Hkept)
                    | apply (renderer_keeps self D_IGNORED_OBSTACLES_WITH_PHOTO im0 md md'
                               Hkept)
                    | apply (renderer_keeps self D_MOP_PATH im0 md md' Hkept)
                    | apply (renderer_keeps self D_PATH im0 md md' Hkept)
                    | apply (renderer_keeps self D_GOTO_PATH im0 md md' Hkept)
                    | apply (renderer_keeps self D_PREDICTED_PATH im0 md md' Hkept)
                    | apply (renderer_keeps self D_NO_CARPET_AREAS im0 md md' Hkept)
                    | apply (renderer_keeps self D_NO_GO_AREAS im0 md md' Hkept)
                    | apply (renderer_keeps self D_NO_MOPPING_AREAS im0 md md' Hkept)
                    | apply (renderer_keeps self D_VIRTUAL_WALLS im0 md md' Hkept)
                    | apply (renderer_keeps self D_ZONES im0 md md' Hkept)
                    | apply (renderer_keeps self D_CLEANED_AREA im0 md md' Hkept)
                    | apply (renderer_keeps self D_ROOM_NAMES im0 md md' Hkept) ] |]
         end.
  intros [= <-]. exact Hkept.
Qed.

Lemma rotate_gives_size (self : ImageGenerator) (im : ImageData) :
  Image_size (data (_rotate self im))
  = size_after_rotate (rotation (dimensions im)) (Image_size (data im)) /\
  pixels_only im (_rotate self im).
Proof.
  split; [| apply rotate_pixels].
  unfold _rotate, size_after_rotate.
  repeat match goal with |- context [py_eq ?a ?b] => destruct (py_eq a b) end;
    reflexivity.
Qed.

(** X11: whenever [draw_map] returns normally, the raster it leaves has
    the size of the source raster after the final rotation (width and
    height swapped at 90 and 270 degrees), whatever was drawn, and the
    image keeps its dimensions, its layers and its empty flag. *)
Theorem draw_map_keeps_raster_size (self : ImageGenerator) (md md' : MapData)
    (im : ImageData) :
  image md = Some im ->
  draw_map self md = Ok md' ->
  exists pixels,
    image md' = Some (set_data im pixels) /\
    Image_size pixels
    = size_after_rotate (rotation (dimensions im)) (Image_size (data im)).
Proof.
  intros Him. unfold draw_map. rewrite Him.
  destruct (for_each (draw_drawable self) (_drawables self) md) as [md1 | e md1] eqn:E1;
    cbn [bind]; [| discriminate].
  assert (H1 : image_kept im md1).
  { apply (for_each_invariant (image_kept im) (draw_drawable self)) with (3 := E1).
    - intros name s s' Hs. apply draw_drawable_keeps, Hs.
    - exists im. split; [exact Him | apply same_size_pixels_refl]. }
  destruct H1 as (im1 & Him1 & (p1 & -> & Hs1)).
  assert (Hrot : with_image md1 (fun image => Ok (_rotate self image))
                 = Ok (set_image md1 (Some (_rotate self (set_data im p1))))).
  { unfold with_image. now rewrite Him1. }
  rewrite Hrot. cbn [bind]. unfold with_image. rewrite image_set_image.
  destruct (rotate_gives_size self (set_data im p1)) as [Hsize [p2 Hp2]].
  rewrite Hp2 in *. cbn [data set_data dimensions] in Hsize.
  destruct (_draw_texts (set_data (set_data im p1) p2) (_texts self))
    as [im3 | e im3] eqn:E3; cbn [on_image]; [| discriminate].
  intros [= <-].
  destruct (draw_texts_keeps _ _ _ _ (same_size_pixels_refl _) E3) as (p3 & -> & Hs3).
  exists p3. split; [rewrite image_set_image; destruct im; reflexivity |].
  cbn [data set_data] in Hs3. rewrite Hs3, Hsize, Hs1.
  destruct im; reflexivity.
Qed.

(** ** A layer of the wrong size *)

(** X12: when the cleaned-area layer has another size than the image,
    drawing it raises the library's [ValueError] and leaves the map as it
    was; a [draw_map] whose first drawable it is stops there, before any
    rotation or text. *)
Theorem draw_layer_size_mismatch (self : ImageGenerator) (md : MapData)
    (im : ImageData) (layer : Image) (rest : list string) :
  image md = Some im ->
  additional_layers im !! Drawable_value D_CLEANED_AREA = Some layer ->
  Image_size (data im) <> Image_size layer ->
  _drawables self = Drawable_value D_CLEANED_AREA :: rest ->
  _draw_layer md (Drawable_value D_CLEANED_AREA)
  = Raised (ValueError "images do not match") md /\
  draw_map self md = Raised (ValueError "images do not match") md.
Proof.
  intros Him Hl Hne Hd.
  assert (E : _draw_layer md (Drawable_value D_CLEANED_AREA)
              = Raised (ValueError "images do not match") md).
  { unfold _draw_layer. rewrite Him, Hl.
    unfold _draw_layer_with_alpha, alpha_composite.
    destruct (decide (Image_size (data im) = Image_size layer)) as [Heq | _];
      [contradiction |].
    cbn [on_image]. now rewrite set_image_same. }
  split; [exact E |].
  unfold draw_map. rewrite Him, Hd. cbn [for_each].
  change (draw_drawable self (Drawable_value D_CLEANED_AREA) md)
    with (_draw_layer md (Drawable_value D_CLEANED_AREA)).
  rewrite E. reflexivity.
Qed.

(** ** Unknown drawables *)

Lemma for_each_unknown (self : ImageGenerator) (names : list string) (md : MapData) :
  (forall name, In name names -> forall d, name <> Drawable_value d) ->
  for_each (draw_drawable self) names md = Ok md.
Proof.
  induction names as [| name names IH]; intros H; cbn [for_each]; [reflexivity |].
  rewrite draw_drawable_unknown by (apply H; now left).
  cbn [bind]. apply IH. intros n Hn. apply H. now right.
Qed.

(** X13: names in the list of drawables that are the value of no
    drawable kind are skipped without an error: [draw_map] does what it
    does for an empty list, the final rotation and the texts. *)
Theorem draw_map_skips_unknown (self : ImageGenerator) (md : MapData) :
  (forall name, In name (_drawables self) -> forall d, name <> Drawable_value d) ->
  draw_map self md = draw_map (with_drawables self []) md.
Proof.
  intros H. unfold draw_map. destruct (image md); [| reflexivity].
  rewrite (for_each_unknown self (_drawables self) md H). reflexivity.
Qed.

(** ** Paint order of areas *)

Lemma draw_areas_loop (fill outline : Color) (t : bool) (areas : list Area) :
  forall im,
    for_each
      (fun area image =>
         _draw_on_new_layer image
           (draw_ops [Draw_polygon (Area_as_list (Area_to_img area (dimensions image)))
                        fill outline])
           1 t)
      areas im
    = Ok (set_data im
            (if t
             then fold_left
                    (fun pixels area =>
                       composite_one (area_polygon (dimensions im) fill outline area) pixels)
                    areas (data im)
             else draw_ops (List.map (area_polygon (dimensions im) fill outline) areas)
                    (data im))).
Proof.
  induction areas as [| area areas IH]; intros im; cbn [for_each].
  - destruct t; cbn [fold_left List.map draw_ops]; now rewrite set_data_same.
  - unfold _draw_on_new_layer at 1. change (py_eq 1 1) with true.
    destruct t; cbn [andb negb].
    + rewrite !py_int_mul_1, <- surjective_pairing.
      unfold _draw_layer_with_alpha, alpha_composite. cbn [draw_ops fold_left Image_size].
      destruct (decide (Image_size (data im) = Image_size (data im))) as [_ | Hne];
        [| contradiction].
      cbn [bind]. rewrite IH. destruct im; reflexivity.
    + cbn [bind]. rewrite IH. destruct im; reflexivity.
Qed.

(** X14: [_draw_areas] paints the areas in list order, one polygon each.
    With opaque colours the polygons are drawn on the image itself; with
    a colour that has an alpha channel each polygon is drawn on a
    transparent layer of its own, composited before the next one. *)
Theorem draw_areas_in_order (im : ImageData) (areas : list Area) (fill outline : Color) :
  _draw_areas im areas fill outline
  = Ok (set_data im
          (if _use_transparency [outline; fill]
           then fold_left
                  (fun pixels area =>
                     composite_one (area_polygon (dimensions im) fill outline area) pixels)
                  areas (data im)
           else draw_ops (List.map (area_polygon (dimensions im) fill outline) areas)
                  (data im))).
Proof.
  unfold _draw_areas. destruct areas as [| area areas].
  - change (Z.of_nat (length (@nil Area)) =? 0) with true. cbv iota.
    destruct (_use_transparency [outline; fill]);
      cbn [fold_left List.map draw_ops]; now rewrite set_data_same.
  - replace (Z.of_nat (length (area :: areas)) =? 0) with false
      by (symmetry; apply Z.eqb_neq; cbn [length]; lia).
    apply draw_areas_loop.
Qed.

(** ** The vacuum icon *)

(** X15: a vacuum position without heading is drawn exactly as the same
    position heading 0, and that heading is what the model holds
    afterwards; the icon is made of five primitives when the radius is
    at least 8 and of four (no secondary ring) below. *)
Theorem draw_vacuum_default_heading (im : ImageData) (p : Point) (r : Q)
    (outline fill : Color) :
  pt_a p = None ->
  let p0 := mkPoint (pt_x p) (pt_y p) (Some 0%Q) in
  _draw_vacuum im p r outline fill = _draw_vacuum im p0 r outline fill /\
  snd (_draw_vacuum_ops (dimensions im) p r outline fill) = p0 /\
  length (fst (_draw_vacuum_ops (dimensions im) p r outline fill))
  = (if py_ge r 8 then 5 else 4)%nat.
Proof.
  intros Ha p0. destruct p as [x y a]. cbn in Ha. subst a. subst p0.
  cbn [pt_x pt_y]. split; [reflexivity |]. split; [reflexivity |].
  unfold _draw_vacuum_ops. cbn [fst pt_a]. destruct (py_ge r 8); reflexivity.
Qed.

(** ** Polylines of a path *)

Lemma filter_flat_map {A B : Type} (f : B -> bool) (g : A -> list B) (l : list A) :
  List.filter f (flat_map g l) = flat_map (fun a => List.filter f (g a)) l.
Proof.
  induction l as [| a l IH]; [reflexivity |].
  cbn [flat_map]. now rewrite List.filter_app, IH.
Qed.

Lemma polyline_lines (dims : ImageDimensions) (scale path_width : Q) (color : Color)
    (current_path : list Point) :
  List.filter is_line (_draw_path_polyline dims scale path_width color current_path)
  = polyline_segments dims scale path_width color current_path.
Proof.
  unfold polyline_segments. destruct current_path as [| p0 [| p1 rest]];
    [reflexivity | reflexivity |].
  unfold _draw_path_polyline.
  replace (Z.of_nat (length (p0 :: p1 :: rest)) >? 1) with true
    by (symmetry; apply Z.gtb_lt; cbn [length]; lia).
  fold (on_layer dims scale p0). cbn [List.map]. apply segments_lines.
Qed.

Lemma segments_length (width_px : Z) (color : Color) (es : list Point) :
  forall s, length (segments width_px color s es) = length es.
Proof.
  induction es as [| e es IH]; intros s; [reflexivity |].
  cbn [segments length]. now rewrite IH.
Qed.

Lemma polylines_lines (dims : ImageDimensions) (scale path_width : Q) (color : Color)
    (polylines : list (list Point)) :
  flat_map
    (fun current_path =>
       List.filter is_line (_draw_path_polyline dims scale path_width color current_path))
    polylines
  = flat_map (polyline_segments dims scale path_width color) polylines.
Proof.
  induction polylines as [| pl pls IH]; [reflexivity |].
  cbn [flat_map]. now rewrite polyline_lines, IH.
Qed.

Lemma polyline_segments_length (dims : ImageDimensions) (scale path_width : Q)
    (color : Color) (current_path : list Point) :
  length (polyline_segments dims scale path_width color current_path)
  = pred (length current_path).
Proof.
  unfold polyline_segments. destruct current_path as [| p0 rest]; [reflexivity |].
  cbn [List.map length pred]. now rewrite segments_length, length_map.
Qed.

(** X16: the polylines of a path are drawn apart: the lines of a path
    are the segments of its first polyline, then those of the second, and
    so on, each polyline of [n] points giving [n - 1] segments (none for
    [n = 0]); no line joins one polyline to the next. *)
Theorem draw_path_polylines_apart (dims : ImageDimensions) (scale path_width : Q)
    (color : Color) (path0 : Path) :
  List.filter is_line (_draw_path_ops dims scale path_width color path0)
  = flat_map (polyline_segments dims scale path_width color) (path_path path0) /\
  length (List.filter is_line (_draw_path_ops dims scale path_width color path0))
  = list_sum (List.map (fun current_path => pred (length current_path))
                (path_path path0)).
Proof.
  assert (H : List.filter is_line (_draw_path_ops dims scale path_width color path0)
              = flat_map (polyline_segments dims scale path_width color)
                  (path_path path0)).
  { unfold _draw_path_ops. rewrite filter_flat_map. apply polylines_lines. }
  split; [exact H |]. rewrite H. clear H.
  induction (path_path path0) as [| pl pls IH]; [reflexivity |].
  cbn [flat_map List.map list_sum]. rewrite length_app, IH.
  now rewrite polyline_segments_length.
Qed.

(** ** Default sizes *)

Lemma polyline_no_caps (dims : ImageDimensions) (scale path_width : Q) (color : Color)
    (current_path : list Point) :
  py_gt path_width 4 = false ->
  List.filter is_pieslice
    (_draw_path_polyline dims scale path_width color current_path) = [].
Proof.
  intros Hw. destruct current_path as [| p0 rest]; [reflexivity |].
  unfold _draw_path_polyline.
  destruct (Z.of_nat (length (p0 :: rest)) >? 1); [| reflexivity].
  now apply segments_no_caps.
Qed.

(** X17: with no size overrides both path widths resolve to 1 (the mop
    path width has no built-in size and falls to the default), so the
    path renderers draw no end caps. *)
Theorem default_sizes_draw_no_caps (self : ImageGenerator) (dims : ImageDimensions)
    (scale : Q) (color : Color) (path0 : Path) (width : Size) :
  _overriden_sizes (_sizes self) = ∅ ->
  width = PATH_WIDTH \/ width = MOP_PATH_WIDTH ->
  _get_size self width = 1%Q /\
  SIZES !! Size_value MOP_PATH_WIDTH = None /\
  List.filter is_pieslice
    (_draw_path_ops dims scale (_get_size self width) color path0) = [].
Proof.
  intros He Hw.
  assert (Hsize : _get_size self width = 1%Q).
  { unfold _get_size, get_size, dict_get. rewrite He, lookup_empty.
    destruct Hw as [-> | ->]; vm_compute; reflexivity. }
  split; [exact Hsize |]. split; [vm_compute; reflexivity |].
  rewrite Hsize. unfold _draw_path_ops. rewrite filter_flat_map.
  induction (path_path path0) as [| pl pls IH]; [reflexivity |].
  cbn [flat_map]. rewrite polyline_no_caps by reflexivity. exact IH.
Qed.

(** ** Dictionaries *)

Lemma points_None_free (polylines : list (list Point)) :
  forallb None_free
    (List.map
       (fun subpath => PyList (List.map (fun p => PyDict (Point_as_dict p)) subpath))
       polylines) = true.
Proof.
  induction polylines as [| pl pls IH]; [reflexivity |].
  cbn [List.map forallb]. rewrite IH, andb_true_r.
  cbn [None_free]. induction pl as [| p pl IHp]; [reflexivity |].
  cbn [List.map forallb]. rewrite IHp, andb_true_r.
  destruct p as [x y [a |]]; reflexivity.
Qed.

Lemma points_asdict_None (polylines : list (list Point)) (p : Point) :
  pt_a p = None ->
  In p (concat polylines) ->
  forallb None_free
    (List.map
       (fun subpath => PyList (List.map (fun p => PyDict (asdict_Point p)) subpath))
       polylines) = false.
Proof.
  intros Ha. induction polylines as [| pl pls IH]; [intros [] |].
  cbn [concat]. rewrite in_app_iff. intros [Hin | Hin].
  - cbn [List.map forallb]. apply andb_false_intro1. cbn [None_free].
    induction pl as [| q pl IHp]; [destruct Hin |].
    cbn [List.map forallb]. destruct Hin as [-> | Hin].
    + apply andb_false_intro1. destruct p as [x y a]. cbn in Ha. subst a. reflexivity.
    + apply andb_false_intro2. now apply IHp.
  - cbn [List.map forallb]. apply andb_false_intro2. now apply IH.
Qed.

(** X18: no [as_dict] of this module reports a [None], at any depth: not
    that of a point, of an obstacle, of a path or of an image.  For a
    path this is the work of its override: the base-class dict alone
    carries [a: None] for every point without angle. *)
Theorem as_dict_None_free (p : Point) (o : Obstacle) (path0 : Path) (im : ImageData) :
  None_free (PyDict (Point_as_dict p)) = true /\
  None_free (PyDict (Obstacle_as_dict o)) = true /\
  None_free (PyDict (Path_as_dict path0)) = true /\
  None_free (PyDict (ImageData_as_dict im)) = true /\
  (forall q, pt_a q = None -> In q (concat (path_path path0)) ->
             None_free (PyDict (OutputObject_as_dict (asdict_Path path0))) = false).
Proof.
  split; [destruct p as [x y [a |]]; reflexivity |].
  split; [destruct o as [[x y [a |]] [[t |] [d |] [c |] [n |]]]; reflexivity |].
  split.
  { destruct path0 as [[l |] [s |] [a |] pp];
      cbn -[None_free Point_as_dict]; cbn [None_free forallb];
      now rewrite points_None_free. }
  split; [reflexivity |].
  intros q Ha Hin.
  destruct path0 as [[l |] [s |] [a |] pp]; cbn [path_path] in Hin;
    cbn -[None_free asdict_Point]; cbn [None_free forallb];
    now rewrite (points_asdict_None pp q Ha Hin).
Qed.

(** X19: the dict of an obstacle holds its coordinates under [x] and
    [y] whatever its details are (no detail is stored under a key of the
    point), its angle only when set, and exactly the details that are
    set. *)
Theorem obstacle_as_dict_fields (o : Obstacle) :
  let d := Obstacle_as_dict o in
  dict_lookup d "x" = Some (PyFloat (pt_x (ob_point o))) /\
  dict_lookup d "y" = Some (PyFloat (pt_y (ob_point o))) /\
  dict_lookup d "a" = option_map PyFloat (pt_a (ob_point o)) /\
  dict_lookup d "type" = option_map PyInt (od_type (ob_details o)) /\
  dict_lookup d "description" = option_map PyStr (od_description (ob_details o)) /\
  dict_lookup d "confidence_level"
  = option_map PyFloat (od_confidence_level (ob_details o)) /\
  dict_lookup d "photo_name" = option_map PyStr (od_photo_name (ob_details o)) /\
  length d = (2 + count_set (pt_a (ob_point o)) + details_set (ob_details o))%nat.
Proof.
  destruct o as [[x y [a |]] [[t |] [ds |] [c |] [n |]]]; cbv zeta;
    repeat split; reflexivity.
Qed.

(** ** Texts *)


(** ** What [draw_map] writes when the heading is known *)

(** X21: on a map whose vacuum position, if any, carries an angle,
    [draw_map] writes nothing but the pixel buffer of the image, whether
    it returns or raises: every other attribute of the map and of the
    image is as it was. *)
Theorem draw_map_only_pixels_when_heading_known (self : ImageGenerator)
    (md : MapData) (im : ImageData) :
  image md = Some im ->
  (forall p, vacuum_position md = Some p -> pt_a p <> None) ->
  exists pixels,
    Res_state (draw_map self md) = set_image md (Some (set_data im pixels)).
Proof.
  intros Him Hpos. destruct (draw_map_writes self md) as (E & Hi & Hp).
  set (md' := Res_state (draw_map self md)) in *.
  rewrite Him in Hi. unfold image_pixels_only in Hi.
  destruct (image md') as [im' |] eqn:Him'; [| contradiction].
  destruct Hi as [pixels ->]. exists pixels.
  assert (Hv : vacuum_position md' = vacuum_position md).
  { unfold position_angle_defaulted in Hp.
    destruct (vacuum_position md) as [p |] eqn:Ep;
      destruct (vacuum_position md') as [p' |]; try contradiction; [| reflexivity].
    destruct Hp as [-> | [Ha _]]; [reflexivity |].
    exfalso. exact (Hpos p eq_refl Ha). }
  rewrite E, Hv. destruct md; reflexivity.
Qed.

(** ** Room ids below the table *)

(** X22: an integer room id below 1 is never wrapped.  Down to 4300
    digits it never fails: it is answered by its own override if there
    is one, and otherwise by the built-in colour of the room number
    between 1 and 16 that the random source of the palette draws.  With
    more digits [str(room_id)] raises its [ValueError], before any
    random number is drawn. *)
Theorem get_room_color_below_table (p : ColorsPalette) (n : Z) :
  n < 1 ->
  let r := fst (randint (_random p) 1 16) in
  (- 10 ^ int_max_str_digits < n ->
   1 <= r <= 16 /\
   exists c, ROOM_COLORS !! py_str r = Some c /\
             fst (get_room_color p (RoomInt n))
             = inr (dict_get (_overriden_room_colors p) (py_str n) c)) /\
  (n <= - 10 ^ int_max_str_digits ->
   get_room_color p (RoomInt n) = (inl exceeds_limit, p)).
Proof.
  intros Hn r.
  assert (Hr : 1 <= r <= 16) by apply randint_1_16.
  assert (Hnowrap : forall q, get_room_color q (RoomInt n)
            = match str_of_int n with
              | inl e => (inl e, q)
              | inr key =>
                  let '(r, rnd) := randint (_random q) 1 16 in
                  let self' :=
                    mkColorsPalette rnd (_overriden_colors q) (_overriden_room_colors q) in
                  match str_of_int r with
                  | inl e => (inl e, self')
                  | inr random_key =>
                      (inr (dict_get (_overriden_room_colors q) key
                              (dict_get ROOM_COLORS key
                                 (dict_get ROOM_COLORS random_key (RGB 0 0 0)))),
                       self')
                  end
              end).
  { intros q. unfold get_room_color. rewrite size_ROOM_COLORS.
    destruct (n >? 16) eqn:E; [lia | reflexivity]. }
  split.
  - intros Hlow. split; [exact Hr |].
    destruct (proj2 (ROOM_COLORS_lookup r) Hr) as [c Hc]. exists c. split; [exact Hc |].
    rewrite Hnowrap, str_of_int_within by (pose proof limit_above_16; lia).
    destruct (randint (_random p) 1 16) as [r' rnd'] eqn:Er. cbn [fst snd] in *.
    subst r. rewrite (str_of_int_room r' Hr). cbn [fst].
    unfold dict_get at 2 3. rewrite Hc.
    destruct (ROOM_COLORS !! py_str n) as [c' |] eqn:Hn'; [| reflexivity].
    assert (1 <= n <= 16) by (apply ROOM_COLORS_lookup; eauto). lia.
  - intros Hbig. rewrite Hnowrap, str_of_int_beyond by lia. reflexivity.
Qed.
End Model.

Lemma to_img_axis_flip_witness :
  (pt_y (to_img dims_10 (Point_xy 3 4)) == inject_Z 10 - 4 - 1)%Q /\
  (pt_x (to_img dims_10 (Point_xy 3 4)) == 3)%Q.
Proof.
  apply (to_img_axis_flip (Point_xy 3 4) dims_10);
    [reflexivity | reflexivity | reflexivity | intros q; reflexivity].
Defined.

(** CPython's cosine and sine of a quarter turn are within
    [trig_accuracy] of 0 and 1. *)
Lemma trig_cpython_accurate_90 :
  (Rabs (Q2R (cos_cpython (radians_cpython 90)) - Rtrigo_def.cos (Q2R 90 * PI / 180))
   <= Q2R trig_accuracy)%R /\
  (Rabs (Q2R (sin_cpython (radians_cpython 90)) - Rtrigo_def.sin (Q2R 90 * PI / 180))
   <= Q2R trig_accuracy)%R.
Proof.
  replace (Q2R 90) with 90%R by (unfold Q2R; cbn; field).
  rewrite (proj1 cos_sin_deg_90), (proj2 cos_sin_deg_90).
  change (cos_cpython (radians_cpython 90))
    with (4967757600021511 # 81129638414606681695789005144064)%Q.
  change (sin_cpython (radians_cpython 90)) with 1%Q.
  assert (H0 : (0 <= Q2R (4967757600021511 # 81129638414606681695789005144064))%R).
  { rewrite <- RMicromega.Q2R_0. apply Qle_Rle. discriminate. }
  assert (H1 : (Q2R (4967757600021511 # 81129638414606681695789005144064)
                <= Q2R trig_accuracy)%R).
  { apply Qle_Rle. unfold trig_accuracy. vm_compute. discriminate. }
  assert (H2 : (0 <= Q2R trig_accuracy)%R).
  { rewrite <- RMicromega.Q2R_0. apply Qle_Rle. discriminate. }
  assert (H3 : Q2R 1 = 1%R) by (unfold Q2R; cbn; field).
  split.
  - rewrite Rminus_0_r, Rabs_pos_eq by exact H0. exact H1.
  - rewrite H3, Rminus_diag, Rabs_R0. exact H2.
Qed.

Lemma rotated_fast_agrees_with_general_witness :
  rotated cos_cpython sin_cpython radians_cpython (Point_xy 3 4) dims_quarter
  = Point_xy 4 (inject_Z 10 - 3)%Q /\
  (Qabs (pt_x (rotated cos_cpython sin_cpython radians_cpython (Point_xy 3 4) dims_quarter)
         - pt_x (rotated_general cos_cpython sin_cpython (radians_cpython 90) 3 4 10 20))
   <= 1 / 1000000)%Q.
Proof.
  destruct (rotated_fast_agrees_with_general cos_cpython sin_cpython radians_cpython
              (Point_xy 3 4) dims_quarter) as (H1 & _ & _ & H2 & _).
  - left. reflexivity.
  - cbn. lia.
  - cbn. lia.
  - cbn. discriminate.
  - exact (proj1 trig_cpython_accurate_90).
  - exact (proj2 trig_cpython_accurate_90).
  - vm_compute. discriminate.
  - vm_compute. discriminate.
  - vm_compute. discriminate.
  - vm_compute. discriminate.
  - split; [exact H1 | exact H2].
Defined.

(** C2 as stated fails for a point far outside any raster: CPython's
    cosine of a quarter turn is 6.1e-17, not 0, so at x = 1e11 on a 10
    by 20 image the general path is off by 6.1e-6. *)
Lemma rotated_tolerance_counterexample :
  ~ (forall (p : Point) (d : ImageDimensions),
       (rotation d == 90 \/ rotation d == 180 \/ rotation d == 270)%Q ->
       0 <= width d -> 0 <= height d -> (0 <= scale d)%Q ->
       (Qabs (pt_x (rotated cos_cpython sin_cpython radians_cpython p d)
              - pt_x (rotated_general cos_cpython sin_cpython
                        (radians_cpython (rotation d)) (pt_x p) (pt_y p)
                        (py_int (inject_Z (width d) * scale d))
                        (py_int (inject_Z (height d) * scale d))))
        <= 1 / 1000000)%Q).
Proof.
  intros H.
  specialize (H (Point_xy 100000000000 0) dims_quarter (or_introl (Qeq_refl _))
                ltac:(cbn; lia) ltac:(cbn; lia) ltac:(cbn; discriminate)).
  vm_compute in H. exact (H eq_refl).
Qed.

Lemma calibration_points_witness :
  exists pts,
    calibration cos_quarter sin_quarter radians_deg md_calibrated = Some pts /\
    Forall2 xy_eq (List.map cp_vacuum pts) [ (0, 0); (10, 0); (0, 10) ]%Q.
Proof.
  eexists. split; [reflexivity |].
  apply (proj2 (proj2 (calibration_points cos_quarter sin_quarter radians_deg
                         md_calibrated)) _ eq_refl); reflexivity.
Defined.

Lemma is_empty_ignores_trim_witness :
  exists pts,
    calibration cos_quarter sin_quarter radians_deg md_calibrated = Some pts /\
    length pts = 3%nat.
Proof.
  apply (proj1 (proj2 (is_empty_ignores_trim cos_quarter sin_quarter radians_deg
                         0 0 0 20 10 ImageConfig_default (Raster "map" (10, 20))
                         (fun p => p) None)) md_calibrated);
    [reflexivity | lia | lia].
Defined.

Lemma get_room_color_wraps_above_16_witness :
  get_room_color palette_default (RoomInt 33)
  = get_room_color palette_default (RoomInt ((33 - 1) mod 16 + 1)).
Proof.
  apply (proj1 (get_room_color_wraps_above_16 palette_default) 33). lia.
Defined.

(** C4 as stated fails at the id 0, which lies outside 1..16: it is not
    wrapped to 16 but answered from the random fallback. *)
Lemma get_room_color_wrap_counterexample :
  ~ (forall (p : ColorsPalette) (n : Z),
       n < 1 \/ 16 < n ->
       fst (get_room_color p (RoomInt n))
       = fst (get_room_color p (RoomInt ((n - 1) mod 16 + 1)))).
Proof.
  intros H. specialize (H palette_default 0 ltac:(lia)).
  vm_compute in H. discriminate H.
Qed.

Lemma draw_path_polyline_ops_witness :
  List.filter is_pieslice (_draw_path_polyline dims_10 1 5 (RGB 0 0 0) polyline_0_10)
  = List.map (end_cap (1 * 5 / 2)%Q (RGB 0 0 0))
      (List.map (on_layer dims_10 1) polyline_0_10).
Proof.
  apply (proj1 (proj2 (proj2 (draw_path_polyline_ops dims_10 1 5 (RGB 0 0 0)
                                polyline_0_10)
                         ltac:(cbn; lia)))).
  reflexivity.
Defined.

(** C9 as stated fails where [scale * w] is not an integer: with scale 1
    and width 3/2 the segment is drawn 1 pixel wide. *)
Lemma draw_path_width_counterexample :
  ~ (forall (dims : ImageDimensions) (scale w : Q) (color : Color)
            (current_path : list Point) (xy : list Q) (fill : Color) (width_px : Z),
       In (Draw_line xy fill width_px)
          (_draw_path_polyline dims scale w color current_path) ->
       (inject_Z width_px == scale * w)%Q).
Proof.
  intros H.
  specialize (H dims_10 1%Q (3 # 2)%Q (RGB 0 0 0) polyline_0_10 _ _ _ (or_introl eq_refl)).
  vm_compute in H. discriminate H.
Qed.

(** The scenario of a 100 by 100 image, scale 1, no trim: the path from
    (0, 0) to (10, 0) with width 1 is one line on pixel row 99, from
    column 0 to column 10. *)
Example draw_path_row_99 :
  let dims := mkImageDimensions 0 0 100 100 1 0 (fun p => p) in
  exists x0 y0 x1 y1,
    _draw_path_polyline dims 1 1 (RGB 147 194 238) polyline_0_10
    = [Draw_line [x0; y0; x1; y1] (RGB 147 194 238) 1] /\
    (x0 == 0 /\ y0 == 99 /\ x1 == 10 /\ y1 == 99)%Q.
Proof.
  cbv zeta. do 4 eexists. split; [reflexivity |]. repeat split; reflexivity.
Qed.

Lemma absent_input_is_no_op_witness :
  renderer cos_quarter sin_quarter pi_approx textbbox_fixed truetype_missing
    rotate_size_same D_CHARGER (generator_of [D_CHARGER]) md_calibrated
  = Ok md_calibrated /\
  draw_drawable cos_quarter sin_quarter pi_approx textbbox_fixed truetype_missing
    rotate_size_same (generator_of [D_CHARGER]) (Drawable_value D_CHARGER) md_calibrated
  = Ok md_calibrated.
Proof.
  apply (proj1 (proj2 (absent_input_is_no_op cos_quarter sin_quarter pi_approx
                         textbbox_fixed truetype_missing rotate_size_same
                         (generator_of [D_CHARGER]) md_calibrated)) D_CHARGER).
  right. reflexivity.
Defined.

(** Without an image nothing is drawn, whatever is asked for. *)
Example draw_map_without_image :
  draw_map cos_quarter sin_quarter pi_approx textbbox_fixed truetype_missing
    rotate_size_same (generator_of [D_CHARGER; D_PATH; D_ROOM_NAMES])
    (MapData_init 0 0)
  = Ok (MapData_init 0 0).
Proof. reflexivity. Qed.

(** The default "outside map" colour is dark (19 + 87 + 148 = 254): the
    placeholder caption is white. *)
Example create_empty_map_image_default :
  create_empty_map_image textbbox_fixed rotate_size_same (generator_of []) "NO MAP"
  = Drawn (Image_new "RGBA" (300, 200) (RGB 19 87 148))
      (Draw_text (((300 - 30) / 2)%Q, ((200 - 10) / 2)%Q) "NO MAP" None
         (RGB 255 255 255)).
Proof. vm_compute. reflexivity. Qed.

(** The map that the parser returns when there is no map has an empty
    image, hence no calibration points. *)
Example create_empty_has_no_calibration :
  calibration cos_quarter sin_quarter radians_deg
    (MapDataParser_create_empty textbbox_fixed rotate_size_same (generator_of []) "NO MAP")
  = None.
Proof. reflexivity. Qed.


(** Why the dimensions must not be negative: with a height of -2 the
    bounding box of the general path is built from |h| = 2, and the two
    paths part by 2. *)
Example rotated_paths_part_on_negative_height :
  let d := mkImageDimensions 0 0 (-2) 10 1 90 (fun p => p) in
  (pt_x (rotated cos_quarter sin_quarter radians_deg (Point_xy 0 0) d) == 0)%Q /\
  (pt_x (rotated_general cos_quarter sin_quarter (radians_deg 90) 0 0 10 (-2)) == 2)%Q.
Proof. split; reflexivity. Qed.

(** A numeric string is read as the integer it denotes, white space and
    sign included; a string that is no integer literal raises, and so
    does one that starts with the file separator (code point 28), which
    [int()] does not skip. *)
Example get_room_color_of_strings :
  fst (get_room_color palette_default (RoomStr "17")) = inr (RGB 240 178 122) /\
  fst (get_room_color palette_default (RoomStr " +2 ")) = inr (RGB 133 193 233) /\
  fst (get_room_color palette_default (RoomStr "kitchen")) = inl invalid_literal /\
  fst (get_room_color palette_default (RoomStr (String (ascii_of_nat 28) "5")))
  = inl invalid_literal.
Proof. repeat split; vm_compute; reflexivity. Qed.

(** With every optional field absent, all seventeen kinds requested and
    no text, [draw_map] only rotates the image (here by 0 degrees, the
    general rotation). *)
Example draw_map_of_bare_map :
  draw_map cos_quarter sin_quarter pi_approx textbbox_fixed truetype_missing
    rotate_size_same
    (generator_of
       [ D_CHARGER; D_CLEANED_AREA; D_GOTO_PATH; D_IGNORED_OBSTACLES;
         D_IGNORED_OBSTACLES_WITH_PHOTO; D_MOP_PATH; D_NO_CARPET_AREAS;
         D_NO_GO_AREAS; D_NO_MOPPING_AREAS; D_OBSTACLES; D_OBSTACLES_WITH_PHOTO;
         D_PATH; D_PREDICTED_PATH; D_ROOM_NAMES; D_VACUUM_POSITION;
         D_VIRTUAL_WALLS; D_ZONES ])
    md_calibrated
  = Ok (set_image md_calibrated
          (Some (set_data image_10_20
                   (Image_rotate (Raster "map" (10, 20)) 0 (RGB 19 87 148))))).
Proof. vm_compute. reflexivity. Qed.

(** * The further properties at sample inputs *)

Lemma rotated_quarter_turns_witness :
  rotated cos_quarter sin_quarter radians_deg (Point_xy 3 4)
    (mkImageDimensions 0 0 20 10 1 450 (fun p => p))
  = quarter_turns 5 3 4 10 20.
Proof.
  apply (rotated_quarter_turns cos_quarter sin_quarter radians_deg (Point_xy 3 4)
           (mkImageDimensions 0 0 20 10 1 450 (fun p => p)) 5 10 20);
    [reflexivity | cbn; lia | reflexivity | reflexivity].
Defined.

Lemma rotated_not_positive_witness :
  rotated cos_quarter sin_quarter radians_deg (Point_xy 3 4)
    (mkImageDimensions 0 0 20 10 1 (- (90)) (fun p => p))
  = Point_xy 3 4.
Proof.
  apply (rotated_not_positive cos_quarter sin_quarter radians_deg (Point_xy 3 4)
           (mkImageDimensions 0 0 20 10 1 (- (90)) (fun p => p)) 1).
  reflexivity.
Defined.

Lemma to_img_monotone_witness :
  (pt_x (to_img dims_10 (Point_xy 3 4)) <= pt_x (to_img dims_10 (Point_xy 7 2)))%Q /\
  (pt_y (to_img dims_10 (Point_xy 3 4)) <= pt_y (to_img dims_10 (Point_xy 7 2)))%Q.
Proof.
  split.
  - apply (proj1 (to_img_monotone dims_10 (Point_xy 3 4) (Point_xy 7 2)
                    ltac:(discriminate))).
    discriminate.
  - apply (proj2 (to_img_monotone dims_10 (Point_xy 7 2) (Point_xy 3 4)
                    ltac:(discriminate))).
    discriminate.
Defined.

Lemma trim_keeps_dimensions_in_range_witness :
  let dims := dimensions (ImageData_init 0 0 0 20 10 config_trimmed
                            (Raster "map" (10, 20)) (fun p => p) None) in
  0 <= width dims <= 10 /\ 0 <= left dims <= 0 + 10.
Proof.
  apply (proj1 (trim_keeps_dimensions_in_range 0 0 0 20 10 config_trimmed
                  (Raster "map" (10, 20)) (fun p => p) None));
    [lia | discriminate | discriminate | discriminate].
Defined.

Lemma none_layers_are_dropped_witness :
  let im := ImageData_init 0 0 0 20 10 ImageConfig_default (Raster "map" (10, 20))
              (fun p => p) (Some {[ Drawable_value D_CLEANED_AREA := None ]}) in
  let md := set_image (MapData_init 0 1) (Some im) in
  _draw_layer rotate_size_same md (Drawable_value D_CLEANED_AREA) = Ok md.
Proof.
  intros im md.
  apply (proj2 (none_layers_are_dropped rotate_size_same 0 0 0 20 10 ImageConfig_default
                  (Raster "map" (10, 20)) (fun p => p)
                  {[ Drawable_value D_CLEANED_AREA := None ]}
                  (Drawable_value D_CLEANED_AREA) md));
    [reflexivity | right; reflexivity].
Defined.

Lemma override_is_local_witness :
  let p0 := ColorsPalette_init (mkRandom (fun _ => 0) 0) (Some ∅) (Some ∅) in
  let p := ColorsPalette_init (mkRandom (fun _ => 0) 0)
             (Some (<[SupportedColor_value PATH := RGB 1 2 3]> ∅)) (Some ∅) in
  get_color p (SupportedColor_value CHARGER) = get_color p0 (SupportedColor_value CHARGER).
Proof.
  apply (proj2 (override_is_local (mkRandom (fun _ => 0) 0) ∅ ∅ PATH (RGB 1 2 3))).
  discriminate.
Defined.

Lemma get_room_color_from_1_witness :
  exists builtin,
    ROOM_COLORS !! py_str ((5 - 1) mod 16 + 1) = Some builtin /\
    fst (get_room_color palette_default (RoomInt 5))
    = inr (dict_get (_overriden_room_colors palette_default)
             (py_str ((5 - 1) mod 16 + 1)) builtin).
Proof.
  destruct (get_room_color_from_1 palette_default 5 ltac:(lia)) as (b & H1 & H2 & _).
  exists b. split; [exact H1 | exact H2].
Defined.

Lemma draw_map_keeps_raster_size_witness :
  let self :=
    generator_named [Drawable_value D_VACUUM_POSITION; Drawable_value D_CLEANED_AREA]
      [text_centre] in
  let md' :=
    Res_state
      (draw_map cos_quarter sin_quarter pi_approx textbbox_fixed truetype_missing
         rotate_size_same self (md_with_layer (10, 20))) in
  exists pixels,
    image md' = Some (set_data (image_with_layer (10, 20)) pixels) /\
    Image_size rotate_size_same pixels = (10, 20).
Proof.
  intros self md'.
  apply (draw_map_keeps_raster_size cos_quarter sin_quarter pi_approx textbbox_fixed
           truetype_missing rotate_size_same self (md_with_layer (10, 20)) md'
           (image_with_layer (10, 20)));
    [reflexivity | vm_compute; reflexivity].
Defined.

Lemma draw_layer_size_mismatch_witness :
  draw_map cos_quarter sin_quarter pi_approx textbbox_fixed truetype_missing
    rotate_size_same
    (generator_named [Drawable_value D_CLEANED_AREA; Drawable_value D_PATH] [text_centre])
    (md_with_layer (5, 5))
  = Raised (ValueError "images do not match") (md_with_layer (5, 5)).
Proof.
  apply (proj2 (draw_layer_size_mismatch cos_quarter sin_quarter pi_approx textbbox_fixed
                  truetype_missing rotate_size_same
                  (generator_named [Drawable_value D_CLEANED_AREA; Drawable_value D_PATH]
                     [text_centre])
                  (md_with_layer (5, 5)) (image_with_layer (5, 5))
                  (Raster "cleaned" (5, 5)) [Drawable_value D_PATH]
                  eq_refl eq_refl ltac:(discriminate) eq_refl)).
Defined.

Lemma draw_map_skips_unknown_witness :
  draw_map cos_quarter sin_quarter pi_approx textbbox_fixed truetype_missing
    rotate_size_same (generator_named ["walls"; "Path"] [text_centre]) md_vacuum
  = draw_map cos_quarter sin_quarter pi_approx textbbox_fixed truetype_missing
      rotate_size_same (generator_named [] [text_centre]) md_vacuum.
Proof.
  apply (draw_map_skips_unknown cos_quarter sin_quarter pi_approx textbbox_fixed
           truetype_missing rotate_size_same
           (generator_named ["walls"; "Path"] [text_centre]) md_vacuum).
  intros name [<- | [<- | []]] d; destruct d; discriminate.
Defined.

Lemma draw_vacuum_default_heading_witness :
  length (fst (_draw_vacuum_ops cos_quarter sin_quarter pi_approx
                 (dimensions image_10_20) (Point_xy 5 5) 6 (RGB 0 0 0) (RGB 255 255 255)))
  = 4%nat.
Proof.
  exact (proj2 (proj2 (draw_vacuum_default_heading cos_quarter sin_quarter pi_approx
                         rotate_size_same image_10_20 (Point_xy 5 5) 6
                         (RGB 0 0 0) (RGB 255 255 255) eq_refl))).
Defined.

Lemma default_sizes_draw_no_caps_witness :
  _get_size (generator_of []) MOP_PATH_WIDTH = 1%Q /\
  List.filter is_pieslice
    (_draw_path_ops dims_10 1 (_get_size (generator_of []) MOP_PATH_WIDTH)
       (RGB 0 0 0) path_0_10) = [].
Proof.
  destruct (default_sizes_draw_no_caps (generator_of []) dims_10 1 (RGB 0 0 0)
              path_0_10 MOP_PATH_WIDTH eq_refl (or_intror eq_refl))
    as (H1 & _ & H3).
  split; [exact H1 | exact H3].
Defined.

Lemma draw_map_only_pixels_when_heading_known_witness :
  exists pixels,
    Res_state
      (draw_map cos_quarter sin_quarter pi_approx textbbox_fixed truetype_missing
         rotate_size_same (generator_of [D_VACUUM_POSITION])
         (set_vacuum_position md_calibrated (Some (mkPoint 5 5 (Some 90%Q)))))
    = set_image (set_vacuum_position md_calibrated (Some (mkPoint 5 5 (Some 90%Q))))
        (Some (set_data image_10_20 pixels)).
Proof.
  apply (draw_map_only_pixels_when_heading_known cos_quarter sin_quarter pi_approx
           textbbox_fixed truetype_missing rotate_size_same
           (generator_of [D_VACUUM_POSITION])
           (set_vacuum_position md_calibrated (Some (mkPoint 5 5 (Some 90%Q))))
           image_10_20);
    [reflexivity |].
  intros p H. injection H as <-. discriminate.
Defined.

Lemma get_room_color_below_table_witness :
  exists c,
    ROOM_COLORS !! py_str (fst (randint (_random palette_default) 1 16)) = Some c /\
    fst (get_room_color palette_default (RoomInt 0))
    = inr (dict_get (_overriden_room_colors palette_default) (py_str 0) c).
Proof.
  apply (proj2 (proj1 (get_room_color_below_table palette_default 0 ltac:(lia))
                  ltac:(pose proof limit_above_16; lia))).
Defined.


Lemma as_dict_None_free_witness :
  None_free (PyDict (OutputObject_as_dict (asdict_Path path_0_10))) = false.
Proof.
  apply (proj2 (proj2 (proj2 (proj2 (as_dict_None_free (Point_xy 0 0)
                                        (Obstacle_init 0 0
                                           (mkObstacleDetails None None None None))
                                        path_0_10 image_10_20))))
           (Point_xy 0 0));
    [reflexivity | left; reflexivity].
Defined.
